(** * The epoll server with a unified event source, and the chat client

    A shallow embedding of [src/linux/socket/simple]: the server whose
    event loop multiplexes a listening socket and a signal pipe
    (the code after the header part of [clientmsg.h]) and the two
    threads of the chat client ([client.c]).

    The program is written against the Linux system call interface.  The
    kernel side is modelled by a [world] record (descriptor table, epoll
    interest list, the byte queue of the socket pair, ...) and the calls
    the program makes are functions of a small state monad over it.  What
    the environment decides (which descriptors are ready, whether [bind]
    succeeds, ...) is an input of the model. *)

From Stdlib Require Import ZArith List Bool Lia Ascii String.
From stdpp Require Import gmap strings pretty.
Import ListNotations.
Local Open Scope Z_scope.

(** ** Platform constants (x86-64 Linux headers) *)

Module Linux.
Definition SIGHUP : Z := 1.
Definition SIGINT : Z := 2.
Definition SIGKILL : Z := 9.
Definition SIGTERM : Z := 15.
Definition SIGCHLD : Z := 17.
Definition SIGSTOP : Z := 19.
Definition NSIG : Z := 64.

Definition EINTR : Z := 4.
Definition EBADF : Z := 9.
Definition EAGAIN : Z := 11.
Definition EEXIST : Z := 17.
Definition EINVAL : Z := 22.

Definition O_RDWR : Z := 2.
Definition O_APPEND : Z := 1024.
Definition O_NONBLOCK : Z := 2048.
Definition O_ASYNC : Z := 8192.
Definition O_DIRECT : Z := 16384.
Definition O_NOATIME : Z := 262144.
(** the status flags that [fcntl(F_SETFL)] is able to change *)
Definition SETFL_MASK : Z :=
  Z.lor O_APPEND (Z.lor O_NONBLOCK (Z.lor O_ASYNC (Z.lor O_DIRECT O_NOATIME))).

Definition EPOLLIN : Z := 1.
Definition EPOLLET : Z := 2147483648.
End Linux.
Import Linux.

Definition MAX_EVENT_NUMBER : Z := 1024.

Definition nl : string := String (Ascii.ascii_of_nat 10) EmptyString.

(** ** System calls as the program issues them *)

(** One entry per call, with its arguments and what it returned. *)
Inductive call : Type :=
| CSocket (r : Z)
| CBind (fd r : Z)
| CListen (fd backlog r : Z)
| CEpollCreate (r : Z)
| CEpollCtlAdd (epfd fd events r : Z)
| CFcntlGet (fd r : Z)
| CFcntlSet (fd arg r : Z)
| CSocketpair (r : Z)
| CSigaction (sig r : Z)
| CEpollWait (epfd r : Z)
| CAccept (fd r : Z)
| CRecv (fd len : Z) (data : list Z) (r : Z)
| CSend (fd : Z) (data : list Z) (flags r : Z)
| CClose (fd : Z).

(** ** The world: kernel objects, file-scope variables, output streams *)

Record world : Type := World {
  errno : Z;
  fdtab : gmap Z Z;       (* open descriptors, each with the status flags of its open
                             file description: the program duplicates no descriptor,
                             so each of its sockets has a description of its own *)
  interest : gmap Z Z;    (* interest list of the epoll instance: descriptor, event mask *)
  bridge : list Z;        (* bytes sent on pipefd[1] and not yet received on pipefd[0] *)
  bridge_cap : nat;       (* how many bytes the socket pair buffers *)
  backlog : list Z;       (* completed connections, as the descriptors accept hands out *)
  handlers : list Z;      (* signals whose disposition is sig_handler *)
  pipefd0 : Z;            (* static int pipefd[2] *)
  pipefd1 : Z;
  stdout : list string;   (* what printf was given, in order; the stream is flushed
                             at the latest when main returns *)
  stderr : list string;
  log : list call         (* the calls issued so far, oldest first *)
}.

Definition set_errno (e : Z) (w : world) : world :=
  World e (fdtab w) (interest w) (bridge w) (bridge_cap w) (backlog w) (handlers w)
        (pipefd0 w) (pipefd1 w) (stdout w) (stderr w) (log w).
Definition set_fdtab (t : gmap Z Z) (w : world) : world :=
  World (errno w) t (interest w) (bridge w) (bridge_cap w) (backlog w) (handlers w)
        (pipefd0 w) (pipefd1 w) (stdout w) (stderr w) (log w).
Definition set_interest (t : gmap Z Z) (w : world) : world :=
  World (errno w) (fdtab w) t (bridge w) (bridge_cap w) (backlog w) (handlers w)
        (pipefd0 w) (pipefd1 w) (stdout w) (stderr w) (log w).
Definition set_bridge (q : list Z) (w : world) : world :=
  World (errno w) (fdtab w) (interest w) q (bridge_cap w) (backlog w) (handlers w)
        (pipefd0 w) (pipefd1 w) (stdout w) (stderr w) (log w).
Definition set_backlog (q : list Z) (w : world) : world :=
  World (errno w) (fdtab w) (interest w) (bridge w) (bridge_cap w) q (handlers w)
        (pipefd0 w) (pipefd1 w) (stdout w) (stderr w) (log w).
Definition set_handlers (h : list Z) (w : world) : world :=
  World (errno w) (fdtab w) (interest w) (bridge w) (bridge_cap w) (backlog w) h
        (pipefd0 w) (pipefd1 w) (stdout w) (stderr w) (log w).
Definition set_pipefd (a b : Z) (w : world) : world :=
  World (errno w) (fdtab w) (interest w) (bridge w) (bridge_cap w) (backlog w) (handlers w)
        a b (stdout w) (stderr w) (log w).
Definition set_stdout (o : list string) (w : world) : world :=
  World (errno w) (fdtab w) (interest w) (bridge w) (bridge_cap w) (backlog w) (handlers w)
        (pipefd0 w) (pipefd1 w) o (stderr w) (log w).
Definition set_stderr (o : list string) (w : world) : world :=
  World (errno w) (fdtab w) (interest w) (bridge w) (bridge_cap w) (backlog w) (handlers w)
        (pipefd0 w) (pipefd1 w) (stdout w) o (log w).
Definition set_log (l : list call) (w : world) : world :=
  World (errno w) (fdtab w) (interest w) (bridge w) (bridge_cap w) (backlog w) (handlers w)
        (pipefd0 w) (pipefd1 w) (stdout w) (stderr w) l.

Definition record (c : call) (w : world) : world := set_log (log w ++ [c]) w.

(** ** Computations: state, [abort()] and calls that never come back *)

Inductive outcome (A : Type) : Type :=
| Ret (a : A)     (* the computation came back with a value *)
| Abort           (* an assertion failed: abort() *)
| Block.          (* the thread is suspended inside a blocking call *)
Arguments Ret {A} a.
Arguments Abort {A}.
Arguments Block {A}.

Definition M (A : Type) : Type := world -> outcome A * world.

Definition ret {A} (a : A) : M A := fun w => (Ret a, w).

Definition bind {A B} (c : M A) (k : A -> M B) : M B :=
  fun w => match c w with
           | (Ret a, w') => k a w'
           | (Abort, w') => (Abort, w')
           | (Block, w') => (Block, w')
           end.

Notation "x <-- c ;; k" := (bind c (fun x => k))
  (at level 100, c at next level, right associativity).
Notation "c ;;; k" := (bind c (fun _ => k))
  (at level 100, right associativity).

Definition get_errno : M Z := fun w => (Ret (errno w), w).
Definition put_errno (e : Z) : M unit := fun w => (Ret tt, set_errno e w).
Definition printf (s : string) : M unit :=
  fun w => (Ret tt, set_stdout (stdout w ++ [s]) w).

(** [assert(c)]: a failed assertion writes to standard error and aborts. *)
Definition assert (c : bool) : M unit :=
  fun w => if c then (Ret tt, w)
           else (Abort, set_stderr (stderr w ++ ["Assertion failed"%string]) w).

(** What a system call reports: a value, or -1 with [errno] set. *)
Definition succeed (c : Z -> call) (v : Z) (w : world) : outcome Z * world :=
  (Ret v, record (c v) w).
Definition fail (c : Z -> call) (e : Z) (w : world) : outcome Z * world :=
  (Ret (-1), record (c (-1)) (set_errno e w)).

(** A result left to the environment. *)
Inductive sysret : Type := Success (v : Z) | Failure (e : Z).

(** ** The kernel side of the calls *)

(** Status flags of an open descriptor; descriptors are never negative. *)
Definition fd_flags (w : world) (fd : Z) : option Z :=
  if fd <? 0 then None else fdtab w !! fd.

Definition nonblocking (fl : Z) : bool := negb (Z.land fl O_NONBLOCK =? 0).

Definition fcntl_getfl (fd : Z) : M Z :=
  fun w => match fd_flags w fd with
           | Some fl => succeed (CFcntlGet fd) fl w
           | None => fail (CFcntlGet fd) EBADF w
           end.

(** [F_SETFL] replaces the changeable status bits by those of [arg] and
    keeps the access mode and the creation flags. *)
Definition fcntl_setfl (fd arg : Z) : M Z :=
  fun w => match fd_flags w fd with
           | Some fl =>
               let fl' := Z.lor (Z.land arg SETFL_MASK) (Z.land fl (Z.lnot SETFL_MASK)) in
               succeed (CFcntlSet fd arg) 0 (set_fdtab (<[fd := fl']> (fdtab w)) w)
           | None => fail (CFcntlSet fd arg) EBADF w
           end.

Definition epoll_ctl_add (epfd fd events : Z) : M Z :=
  fun w => match fd_flags w epfd, fd_flags w fd with
           | Some _, Some _ =>
               if fd =? epfd then fail (CEpollCtlAdd epfd fd events) EINVAL w
               else match interest w !! fd with
                    | Some _ => fail (CEpollCtlAdd epfd fd events) EEXIST w
                    | None => succeed (CEpollCtlAdd epfd fd events) 0
                                (set_interest (<[fd := events]> (interest w)) w)
                    end
           | _, _ => fail (CEpollCtlAdd epfd fd events) EBADF w
           end.

(** [accept] on the listening socket takes the oldest completed
    connection; with none pending it fails with [EAGAIN] on a nonblocking
    socket and suspends the caller on a blocking one. *)
Definition accept (fd : Z) : M Z :=
  fun w => match fd_flags w fd with
           | None => fail (CAccept fd) EBADF w
           | Some fl =>
               match backlog w with
               | c :: rest =>
                   succeed (CAccept fd) c
                     (set_fdtab (<[c := O_RDWR]> (fdtab w)) (set_backlog rest w))
               | [] => if nonblocking fl then fail (CAccept fd) EAGAIN w
                       else (Block, w)
               end
           end.

(** [recv(fd, buf, len, 0)] on the read end of the socket pair: the first
    [len] queued bytes at most.  The result is the count together with the
    bytes stored into the buffer. *)
Definition recv (fd len : Z) : M (Z * list Z) :=
  fun w => match fd_flags w fd with
           | None => (Ret (-1, []), record (CRecv fd len [] (-1)) (set_errno EBADF w))
           | Some fl =>
               match bridge w with
               | [] => if nonblocking fl
                       then (Ret (-1, []), record (CRecv fd len [] (-1)) (set_errno EAGAIN w))
                       else (Block, w)
               | _ :: _ =>
                   let data := firstn (Z.to_nat len) (bridge w) in
                   let n := Z.of_nat (length data) in
                   (Ret (n, data),
                    record (CRecv fd len data n)
                      (set_bridge (skipn (Z.to_nat len) (bridge w)) w))
               end
           end.

(** [send(fd, buf, len, flags)] on the write end of the socket pair, for
    the one-byte messages of the program: the byte is queued when the
    buffer has room; otherwise the call fails with [EAGAIN] on a
    nonblocking socket and suspends the caller on a blocking one. *)
Definition send (fd : Z) (data : list Z) (flags : Z) : M Z :=
  fun w => match fd_flags w fd with
           | None => fail (CSend fd data flags) EBADF w
           | Some fl =>
               if (length (bridge w) + length data <=? bridge_cap w)%nat
               then succeed (CSend fd data flags) (Z.of_nat (length data))
                      (set_bridge (bridge w ++ data) w)
               else if nonblocking fl then fail (CSend fd data flags) EAGAIN w
               else (Block, w)
           end.

Definition close (fd : Z) : M Z :=
  fun w => match fd_flags w fd with
           | None => (Ret (-1), record (CClose fd) (set_errno EBADF w))
           | Some _ =>
               (Ret 0, record (CClose fd)
                         (set_interest (delete fd (interest w))
                            (set_fdtab (delete fd (fdtab w)) w)))
           end.

(** [sigaction] installs the handler for every signal that can be caught:
    1 to 64 without SIGKILL and SIGSTOP, and without 32 and 33, which the C
    library keeps for itself and refuses with [EINVAL]. *)
Definition catchable (sig : Z) : bool :=
  (1 <=? sig) && (sig <=? NSIG) && negb (sig =? SIGKILL) && negb (sig =? SIGSTOP)
  && negb (sig =? 32) && negb (sig =? 33).

Definition sigaction (sig : Z) : M Z :=
  fun w => if catchable sig
           then succeed (CSigaction sig) 0 (set_handlers (sig :: handlers w) w)
           else fail (CSigaction sig) EINVAL w.

(** Calls that allocate a descriptor: the environment chooses the number. *)
Definition new_fd (c : Z -> call) (r : sysret) : M Z :=
  fun w => match r with
           | Success fd => succeed c fd (set_fdtab (<[fd := O_RDWR]> (fdtab w)) w)
           | Failure e => fail c e w
           end.

Definition env_call (c : Z -> call) (r : sysret) : M Z :=
  fun w => match r with
           | Success v => succeed c v w
           | Failure e => fail c e w
           end.

(** [socketpair(PF_UNIX, SOCK_STREAM, 0, pipefd)]: two fresh connected
    descriptors stored into the file-scope array. *)
Inductive pair_result : Type := PairOk (sv0 sv1 : Z) | PairFailed (e : Z).

Definition socketpair (r : pair_result) : M Z :=
  fun w => match r with
           | PairOk a b =>
               succeed CSocketpair 0
                 (set_pipefd a b
                    (set_bridge []
                       (set_fdtab (<[b := O_RDWR]> (<[a := O_RDWR]> (fdtab w))) w)))
           | PairFailed e => fail CSocketpair e w
           end.

Definition get_pipefd0 : M Z := fun w => (Ret (pipefd0 w), w).
Definition get_pipefd1 : M Z := fun w => (Ret (pipefd1 w), w).

(** [struct epoll_event], with the member of the [data] union in use. *)
Record epoll_event : Type := EpollEvent { events : Z; data_fd : Z }.

(** What one [epoll_wait(epollfd, events, maxevents, -1)] reports. *)
Inductive wait_result : Type :=
| Ready (evs : list epoll_event)
| WaitFailed (e : Z).

Definition epoll_wait (epfd maxevents : Z) (r : wait_result)
  : M (Z * list epoll_event) :=
  fun w => match r with
           | Ready evs =>
               let got := firstn (Z.to_nat maxevents) evs in
               let n := Z.of_nat (length got) in
               (Ret (n, got), record (CEpollWait epfd n) w)
           | WaitFailed e =>
               (Ret (-1, []), record (CEpollWait epfd (-1)) (set_errno e w))
           end.

(** ** The server (second part of [clientmsg.h])

    The file does not compile as it stands: statements of
    [setnonblocking] lack their semicolon, its update command is spelled
    [F_SETTL] and [addfd] calls it as [setnonblock].  The embedding reads
    them as [F_SETFL] and [setnonblocking], the only candidates. *)

(** [int setnonblocking(int fd)].  The function has no [return]
    statement and no caller reads a value, so the model returns [tt]. *)
Definition setnonblocking (fd : Z) : M unit :=
  old_option <-- fcntl_getfl fd;;
  let new_option := Z.lor old_option O_NONBLOCK in
  _r <-- fcntl_setfl fd new_option;;
  ret tt.

(** [void addfd(int epollfd, int fd)] *)
Definition addfd (epollfd fd : Z) : M unit :=
  let event := {| data_fd := fd; events := Z.lor EPOLLIN EPOLLET |} in
  _r <-- epoll_ctl_add epollfd (data_fd event) (events event);;
  setnonblocking fd.

(** The bytes of an [int] object in memory (little endian, 4 bytes). *)
Definition int_bytes (v : Z) : list Z :=
  map (fun k => Z.land (Z.shiftr v (8 * k)) 255) [0; 1; 2; 3].

(** [void sig_handler(int sig)] *)
Definition sig_handler (sig : Z) : M unit :=
  save_errno <-- get_errno;;
  let msg := sig in
  wr <-- get_pipefd1;;
  _r <-- send wr (firstn 1 (int_bytes msg)) 0;;
  put_errno save_errno.

(** [void addsig(int sig)] *)
Definition addsig (sig : Z) : M unit :=
  r <-- sigaction sig;;
  assert (negb (r =? -1)).

(** The value of a [char] holding the byte [b] ([char] is signed). *)
Definition char_of_byte (b : Z) : Z := if b <? 128 then b else b - 256.

(** The [switch] on [signals[i]]: the value of [stop_server] after it. *)
Definition classify (c : Z) (stop_server : bool) : bool :=
  if (c =? SIGCHLD) || (c =? SIGHUP) then stop_server
  else if (c =? SIGTERM) || (c =? SIGINT) then true
  else stop_server.

(** [for(int i = 0; i < ret; ++i) switch(signals[i])] *)
Definition classify_all (ret : Z) (signals : list Z) (stop_server : bool) : bool :=
  fold_left (fun stop b => classify (char_of_byte b) stop)
            (firstn (Z.to_nat ret) signals) stop_server.

(** Body of the [for] loop over the reported events. *)
Definition on_event (epollfd listenfd : Z) (ev : epoll_event) (stop_server : bool)
  : M bool :=
  let sockfd := data_fd ev in
  if sockfd =? listenfd then
    connfd <-- accept listenfd;;
    addfd epollfd connfd;;;
    ret stop_server
  else
    rd <-- get_pipefd0;;
    if (sockfd =? rd) && negb (Z.land (events ev) EPOLLIN =? 0) then
      r <-- recv rd 1024;;
      let '(n, signals) := r in
      if n =? -1 then ret stop_server
      else ret (classify_all n signals stop_server)
    else ret stop_server.

Fixpoint for_events (epollfd listenfd : Z) (evs : list epoll_event)
  (stop_server : bool) : M bool :=
  match evs with
  | [] => ret stop_server
  | ev :: evs' =>
      stop <-- on_event epollfd listenfd ev stop_server;;
      for_events epollfd listenfd evs' stop
  end.

(** What happens while the loop is suspended in one [epoll_wait]: signals
    are delivered (their handler runs on the thread), connections
    complete, and the call reports. *)
Record wait_input : Type := WaitInput {
  delivered : list Z;
  arrived : list Z;
  reported : wait_result
}.

Fixpoint deliver (sigs : list Z) : M unit :=
  match sigs with
  | [] => ret tt
  | s :: rest =>
      (fun w => if existsb (Z.eqb s) (handlers w) then sig_handler s w
                else (Ret tt, w));;;
      deliver rest
  end.

Definition arrive (conns : list Z) : M unit :=
  fun w => (Ret tt, set_backlog (backlog w ++ conns) w).

(** One [epoll_wait] of the loop together with what the environment
    does while the thread is suspended in it. *)
Definition await (epollfd : Z) (i : wait_input) : M (Z * list epoll_event) :=
  deliver (delivered i);;;
  arrive (arrived i);;;
  epoll_wait epollfd MAX_EVENT_NUMBER (reported i).

(** [while(!stop_server)]; the result is [stop_server] when the loop is
    left.  With nothing more coming from the environment the loop stays
    suspended in [epoll_wait] (the timeout is -1). *)
Fixpoint event_loop (epollfd listenfd : Z) (ins : list wait_input)
  (stop_server : bool) : M bool :=
  if stop_server then ret stop_server
  else match ins with
       | [] => fun w => (Block, w)
       | i :: ins' =>
           r <-- await epollfd i;;
           let '(number, evs) := r in
           e <-- get_errno;;
           if (number <? 0) && negb (e =? EINTR) then
             printf ("epoll failure" +:+ nl);;;
             ret stop_server
           else
             stop <-- for_events epollfd listenfd evs stop_server;;
             event_loop epollfd listenfd ins' stop
       end.

(** What the environment answers during one run of the server. *)
Record env : Type := Env {
  e_socket : sysret;
  e_bind : sysret;
  e_listen : sysret;
  e_epoll_create : sysret;
  e_socketpair : pair_result;
  e_waits : list wait_input
}.

(** [basename]: what follows the last slash. *)
Fixpoint basename_from (cur : string) (s : string) : string :=
  match s with
  | EmptyString => cur
  | String c rest =>
      if Ascii.eqb c "/"%char then basename_from rest rest
      else basename_from cur rest
  end.
Definition basename (s : string) : string := basename_from s s.

(** [main] from the creation of the listening socket to the last
    [addsig]: the descriptors [(epollfd, listenfd)] the loop works on. *)
Definition setup (e : env) : M (Z * Z) :=
  listenfd <-- new_fd CSocket (e_socket e);;
  assert (0 <=? listenfd);;;
  r <-- env_call (CBind listenfd) (e_bind e);;
  (if r =? -1
   then en <-- get_errno;; printf ("errno is " +:+ pretty en +:+ nl)
   else ret tt);;;
  r <-- env_call (CListen listenfd 5) (e_listen e);;
  assert (negb (r =? -1));;;
  epollfd <-- new_fd CEpollCreate (e_epoll_create e);;
  assert (negb (epollfd =? -1));;;
  addfd epollfd listenfd;;;
  r <-- socketpair (e_socketpair e);;
  assert (negb (r =? -1));;;
  wr <-- get_pipefd1;;
  setnonblocking wr;;;
  rd <-- get_pipefd0;;
  addfd epollfd rd;;;
  addsig SIGHUP;;;
  addsig SIGCHLD;;;
  addsig SIGTERM;;;
  addsig SIGINT;;;
  ret (epollfd, listenfd).

(** [main] after the loop: the value it returns. *)
Definition teardown (listenfd : Z) : M Z :=
  printf ("close fds" +:+ nl);;;
  _r <-- close listenfd;;
  wr <-- get_pipefd1;;
  _r <-- close wr;;
  rd <-- get_pipefd0;;
  _r <-- close rd;;
  ret 0.

(** [int main(int argc, char* argv[])] *)
Definition main (argv : list string) (e : env) : M Z :=
  if Z.of_nat (length argv) <=? 2 then
    printf ("usage: " +:+ basename (hd EmptyString argv)
              +:+ " ip_address por_number" +:+ nl);;;
    ret 1
  else
    fds <-- setup e;;
    let '(epollfd, listenfd) := fds in
    _stop <-- event_loop epollfd listenfd (e_waits e) false;;
    teardown listenfd.

(** A freshly started process: descriptors 0, 1 and 2 open. *)
Definition boot (cap : nat) : world :=
  World 0 (<[0 := O_RDWR]> (<[1 := O_RDWR]> (<[2 := O_RDWR]> ∅))) ∅ [] cap [] [] 0 0 [] [] [].

Definition quiet_env (waits : list wait_input) : env :=
  Env (Success 3) (Success 0) (Success 0) (Success 4) (PairOk 5 6) waits.


(** ** The chat client ([client.c]) *)

Module Client.

(** First part of [clientmsg.h] *)
Definition EXIT : Z := -1.
Definition USER : Z := 1.
Definition MSG : Z := 2.
Definition OK : Z := 3.

Record CLIENTMSG : Type := ClientMsg {
  op : Z;
  username : string;
  buf : string
}.

(** [bzero(&clientMsg, sizeof(clientMsg))] *)
Definition zeroed : CLIENTMSG := ClientMsg 0 EmptyString EmptyString.

(** A [while(1)] loop fed by the environment: each pass consumes one
    input; the body says whether the loop goes on or is left by [break]. *)
Inductive control (S : Type) : Type :=
| Continue (s : S)
| Break (s : S).
Arguments Continue {S} s.
Arguments Break {S} s.

Inductive loop_status (S : Type) : Type :=
| InLoop (s : S)      (* still inside the loop, at the call that takes input *)
| LeftLoop (s : S).   (* control is past the loop *)
Arguments InLoop {S} s.
Arguments LeftLoop {S} s.

Fixpoint while1 {I S : Type} (body : I -> S -> control S) (ins : list I) (s : S)
  : loop_status S :=
  match ins with
  | [] => InLoop s
  | i :: rest =>
      match body i s with
      | Continue s' => while1 body rest s'
      | Break s' => LeftLoop s'
      end
  end.

(** One [recv(sockfd, &clientMsg, sizeof(clientMsg), 0)]: the value
    returned and, when bytes arrived, the record they leave in memory. *)
Record received : Type := Received { len : Z; content : CLIENTMSG }.

(** Body of the loop of [process_cli]; the state is what the thread has
    printed. *)
Definition process_cli_body (r : received) (out : list string)
  : control (list string) :=
  let clientMsg := zeroed in
  let clientMsg := if 0 <? len r then content r else clientMsg in
  if 0 <? len r then
    if op clientMsg =? USER then
      Continue (out ++ ["the user " +:+ username clientMsg +:+ " is login." +:+ nl])
    else if op clientMsg =? EXIT then
      Continue (out ++ ["the user " +:+ username clientMsg +:+ " is logout." +:+ nl])
    else if op clientMsg =? MSG then
      Continue (out ++ [username clientMsg +:+ ": " +:+ buf clientMsg +:+ nl])
    else Continue out
  else Continue out.

(** [void process_cli(int sockfd, struct CLIENTMSG clientMsg)] *)
Definition process_cli (rs : list received) (out : list string)
  : loop_status (list string) :=
  while1 process_cli_body rs out.



(** *** The main thread

    [struct CLIENTMSG] in memory is the [int] [op] followed by the 120
    characters of [username[20]] and [buf[100]], one array right after the
    other.  The main thread fills the arrays with [scanf] and [gets], which
    know nothing of their sizes, so its record is kept as that memory. *)
Definition NAMELEN : nat := 20.
Definition CMSGLEN : nat := 100.
Definition NUL : ascii := "000"%char.
Definition newline : ascii := "010"%char.

Record image : Type := Image {
  i_op : Z;
  i_chars : list ascii      (* username[0..19], then buf[0..99] *)
}.

Definition set_op (v : Z) (m : image) : image := Image v (i_chars m).
Definition set_chars (cs : list ascii) (m : image) : image := Image (i_op m) cs.

Definition username_field (m : image) : list ascii := firstn NAMELEN (i_chars m).
Definition buf_field (m : image) : list ascii := skipn NAMELEN (i_chars m).

(** Writing [data] into memory from position [off] on. *)
Definition store (off : nat) (data mem : list ascii) : list ascii :=
  firstn off mem ++ data ++ skipn (off + length data) mem.

(** The characters of a C string: those before the first [NUL]. *)
Fixpoint cstring (mem : list ascii) : list ascii :=
  match mem with
  | [] => []
  | c :: rest => if Ascii.eqb c NUL then [] else c :: cstring rest
  end.

(** [strcmp(a, b) == 0], both read from memory up to their [NUL]. *)
Fixpoint strcmp_zero (a b : list ascii) : bool :=
  match a, b with
  | x :: a', y :: b' =>
      if Ascii.eqb x y then (if Ascii.eqb x NUL then true else strcmp_zero a' b')
      else false
  | _, _ => false
  end.

Definition bye : list ascii := ["b"; "y"; "e"]%char.

(** [strcmp("bye", clientMsgSend.buf) == 0] *)
Definition says_bye (m : image) : bool := strcmp_zero (bye ++ [NUL]) (buf_field m).

(** The record as [printf("%s")] and the like read it: [username] runs on
    into [buf] when the array holds no [NUL]. *)
Definition view (m : image) : CLIENTMSG :=
  ClientMsg (i_op m)
            (string_of_list_ascii (cstring (i_chars m)))
            (string_of_list_ascii (cstring (buf_field m))).

(** Standard input is the characters that can be read, and whether the
    stream ends after them ([c_eof], as for a file or a closed pipe) or is
    still open, in which case a call that needs more is suspended. *)
Definition isspace (c : ascii) : bool :=
  let n := nat_of_ascii c in
  Nat.eqb n 32 || (Nat.leb 9 n && Nat.leb n 13).

Fixpoint skip_space (s : list ascii) : list ascii :=
  match s with
  | [] => []
  | c :: rest => if isspace c then skip_space rest else s
  end.

(** The characters up to the next white space, and the stream from that
    white space on. *)
Fixpoint token (s : list ascii) : list ascii * list ascii :=
  match s with
  | [] => ([], [])
  | c :: rest =>
      if isspace c then ([], s)
      else let '(t, s') := token rest in (c :: t, s')
  end.

(** [scanf("%s", p)]: skip white space, then take a word, which ends at
    white space (left in the stream) or at the end of the stream. *)
Inductive scanned : Type :=
| Word (w rest : list ascii)   (* [w] and a [NUL] are stored at [p] *)
| NoInput                      (* end of stream before any word: nothing is stored *)
| Waiting.                     (* suspended until more is typed *)

Definition scanf_s (s : list ascii) (eof : bool) : scanned :=
  let '(w, rest) := token (skip_space s) in
  match rest with
  | _ :: _ => Word w rest
  | [] => if eof then match w with [] => NoInput | _ :: _ => Word w [] end
          else Waiting
  end.

(** The stream cut at its newlines: the complete lines, without their
    newline, and the characters after the last newline. *)
Fixpoint stream_lines (s : list ascii) : list (list ascii) * list ascii :=
  match s with
  | [] => ([], [])
  | c :: rest =>
      let '(ls, last) := stream_lines rest in
      if Ascii.eqb c newline then ([] :: ls, last)
      else match ls with
           | [] => ([], c :: last)
           | l :: ls' => ((c :: l) :: ls', last)
           end
  end.

(** What the successive calls of [gets] read before the stream runs out:
    the complete lines and, at the end of a stream, the unfinished last
    line if there is one.  After these a call of [gets] returns [NULL] at
    once when the stream has ended, and is suspended when it is open. *)
Definition gets_results (s : list ascii) (eof : bool) : list (list ascii) :=
  let '(ls, last) := stream_lines s in
  if eof then match last with [] => ls | _ :: _ => ls ++ [last] end
  else ls.

(** What the main thread does, in order.  [PthreadCreate] is the call;
    whether a thread was started is [c_thread] below. *)
Inductive action : Type :=
| Perror (s : string)
| Print (s : string)
| Send (m : image)
| PthreadCreate
| PthreadCancel
| Close.

(** A [send] returns (the code ignores its value), or does not return
    because the socket buffer is full, or raises [SIGPIPE], which the
    client leaves at its default action. *)
Inductive send_fate : Type := Returns | Suspends | Kills.

Record client_env : Type := ClientEnv {
  c_socket : sysret;
  c_connect : sysret;
  c_recv : option image;      (* what clientMsgSend holds once the first recv is back,
                                 whatever it returned; None: it does not come back *)
  c_malloc : bool;            (* malloc returned memory *)
  c_thread : bool;            (* pthread_create started the thread and set tid *)
  c_send : nat -> send_fate;  (* the fate of the sends, numbered from 0 *)
  c_stdin : list ascii;
  c_eof : bool
}.

Inductive main_status : Type :=
| Exit (code : Z) (did : list action)       (* exit(code), or main returned code *)
| Reading (did : list action)               (* suspended in scanf or gets *)
| Suspended (did : list action)             (* suspended in recv or in the send last in [did] *)
| Killed (did : list action)                (* SIGPIPE on the send last in [did] *)
| Flooding (did : list action) (m : image)  (* the stream has ended: from now on every pass
                                               of the loop sends [m] without taking input,
                                               for as long as the sends return *)
| Undefined (did : list action).            (* a write outside the object or the use of
                                               an indeterminate value comes next *)

(** The size of what the characters of [clientMsgSend] hold. *)
Definition CHARS : nat := NAMELEN + CMSGLEN.

(** [clientMsgSend] once the first [recv] is back: [c_recv] says what its
    memory holds then (a list of another length is cut, or filled up with
    [NUL], to the 120 characters). *)
Definition loaded (g : image) : image :=
  Image (i_op g) (firstn CHARS (i_chars g ++ repeat NUL CHARS)).

(** From the [break] on: the last [send], [pthread_cancel(tid)],
    [close(sockfd)], [return 0]. *)
Definition leave (e : client_env) (clientMsgSend : image) (sent : nat)
  (did : list action) : main_status :=
  match c_send e sent with
  | Returns =>
      if c_thread e then Exit 0 (did ++ [Send clientMsgSend; PthreadCancel; Close])
      else Undefined (did ++ [Send clientMsgSend])
  | Suspends => Suspended (did ++ [Send clientMsgSend])
  | Kills => Killed (did ++ [Send clientMsgSend])
  end.

(** The [while(1)] of [main]: [ls] is what the calls of [gets] are going
    to read, [sent] counts the sends so far. *)
Fixpoint input_loop (e : client_env) (ls : list (list ascii)) (clientMsgSend : image)
  (sent : nat) (did : list action) {struct ls} : main_status :=
  let clientMsgSend := set_op MSG clientMsgSend in
  match ls with
  | [] =>
      if c_eof e then
        (* gets returns NULL and leaves buf as it is *)
        if says_bye clientMsgSend then leave e (set_op EXIT clientMsgSend) sent did
        else Flooding did clientMsgSend
      else Reading did
  | line :: rest =>
      if Nat.ltb CMSGLEN (length line + 1) then Undefined did
      else
        let clientMsgSend :=
          set_chars (store NAMELEN (line ++ [NUL]) (i_chars clientMsgSend)) clientMsgSend in
        if says_bye clientMsgSend then leave e (set_op EXIT clientMsgSend) sent did
        else
          match c_send e sent with
          | Returns => input_loop e rest clientMsgSend (S sent) (did ++ [Send clientMsgSend])
          | Suspends => Suspended (did ++ [Send clientMsgSend])
          | Kills => Killed (did ++ [Send clientMsgSend])
          end
  end.

(** From [clientMsgSend.op = USER] on; [rest] is what [scanf] left of the
    stream. *)
Definition announce (e : client_env) (clientMsgSend : image) (rest : list ascii)
  (did : list action) : main_status :=
  let clientMsgSend := set_op USER clientMsgSend in
  match c_send e 0 with
  | Returns =>
      input_loop e (gets_results rest (c_eof e)) clientMsgSend 1 (did ++ [Send clientMsgSend])
  | Suspends => Suspended (did ++ [Send clientMsgSend])
  | Kills => Killed (did ++ [Send clientMsgSend])
  end.

(** [int main()].  A name of up to 19 characters fits [username]; a longer
    one runs on into [buf], and one of 120 or more past the record.  A line
    of 100 characters or more runs past [buf], the last member. *)
Definition main (e : client_env) : main_status :=
  match c_socket e with
  | Failure _ => Exit 1 [Perror ("socket error" +:+ nl)]
  | Success sockfd =>
      if sockfd =? -1 then Exit 1 [Perror ("socket error" +:+ nl)]
      else
        match c_connect e with
        | Failure _ => Exit 1 [Perror ("connect() error" +:+ nl)]
        | Success r =>
            if r =? -1 then Exit 1 [Perror ("connect() error" +:+ nl)]
            else
              match c_recv e with
              | None => Suspended []
              | Some g =>
                  let clientMsgSend := loaded g in
                  if i_op clientMsgSend =? OK then
                    if c_malloc e then
                      let did := [PthreadCreate; Print ("Please input the username:" +:+ nl)] in
                      match scanf_s (c_stdin e) (c_eof e) with
                      | Waiting => Reading did
                      | NoInput => announce e clientMsgSend [] did
                      | Word w rest =>
                          if Nat.ltb CHARS (length w + 1) then Undefined did
                          else
                            let clientMsgSend :=
                              set_chars (store 0 (w ++ [NUL]) (i_chars clientMsgSend))
                                        clientMsgSend in
                            announce e clientMsgSend rest did
                      end
                    else Undefined []       (* arg->sockfd = sockfd with arg == NULL *)
                  else Exit 0 [Print ("max connection limit" +:+ nl); Close]
              end
        end
  end.

Definition trace (s : main_status) : list action :=
  match s with
  | Exit _ did | Reading did | Suspended did | Killed did | Flooding did _ | Undefined did =>
      did
  end.

Definition socket_ok (e : client_env) : bool :=
  match c_socket e with Success s => negb (s =? -1) | Failure _ => false end.
Definition connect_ok (e : client_env) : bool :=
  match c_connect e with Success r => negb (r =? -1) | Failure _ => false end.

(** The server let the client in: socket and connection are there and
    the first record carries [OK]. *)
Definition welcomed (e : client_env) : bool :=
  socket_ok e && connect_ok e &&
  match c_recv e with Some g => i_op g =? OK | None => false end.

End Client.

(** ** Observations used in the statements *)

(** The loop is never suspended on [fd]: closed, or open and nonblocking. *)
Definition unblocked (w : world) (fd : Z) : bool :=
  match fd_flags w fd with
  | Some fl => nonblocking fl
  | None => true
  end.

(** The three descriptors the loop and the handler operate on. *)
Definition loop_ready (listenfd : Z) (w : world) : bool :=
  unblocked w listenfd && unblocked w (pipefd0 w) && unblocked w (pipefd1 w).

Definition is_terminating (c : Z) : bool := (c =? SIGTERM) || (c =? SIGINT).

Definition is_wait (c : call) : bool :=
  match c with CEpollWait _ _ => true | _ => false end.
Definition is_accept (c : call) : bool :=
  match c with CAccept _ _ => true | _ => false end.
Definition is_recv (c : call) : bool :=
  match c with CRecv _ _ _ _ => true | _ => false end.
Definition is_epoll_add (c : call) : bool :=
  match c with CEpollCtlAdd _ _ _ _ => true | _ => false end.

(** A [recv] that handed a terminating signal byte to the loop. *)
Definition terminating_recv (c : call) : bool :=
  match c with
  | CRecv _ _ data _ => existsb (fun b => is_terminating (char_of_byte b)) data
  | _ => false
  end.

(** The calls that follow the first one satisfying [p]. *)
Fixpoint after_first (p : call -> bool) (l : list call) : list call :=
  match l with
  | [] => []
  | c :: l' => if p c then l' else after_first p l'
  end.

Definition count (p : call -> bool) (l : list call) : nat :=
  length (List.filter p l).

(** Events of a batch by the branch of the dispatch they take. *)
Definition listen_event (listenfd : Z) (ev : epoll_event) : bool :=
  data_fd ev =? listenfd.
Definition bridge_event (listenfd rd : Z) (ev : epoll_event) : bool :=
  negb (data_fd ev =? listenfd) && (data_fd ev =? rd)
  && negb (Z.land (events ev) EPOLLIN =? 0).

(** [w1] comes from [w] by calls [d] that leave the file-scope array,
    the signal dispositions and the output streams alone. *)
Definition frame (w w1 : world) (d : list call) : Prop :=
  pipefd0 w1 = pipefd0 w /\ pipefd1 w1 = pipefd1 w /\
  handlers w1 = handlers w /\ bridge_cap w1 = bridge_cap w /\
  stdout w1 = stdout w /\ stderr w1 = stderr w /\
  log w1 = log w ++ d.

Definition keeps_unblocked (w w1 : world) : Prop :=
  forall fd, unblocked w fd = true -> unblocked w1 fd = true.

Definition b2n (b : bool) : nat := if b then 1%nat else 0%nat.

Definition occurrences (p : epoll_event -> bool) (evs : list epoll_event) : nat :=
  length (List.filter p evs).

Definition is_send (c : call) : bool :=
  match c with CSend _ _ _ _ => true | _ => false end.

(** The world in which the loop starts when every call of the setup
    succeeds: listening socket 3, epoll instance 4, pipe ends 5 and 6. *)
Definition running_world (cap : nat) : world := snd (setup (quiet_env []) (boot cap)).

(** [setup] from the call of [listen] on. *)
Definition setup_from_listen (e : env) (listenfd : Z) : M (Z * Z) :=
  r <-- env_call (CListen listenfd 5) (e_listen e);;
  assert (negb (r =? -1));;;
  epollfd <-- new_fd CEpollCreate (e_epoll_create e);;
  assert (negb (epollfd =? -1));;;
  addfd epollfd listenfd;;;
  r <-- socketpair (e_socketpair e);;
  assert (negb (r =? -1));;;
  wr <-- get_pipefd1;;
  setnonblocking wr;;;
  rd <-- get_pipefd0;;
  addfd epollfd rd;;;
  addsig SIGHUP;;;
  addsig SIGCHLD;;;
  addsig SIGTERM;;;
  addsig SIGINT;;;
  ret (epollfd, listenfd).

(** The calls the setup and the teardown can issue. *)
Definition setup_call (c : call) : bool :=
  match c with
  | CEpollWait _ _ | CRecv _ _ _ _ | CAccept _ _ | CSend _ _ _ _ => false
  | _ => true
  end.

(** A computation that neither waits nor hands a terminating byte to the
    loop. *)
Definition quiet {A : Type} (c : M A) : Prop :=
  forall w, exists d,
    log (snd (c w)) = log w ++ d /\
    existsb is_wait d = false /\ existsb terminating_recv d = false.

(** The signal has [sig_handler] installed. *)
Definition handled (w : world) (sig : Z) : bool := existsb (Z.eqb sig) (handlers w).

(** [argc <= 2] *)
Definition too_few (argv : list string) : bool := Z.of_nat (length argv) <=? 2.

(** Every call of the setup that [main] asserts has succeeded. *)
Definition setup_succeeded (e : env) (epfd listenfd : Z) : Prop :=
  e_socket e = Success listenfd /\ 0 <= listenfd /\
  (exists lr, e_listen e = Success lr /\ lr <> -1) /\
  e_epoll_create e = Success epfd /\ epfd <> -1 /\
  exists a b, e_socketpair e = PairOk a b.

(** The byte the handler writes for a signal. *)
Definition signal_byte (sig : Z) : Z := Z.land sig 255.

(** Signal numbers that fit a [char]. *)
Definition small_signal (sig : Z) : bool := (0 <=? sig) && (sig <? 128).

(** [EPOLL_CTL_ADD] goes through: both descriptors are open and distinct
    and the descriptor is not yet in the interest list. *)
Definition can_register (w : world) (epfd fd : Z) : bool :=
  match fd_flags w epfd, fd_flags w fd, interest w !! fd with
  | Some _, Some _, None => negb (fd =? epfd)
  | _, _, _ => false
  end.

(** A wait failed with an error other than [EINTR]. *)
Definition hard_failure (i : wait_input) : bool :=
  match reported i with
  | WaitFailed e => negb (e =? EINTR)
  | Ready _ => false
  end.

(** The calls the running loop is entitled to: waits on its epoll
    instance, accepts on the listening socket, 1024-byte reads from the read
    end of the pipe, one-byte writes to its write end (the handler),
    edge-triggered read registrations, and flag updates.  No [close], and no
    [recv] or [send] on any other descriptor. *)
Definition loop_call (epfd listenfd rd wr : Z) (c : call) : bool :=
  match c with
  | CEpollWait ep _ => ep =? epfd
  | CAccept fd _ => fd =? listenfd
  | CRecv fd len _ _ => (fd =? rd) && (len =? 1024)
  | CSend fd data flags _ => (fd =? wr) && Nat.eqb (length data) 1 && (flags =? 0)
  | CEpollCtlAdd ep _ ev _ => (ep =? epfd) && (ev =? Z.lor EPOLLIN EPOLLET)
  | CFcntlGet _ _ | CFcntlSet _ _ _ => true
  | _ => false
  end.

(** Nothing is closed and nothing leaves the interest list. *)
Definition grows (w w1 : world) : Prop :=
  (forall fd, fd_flags w fd <> None -> fd_flags w1 fd <> None) /\
  (forall fd m, interest w !! fd = Some m -> interest w1 !! fd = Some m).

(** How the loop behaves between two worlds. *)
Definition conduct (epfd listenfd : Z) (w w1 : world) : Prop :=
  pipefd0 w1 = pipefd0 w /\ pipefd1 w1 = pipefd1 w /\ handlers w1 = handlers w /\
  grows w w1 /\
  exists d, log w1 = log w ++ d /\
            forallb (loop_call epfd listenfd (pipefd0 w) (pipefd1 w)) d = true.

(** A [recv] result for which [process_cli] prints a line. *)
Definition printable (r : Client.received) : bool :=
  (0 <? Client.len r)
  && ((Client.op (Client.content r) =? Client.USER)
      || (Client.op (Client.content r) =? Client.EXIT)
      || (Client.op (Client.content r) =? Client.MSG)).

(** What is on standard input when the user has typed a name and then
    some lines, each followed by a newline. *)
Definition typed (name : list ascii) (lines : list (list ascii)) : list ascii :=
  name ++ Client.newline
       :: concat (map (fun l => l ++ [Client.newline]) lines).

(** A name that fits [username]: a word of 1 to 19 characters. *)
Definition good_name (name : list ascii) : bool :=
  Nat.ltb 0 (length name) && Nat.ltb (length name) Client.NAMELEN
  && forallb (fun c => negb (Client.isspace c) && negb (Ascii.eqb c Client.NUL)) name.

(** A line that fits [buf]: fewer than 100 characters, none of them a
    newline or [NUL]. *)
Definition good_line (l : list ascii) : bool :=
  Nat.ltb (length l) Client.CMSGLEN
  && forallb (fun c => negb (Ascii.eqb c Client.newline) && negb (Ascii.eqb c Client.NUL)) l.

(** The records of a session, as the other side reads them: the name,
    the lines. *)
Definition session (name : string) (greeted : string) (lines : list (list ascii))
  : list Client.CLIENTMSG :=
  Client.ClientMsg Client.USER name greeted
  :: map (fun l => Client.ClientMsg Client.MSG name (string_of_list_ascii l)) lines.

(** [username] holds [name] and its [NUL]. *)
Definition holds_name (m : Client.image) (name : list ascii) : Prop :=
  length (Client.i_chars m) = Client.CHARS /\
  exists junk, firstn Client.NAMELEN (Client.i_chars m) = name ++ Client.NUL :: junk.

(** What a pass of the loop leaves of the record for a line that fits. *)
Definition with_line (line : list ascii) (m : Client.image) : Client.image :=
  Client.set_chars
    (Client.store Client.NAMELEN (line ++ [Client.NUL]) (Client.i_chars (Client.set_op Client.MSG m)))
    (Client.set_op Client.MSG m).

(** What [scanf] leaves of the record for a name that fits. *)
Definition with_name (name : list ascii) (m : Client.image) : Client.image :=
  Client.set_chars (Client.store 0 (name ++ [Client.NUL]) (Client.i_chars m)) m.



Definition is_send_action (a : Client.action) : bool :=
  match a with Client.Send _ => true | _ => false end.
Definition is_thread_action (a : Client.action) : bool :=
  match a with Client.PthreadCreate | Client.PthreadCancel => true | _ => false end.




(** ** Bit-level facts about the status flags *)

Lemma testbit_nonblock_mask n :
  Z.testbit O_NONBLOCK n = true -> Z.testbit SETFL_MASK n = true.
Proof.
  intros H. unfold SETFL_MASK.
  rewrite (Z.lor_comm O_APPEND), <- Z.lor_assoc, Z.lor_spec, H. reflexivity.
Qed.

Lemma setfl_lor_nonblock fl :
  Z.lor (Z.land (Z.lor fl O_NONBLOCK) SETFL_MASK) (Z.land fl (Z.lnot SETFL_MASK))
  = Z.lor fl O_NONBLOCK.
Proof.
  apply Z.bits_inj'. intros n Hn.
  rewrite !Z.lor_spec, !Z.land_spec, Z.lor_spec, Z.lnot_spec by assumption.
  pose proof (testbit_nonblock_mask n) as Hm.
  destruct (Z.testbit fl n), (Z.testbit O_NONBLOCK n) eqn:Hb,
    (Z.testbit SETFL_MASK n); simpl; try reflexivity.
  discriminate (Hm eq_refl).
Qed.

Lemma nonblocking_lor fl : nonblocking (Z.lor fl O_NONBLOCK) = true.
Proof.
  unfold nonblocking.
  assert (H : Z.testbit (Z.land (Z.lor fl O_NONBLOCK) O_NONBLOCK) 11 = true).
  { rewrite Z.land_spec, Z.lor_spec.
    change (Z.testbit O_NONBLOCK 11) with true.
    rewrite orb_true_r. reflexivity. }
  destruct (Z.eqb_spec (Z.land (Z.lor fl O_NONBLOCK) O_NONBLOCK) 0) as [E|E].
  - rewrite E in H. discriminate H.
  - reflexivity.
Qed.

(** ** The calls, equationally *)

Lemma fd_flags_insert w t fd fd' v :
  fd_flags (set_fdtab (<[fd' := v]> t) w) fd
  = if fd <? 0 then None
    else if decide (fd' = fd) then Some v else fd_flags (set_fdtab t w) fd.
Proof.
  unfold fd_flags. simpl. destruct (fd <? 0); [reflexivity|].
  rewrite lookup_insert. reflexivity.
Qed.

Lemma setnonblocking_open fd fl w :
  fd_flags w fd = Some fl ->
  setnonblocking fd w
  = (Ret tt,
     record (CFcntlSet fd (Z.lor fl O_NONBLOCK) 0)
       (set_fdtab (<[fd := Z.lor fl O_NONBLOCK]> (fdtab w))
          (record (CFcntlGet fd fl) w))).
Proof.
  intros H. unfold setnonblocking, bind, fcntl_getfl, fcntl_setfl, succeed.
  rewrite H.
  replace (fd_flags (record (CFcntlGet fd fl) w) fd) with (Some fl) by (rewrite <- H; reflexivity).
  rewrite setfl_lor_nonblock. reflexivity.
Qed.

Lemma setnonblocking_closed fd w :
  fd_flags w fd = None ->
  setnonblocking fd w
  = (Ret tt,
     record (CFcntlSet fd (-1) (-1))
       (set_errno EBADF (record (CFcntlGet fd (-1)) (set_errno EBADF w)))).
Proof.
  intros H. unfold setnonblocking, bind, fcntl_getfl, fcntl_setfl, fail.
  rewrite H.
  replace (fd_flags (record (CFcntlGet fd (-1)) (set_errno EBADF w)) fd)
    with (@None Z) by (rewrite <- H; reflexivity).
  reflexivity.
Qed.

(** ** Effects of the dispatch on the world *)

Lemma frame_refl w : frame w w [].
Proof. unfold frame. rewrite app_nil_r. tauto. Qed.

Lemma frame_trans w w1 w2 d1 d2 :
  frame w w1 d1 -> frame w1 w2 d2 -> frame w w2 (d1 ++ d2).
Proof.
  unfold frame. intros (A1 & A2 & A3 & A4 & A5 & A6 & A7) (B1 & B2 & B3 & B4 & B5 & B6 & B7).
  rewrite B1, B2, B3, B4, B5, B6, B7, A7, app_assoc. tauto.
Qed.

Lemma keeps_unblocked_trans w w1 w2 :
  keeps_unblocked w w1 -> keeps_unblocked w1 w2 -> keeps_unblocked w w2.
Proof. unfold keeps_unblocked. auto. Qed.

Lemma unblocked_ext w w1 fd : fdtab w1 = fdtab w -> unblocked w1 fd = unblocked w fd.
Proof. intros H. unfold unblocked, fd_flags. rewrite H. reflexivity. Qed.

Lemma keeps_unblocked_ext w w1 : fdtab w1 = fdtab w -> keeps_unblocked w w1.
Proof. intros H fd. rewrite (unblocked_ext w w1 fd H). auto. Qed.

Lemma loop_ready_keeps listenfd w w1 :
  pipefd0 w1 = pipefd0 w -> pipefd1 w1 = pipefd1 w -> keeps_unblocked w w1 ->
  loop_ready listenfd w = true -> loop_ready listenfd w1 = true.
Proof.
  unfold loop_ready. intros -> -> K H.
  apply andb_true_iff in H as [H H3]. apply andb_true_iff in H as [H1 H2].
  rewrite (K _ H1), (K _ H2), (K _ H3). reflexivity.
Qed.

Lemma epoll_ctl_add_effect epfd fd ev w :
  exists r w1,
    epoll_ctl_add epfd fd ev w = (Ret r, w1) /\
    frame w w1 [CEpollCtlAdd epfd fd ev r] /\
    fdtab w1 = fdtab w /\ bridge w1 = bridge w /\ backlog w1 = backlog w /\
    (interest w1 = interest w \/
     (r = 0 /\ interest w1 = <[fd := ev]> (interest w) /\
      fd_flags w fd <> None /\ interest w !! fd = None)).
Proof.
  unfold epoll_ctl_add, fail, succeed, frame.
  destruct (fd_flags w epfd); [destruct (fd_flags w fd) eqn:Hfd|];
    [destruct (fd =? epfd); [|destruct (interest w !! fd) eqn:Hi]| |];
    eexists; eexists; (split; [reflexivity|]); simpl; try tauto.
  repeat split; try reflexivity. right. repeat split; congruence.
Qed.

Lemma setnonblocking_effect fd w :
  exists r1 a r2 w1,
    setnonblocking fd w = (Ret tt, w1) /\
    frame w w1 [CFcntlGet fd r1; CFcntlSet fd a r2] /\
    interest w1 = interest w /\ bridge w1 = bridge w /\ backlog w1 = backlog w /\
    keeps_unblocked w w1 /\ unblocked w1 fd = true /\
    (forall fd', fd' <> fd -> fd_flags w1 fd' = fd_flags w fd') /\
    (forall fl, fd_flags w fd = Some fl -> fd_flags w1 fd = Some (Z.lor fl O_NONBLOCK)) /\
    (fd_flags w fd = None -> fdtab w1 = fdtab w).
Proof.
  destruct (fd_flags w fd) as [fl|] eqn:Hfd.
  - rewrite (setnonblocking_open fd fl w Hfd).
    do 4 eexists. split; [reflexivity|].
    assert (Hsame : forall fd', fd' <> fd ->
      fd_flags (record (CFcntlSet fd (Z.lor fl O_NONBLOCK) 0)
         (set_fdtab (<[fd := Z.lor fl O_NONBLOCK]> (fdtab w)) (record (CFcntlGet fd fl) w))) fd'
      = fd_flags w fd').
    { intros fd' Hne. unfold fd_flags. simpl. rewrite lookup_insert_ne by congruence. reflexivity. }
    assert (Hat : fd_flags (record (CFcntlSet fd (Z.lor fl O_NONBLOCK) 0)
         (set_fdtab (<[fd := Z.lor fl O_NONBLOCK]> (fdtab w)) (record (CFcntlGet fd fl) w))) fd
      = Some (Z.lor fl O_NONBLOCK)).
    { unfold fd_flags in *. simpl. destruct (fd <? 0); [discriminate|].
      apply lookup_insert_eq. }
    repeat split; simpl; try reflexivity.
    + rewrite <- app_assoc. reflexivity.
    + intros fd' Hu. destruct (decide (fd' = fd)) as [->|Hne].
      * unfold unblocked. rewrite Hat. apply nonblocking_lor.
      * unfold unblocked in *. rewrite Hsame by assumption. exact Hu.
    + unfold unblocked. rewrite Hat. apply nonblocking_lor.
    + exact Hsame.
    + intros fl' Hfl'. inversion Hfl'; subst. exact Hat.
    + discriminate.
  - rewrite (setnonblocking_closed fd w Hfd).
    do 4 eexists. split; [reflexivity|].
    repeat split; simpl; try reflexivity.
    + rewrite <- app_assoc. reflexivity.
    + apply keeps_unblocked_ext. reflexivity.
    + unfold unblocked. 
      replace (fd_flags _ fd) with (@None Z) by (rewrite <- Hfd; reflexivity).
      reflexivity.
    + discriminate.
Qed.

Lemma addfd_effect epfd fd w :
  exists r r1 a r2 w1,
    addfd epfd fd w = (Ret tt, w1) /\
    frame w w1 [CEpollCtlAdd epfd fd (Z.lor EPOLLIN EPOLLET) r;
                CFcntlGet fd r1; CFcntlSet fd a r2] /\
    bridge w1 = bridge w /\ backlog w1 = backlog w /\
    keeps_unblocked w w1 /\ unblocked w1 fd = true /\
    (forall fd', fd' <> fd -> fd_flags w1 fd' = fd_flags w fd') /\
    (forall fl, fd_flags w fd = Some fl -> fd_flags w1 fd = Some (Z.lor fl O_NONBLOCK)) /\
    (fd_flags w fd = None -> fdtab w1 = fdtab w) /\
    (interest w1 = interest w \/
     (r = 0 /\ interest w1 = <[fd := Z.lor EPOLLIN EPOLLET]> (interest w) /\
      fd_flags w fd <> None /\ interest w !! fd = None)).
Proof.
  destruct (epoll_ctl_add_effect epfd fd (Z.lor EPOLLIN EPOLLET) w)
    as (r & w1 & E1 & F1 & T1 & B1 & K1 & I1).
  destruct (setnonblocking_effect fd w1)
    as (r1 & a & r2 & w2 & E2 & F2 & I2 & B2 & K2 & U2 & V2 & S2 & O2 & C2).
  assert (Hfl : forall fd', fd_flags w1 fd' = fd_flags w fd').
  { intros fd'. unfold fd_flags. rewrite T1. reflexivity. }
  exists r, r1, a, r2, w2.
  split. { unfold addfd, bind. simpl. rewrite E1. exact E2. }
  split. { exact (frame_trans _ _ _ _ _ F1 F2). }
  split. { congruence. }
  split. { congruence. }
  split. { apply (keeps_unblocked_trans w w1 w2); [apply keeps_unblocked_ext; exact T1|exact U2]. }
  split. { exact V2. }
  split. { intros fd' Hne. rewrite S2 by assumption. apply Hfl. }
  split. { intros fl Hf. apply O2. rewrite Hfl. exact Hf. }
  split. { intros Hf. rewrite C2 by (rewrite Hfl; exact Hf). exact T1. }
  rewrite I2. exact I1.
Qed.

Lemma accept_effect listenfd w :
  unblocked w listenfd = true ->
  exists c w1,
    accept listenfd w = (Ret c, w1) /\
    frame w w1 [CAccept listenfd c] /\
    bridge w1 = bridge w /\ interest w1 = interest w /\
    ((c = -1 /\ fdtab w1 = fdtab w /\ backlog w1 = backlog w /\
      (fd_flags w listenfd = None \/ backlog w = [])) \/
     (exists rest, backlog w = c :: rest /\ backlog w1 = rest /\
                   fdtab w1 = <[c := O_RDWR]> (fdtab w) /\
                   fd_flags w listenfd <> None)).
Proof.
  unfold unblocked, accept, fail, succeed, frame. intros Hu.
  destruct (fd_flags w listenfd) as [fl|] eqn:Hfd.
  - destruct (backlog w) as [|c rest] eqn:Hb.
    + rewrite Hu. do 2 eexists. split; [reflexivity|]. simpl.
      repeat split; try reflexivity. left. rewrite ?Hb. tauto.
    + do 2 eexists. split; [reflexivity|]. simpl.
      repeat split; try reflexivity. right. exists rest. rewrite ?Hb.
      repeat split; congruence.
  - do 2 eexists. split; [reflexivity|]. simpl.
    repeat split; try reflexivity. left. tauto.
Qed.

(** The branch of [on_event] for the listening socket. *)
Lemma on_event_listen epfd listenfd ev stop w :
  data_fd ev = listenfd -> unblocked w listenfd = true ->
  exists c r r1 a r2 w1 w2,
    accept listenfd w = (Ret c, w1) /\
    addfd epfd c w1 = (Ret tt, w2) /\
    on_event epfd listenfd ev stop w = (Ret stop, w2) /\
    frame w w2 [CAccept listenfd c; CEpollCtlAdd epfd c (Z.lor EPOLLIN EPOLLET) r;
                CFcntlGet c r1; CFcntlSet c a r2] /\
    bridge w2 = bridge w /\ keeps_unblocked w w2.
Proof.
  intros Hev Hu.
  destruct (accept_effect listenfd w Hu) as (c & w1 & E1 & F1 & B1 & I1 & Hc).
  destruct (addfd_effect epfd c w1)
    as (r & r1 & a & r2 & w2 & E2 & F2 & B2 & K2 & U2 & V2 & S2 & O2 & C2 & I2).
  exists c, r, r1, a, r2, w1, w2.
  split; [exact E1|]. split; [exact E2|].
  split. { unfold on_event. rewrite Hev, Z.eqb_refl. unfold bind. rewrite E1, E2. reflexivity. }
  split. { exact (frame_trans _ _ _ _ _ F1 F2). }
  split. { congruence. }
  destruct Hc as [(_ & T1 & _)|(rest & _ & _ & T1 & _)].
  - apply (keeps_unblocked_trans w w1 w2); [apply keeps_unblocked_ext; exact T1|exact U2].
  - intros fd Hfd. destruct (decide (fd = c)) as [->|Hne]; [exact V2|].
    unfold unblocked in *. rewrite S2 by assumption.
    unfold fd_flags in *. rewrite T1. rewrite lookup_insert_ne by congruence. exact Hfd.
Qed.

Lemma classify_flag c stop : classify c stop = stop || is_terminating c.
Proof.
  unfold classify, is_terminating.
  destruct (Z.eqb_spec c SIGCHLD) as [->|_]; [destruct stop; reflexivity|].
  destruct (Z.eqb_spec c SIGHUP) as [->|_]; [destruct stop; reflexivity|].
  simpl. destruct ((c =? SIGTERM) || (c =? SIGINT)), stop; reflexivity.
Qed.

Lemma classify_all_flag data stop :
  classify_all (Z.of_nat (length data)) data stop
  = stop || existsb (fun b => is_terminating (char_of_byte b)) data.
Proof.
  unfold classify_all. rewrite Nat2Z.id, firstn_all.
  revert stop. induction data as [|b data IH]; intros stop; simpl.
  - rewrite orb_false_r. reflexivity.
  - rewrite IH, classify_flag, orb_assoc. reflexivity.
Qed.

(** The branch of [on_event] for the read end of the signal pipe. *)
Lemma on_event_bridge epfd listenfd ev stop w :
  bridge_event listenfd (pipefd0 w) ev = true -> unblocked w (pipefd0 w) = true ->
  exists n data w1,
    recv (pipefd0 w) 1024 w = (Ret (n, data), w1) /\
    on_event epfd listenfd ev stop w
    = (Ret (stop || existsb (fun b => is_terminating (char_of_byte b)) data), w1) /\
    frame w w1 [CRecv (pipefd0 w) 1024 data n] /\
    fdtab w1 = fdtab w /\ interest w1 = interest w /\ backlog w1 = backlog w /\
    ((n = -1 /\ data = [] /\ bridge w1 = bridge w /\
      (fd_flags w (pipefd0 w) = None \/ bridge w = [])) \/
     (n = Z.of_nat (length data) /\ data = firstn 1024 (bridge w) /\
      bridge w1 = skipn 1024 (bridge w) /\ bridge w <> [] /\
      fd_flags w (pipefd0 w) <> None)).
Proof.
  unfold bridge_event. intros Hev Hu.
  apply andb_true_iff in Hev as [Hev Hin]. apply andb_true_iff in Hev as [Hl Hp].
  apply negb_true_iff in Hl.
  assert (Hhead : on_event epfd listenfd ev stop w
    = (r <-- recv (pipefd0 w) 1024;;
       let '(n, signals) := r in
       if n =? -1 then ret stop else ret (classify_all n signals stop)) w).
  { unfold on_event. rewrite Hl. unfold bind at 1. unfold get_pipefd0.
    rewrite Hp, Hin. reflexivity. }
  rewrite Hhead. clear Hhead.
  unfold unblocked in Hu. unfold bind, recv, frame.
  destruct (fd_flags w (pipefd0 w)) as [fl|] eqn:Hfd.
  - destruct (bridge w) as [|b q] eqn:Hq.
    + rewrite Hu. exists (-1), [], (record (CRecv (pipefd0 w) 1024 [] (-1)) (set_errno EAGAIN w)).
      simpl. rewrite orb_false_r. repeat split; try reflexivity. left. tauto.
    + set (data := firstn (Z.to_nat 1024) (b :: q)).
      exists (Z.of_nat (length data)), data,
        (record (CRecv (pipefd0 w) 1024 data (Z.of_nat (length data)))
           (set_bridge (skipn (Z.to_nat 1024) (b :: q)) w)).
      split; [reflexivity|]. split.
      { assert (Hn : (Z.of_nat (length data) =? -1) = false) by (apply Z.eqb_neq; lia).
        cbv zeta. rewrite Hn. unfold ret. rewrite classify_all_flag. reflexivity. }
      simpl. repeat split; try reflexivity. right.
      repeat split; try reflexivity; discriminate.
  - exists (-1), [], (record (CRecv (pipefd0 w) 1024 [] (-1)) (set_errno EBADF w)).
    simpl. rewrite orb_false_r. repeat split; try reflexivity. left. tauto.
Qed.

(** Any other event falls through the dispatch. *)
Lemma on_event_other epfd listenfd ev stop w :
  listen_event listenfd ev = false -> bridge_event listenfd (pipefd0 w) ev = false ->
  on_event epfd listenfd ev stop w = (Ret stop, w).
Proof.
  unfold listen_event, bridge_event, on_event. intros Hl Hb. rewrite Hl in *.
  simpl in Hb. unfold bind, get_pipefd0. rewrite Hb. reflexivity.
Qed.

(** Everything the loop relies on about the dispatch of one event. *)
Lemma on_event_effect epfd listenfd ev stop w :
  loop_ready listenfd w = true ->
  exists stop' d w1,
    on_event epfd listenfd ev stop w = (Ret stop', w1) /\
    frame w w1 d /\ loop_ready listenfd w1 = true /\
    stop' = stop || existsb terminating_recv d /\
    existsb is_wait d = false /\
    count is_accept d = b2n (listen_event listenfd ev) /\
    count is_epoll_add d = b2n (listen_event listenfd ev) /\
    count is_recv d = b2n (bridge_event listenfd (pipefd0 w) ev).
Proof.
  intros Hready. pose proof Hready as Hr. unfold loop_ready in Hr.
  apply andb_true_iff in Hr as [Hr H3]. apply andb_true_iff in Hr as [H1 H2].
  destruct (listen_event listenfd ev) eqn:Hl.
  - assert (Hb : bridge_event listenfd (pipefd0 w) ev = false).
    { unfold bridge_event. unfold listen_event in Hl. rewrite Hl. reflexivity. }
    rewrite Hb. apply Z.eqb_eq in Hl.
    destruct (on_event_listen epfd listenfd ev stop w Hl H1)
      as (c & r & r1 & a & r2 & w1 & w2 & _ & _ & E & F & _ & K).
    eexists stop, _, w2. split; [exact E|]. split; [exact F|].
    split. { destruct F as (P0 & P1 & _). exact (loop_ready_keeps _ _ _ P0 P1 K Hready). }
    simpl. rewrite orb_false_r. repeat split; reflexivity.
  - destruct (bridge_event listenfd (pipefd0 w) ev) eqn:Hb.
    + destruct (on_event_bridge epfd listenfd ev stop w Hb H2)
        as (n & data & w1 & _ & E & F & T & _).
      eexists _, _, w1. split; [exact E|]. split; [exact F|].
      split. { destruct F as (P0 & P1 & _).
               exact (loop_ready_keeps _ _ _ P0 P1 (keeps_unblocked_ext _ _ T) Hready). }
      simpl. rewrite orb_false_r. repeat split; reflexivity.
    + rewrite (on_event_other epfd listenfd ev stop w Hl Hb).
      exists stop, [], w. split; [reflexivity|]. split; [apply frame_refl|].
      split; [exact Hready|]. simpl. rewrite orb_false_r. repeat split; reflexivity.
Qed.

Lemma count_app p d1 d2 : count p (d1 ++ d2) = (count p d1 + count p d2)%nat.
Proof. unfold count. rewrite List.filter_app, length_app. reflexivity. Qed.

(** The [for] loop runs to the end of the batch, whatever [stop_server]
    is, and dispatches every event of it. *)
Lemma for_events_effect epfd listenfd evs :
  forall stop w,
    loop_ready listenfd w = true ->
    exists stop' d w1,
      for_events epfd listenfd evs stop w = (Ret stop', w1) /\
      frame w w1 d /\ loop_ready listenfd w1 = true /\
      stop' = stop || existsb terminating_recv d /\
      existsb is_wait d = false /\
      count is_accept d = occurrences (listen_event listenfd) evs /\
      count is_epoll_add d = occurrences (listen_event listenfd) evs /\
      count is_recv d = occurrences (bridge_event listenfd (pipefd0 w)) evs.
Proof.
  induction evs as [|ev evs IH]; intros stop w Hready.
  - exists stop, [], w. simpl. rewrite orb_false_r.
    repeat split; try reflexivity; try assumption. apply frame_refl.
  - destruct (on_event_effect epfd listenfd ev stop w Hready)
      as (s1 & d1 & w1 & E1 & F1 & R1 & S1 & W1 & A1 & C1 & V1).
    destruct (IH s1 w1 R1) as (s2 & d2 & w2 & E2 & F2 & R2 & S2 & W2 & A2 & C2 & V2).
    exists s2, (d1 ++ d2), w2.
    split. { simpl. unfold bind. rewrite E1. exact E2. }
    split. { exact (frame_trans _ _ _ _ _ F1 F2). }
    split. { exact R2. }
    split. { rewrite existsb_app, orb_assoc, <- S1. exact S2. }
    split. { rewrite existsb_app, W1, W2. reflexivity. }
    destruct F1 as (P0 & _).
    rewrite !count_app, A1, A2, C1, C2, V1, V2, P0.
    unfold occurrences. simpl.
    destruct (listen_event listenfd ev), (bridge_event listenfd (pipefd0 w) ev);
      repeat split; reflexivity.
Qed.

Lemma for_events_app epfd listenfd evs1 evs2 stop w :
  for_events epfd listenfd (evs1 ++ evs2) stop w
  = (s <-- for_events epfd listenfd evs1 stop;; for_events epfd listenfd evs2 s) w.
Proof.
  revert stop w. induction evs1 as [|ev evs1 IH]; intros stop w; simpl.
  - reflexivity.
  - unfold bind.
    destruct (on_event epfd listenfd ev stop w) as [[s| |] w1]; try reflexivity.
    rewrite IH. reflexivity.
Qed.

(** ** The handler and the wait *)

Lemma low_byte sig : firstn 1 (int_bytes sig) = [Z.land sig 255].
Proof. unfold int_bytes. simpl. rewrite Z.shiftr_0_r. reflexivity. Qed.

(** On a nonblocking (or closed) write end the handler always returns; it
    changes the byte queue and the log, nothing else. *)
Lemma sig_handler_effect sig w :
  unblocked w (pipefd1 w) = true ->
  exists r q,
    sig_handler sig w
    = (Ret tt, record (CSend (pipefd1 w) [Z.land sig 255] 0 r) (set_bridge q w)) /\
    ((r = 1 /\ q = bridge w ++ [Z.land sig 255] /\
      (length (bridge w) + 1 <= bridge_cap w)%nat /\ fd_flags w (pipefd1 w) <> None) \/
     (r = -1 /\ q = bridge w)).
Proof.
  unfold unblocked. intros Hu.
  unfold sig_handler, bind, get_errno, get_pipefd1, put_errno. rewrite low_byte.
  unfold send, succeed, fail.
  destruct (fd_flags w (pipefd1 w)) as [fl|] eqn:Hfd.
  - destruct (length (bridge w) + length [Z.land sig 255] <=? bridge_cap w)%nat eqn:Hroom.
    + exists 1, (bridge w ++ [Z.land sig 255]). split; [reflexivity|]. left.
      apply Nat.leb_le in Hroom. simpl in Hroom. repeat split; try reflexivity; [lia|discriminate].
    + rewrite Hu. exists (-1), (bridge w). split; [reflexivity|]. right. tauto.
  - exists (-1), (bridge w). split; [reflexivity|]. right. tauto.
Qed.

Lemma deliver_effect sigs :
  forall w,
    unblocked w (pipefd1 w) = true ->
    exists d w1,
      deliver sigs w = (Ret tt, w1) /\ frame w w1 d /\
      forallb is_send d = true /\
      errno w1 = errno w /\ fdtab w1 = fdtab w /\ interest w1 = interest w /\
      backlog w1 = backlog w.
Proof.
  induction sigs as [|s sigs IH]; intros w Hu.
  - exists [], w. simpl. repeat split; try reflexivity. apply frame_refl.
  - simpl. unfold bind.
    destruct (existsb (Z.eqb s) (handlers w)).
    + destruct (sig_handler_effect s w Hu) as (r & q & E & _). rewrite E.
      set (w1 := record (CSend (pipefd1 w) [Z.land s 255] 0 r) (set_bridge q w)).
      destruct (IH w1) as (d & w2 & E2 & F2 & S2 & N2 & T2 & I2 & B2).
      { rewrite (unblocked_ext w w1) by reflexivity. exact Hu. }
      exists (CSend (pipefd1 w) [Z.land s 255] 0 r :: d), w2.
      split; [exact E2|].
      split. { apply (frame_trans w w1 w2 [_] d); [|exact F2].
               unfold frame. simpl. tauto. }
      split. { simpl. exact S2. }
      rewrite N2, T2, I2, B2. simpl. tauto.
    + destruct (IH w Hu) as (d & w2 & E2 & R). exists d, w2. split; [exact E2|exact R].
Qed.

(** What one wait hands to the loop. *)
Lemma await_effect epfd listenfd i w :
  loop_ready listenfd w = true ->
  exists n evs d w1,
    await epfd i w = (Ret (n, evs), w1) /\
    frame w w1 (d ++ [CEpollWait epfd n]) /\ forallb is_send d = true /\
    loop_ready listenfd w1 = true /\
    match reported i with
    | Ready evs0 =>
        evs = firstn (Z.to_nat MAX_EVENT_NUMBER) evs0 /\ n = Z.of_nat (length evs) /\
        errno w1 = errno w
    | WaitFailed e => evs = [] /\ n = -1 /\ errno w1 = e
    end.
Proof.
  intros Hready. pose proof Hready as Hr. unfold loop_ready in Hr.
  apply andb_true_iff in Hr as [_ H3].
  destruct (deliver_effect (delivered i) w H3) as (d & w1 & E1 & F1 & S1 & N1 & T1 & _).
  assert (R1 : loop_ready listenfd w1 = true).
  { destruct F1 as (P0 & P1 & _).
    exact (loop_ready_keeps _ _ _ P0 P1 (keeps_unblocked_ext _ _ T1) Hready). }
  unfold await, bind. rewrite E1. unfold arrive, epoll_wait.
  destruct (reported i) as [evs0|e].
  - do 4 eexists. split; [reflexivity|].
    split. { apply (frame_trans w w1 _ d [_] F1). unfold frame. simpl. tauto. }
    split; [exact S1|]. split; [exact R1|]. simpl. rewrite N1. tauto.
  - do 4 eexists. split; [reflexivity|].
    split. { apply (frame_trans w w1 _ d [_] F1). unfold frame. simpl. tauto. }
    split; [exact S1|]. split; [exact R1|]. simpl. tauto.
Qed.

(** ** Reading the log *)

Lemma after_first_app p l1 l2 :
  after_first p (l1 ++ l2)
  = if existsb p l1 then after_first p l1 ++ l2 else after_first p l2.
Proof.
  induction l1 as [|c l1 IH]; simpl; [reflexivity|].
  destruct (p c); simpl; [reflexivity|exact IH].
Qed.

Lemma existsb_after_first p q l :
  existsb p l = false -> existsb p (after_first q l) = false.
Proof.
  induction l as [|c l IH]; simpl; [reflexivity|].
  intros H. apply orb_false_iff in H as [_ H]. destruct (q c); auto.
Qed.

Lemma sends_no_wait d : forallb is_send d = true -> existsb is_wait d = false.
Proof.
  induction d as [|c d IH]; simpl; [reflexivity|].
  intros H. apply andb_true_iff in H as [Hc Hd]. rewrite (IH Hd).
  destruct c; try discriminate Hc. reflexivity.
Qed.

Lemma sends_no_terminating d :
  forallb is_send d = true -> existsb terminating_recv d = false.
Proof.
  induction d as [|c d IH]; simpl; [reflexivity|].
  intros H. apply andb_true_iff in H as [Hc Hd]. rewrite (IH Hd).
  destruct c; try discriminate Hc. reflexivity.
Qed.

(** ** The loop stops at the first terminating byte *)

Lemma event_loop_stopped epfd listenfd ins w :
  event_loop epfd listenfd ins true w = (Ret true, w).
Proof. destruct ins; reflexivity. Qed.

(** One pass of the [while] loop, once the wait has reported. *)
Lemma event_loop_unfold epfd listenfd i ins w n evs w1 :
  await epfd i w = (Ret (n, evs), w1) ->
  event_loop epfd listenfd (i :: ins) false w
  = if (n <? 0) && negb (errno w1 =? EINTR)
    then (Ret false, set_stdout (stdout w1 ++ ["epoll failure" +:+ nl]) w1)
    else (stop <-- for_events epfd listenfd evs false;;
          event_loop epfd listenfd ins stop) w1.
Proof.
  intros E. simpl. unfold bind at 1. rewrite E. unfold bind at 1, get_errno.
  destruct ((n <? 0) && negb (errno w1 =? EINTR)); reflexivity.
Qed.

(** Whatever the environment feeds the loop: as soon as a [recv] of the
    loop has handed it a SIGTERM or SIGINT byte, the loop is left with
    [stop_server] true, and the log shows no [epoll_wait] after that
    [recv]. *)
Lemma event_loop_terminating_byte epfd listenfd ins :
  forall w,
    loop_ready listenfd w = true ->
    existsb terminating_recv (log w) = false ->
    existsb terminating_recv (log (snd (event_loop epfd listenfd ins false w))) = true ->
    fst (event_loop epfd listenfd ins false w) = Ret true /\
    existsb is_wait
      (after_first terminating_recv (log (snd (event_loop epfd listenfd ins false w))))
    = false.
Proof.
  induction ins as [|i ins IH]; intros w Hready Hclean.
  - simpl. congruence.
  - destruct (await_effect epfd listenfd i w Hready)
      as (n & evs & d0 & w1 & E1 & F1 & S1 & R1 & _).
    rewrite (event_loop_unfold epfd listenfd i ins w n evs w1 E1).
    assert (Hclean1 : existsb terminating_recv (log w1) = false).
    { destruct F1 as (_ & _ & _ & _ & _ & _ & L). rewrite L, !existsb_app, Hclean.
      rewrite (sends_no_terminating d0 S1). reflexivity. }
    destruct ((n <? 0) && negb (errno w1 =? EINTR)).
    + simpl. congruence.
    + destruct (for_events_effect epfd listenfd evs false w1 R1)
        as (s & d & w2 & E2 & F2 & R2 & S2 & W2 & _).
      unfold bind. rewrite E2.
      destruct F2 as (_ & _ & _ & _ & _ & _ & L2).
      destruct s.
      * rewrite event_loop_stopped. simpl. intros _. split; [reflexivity|].
        rewrite L2, after_first_app, Hclean1. apply existsb_after_first, W2.
      * apply IH; [exact R2|]. rewrite L2, existsb_app, Hclean1. simpl in *.
        symmetry. exact S2.
Qed.

(** ** Classification of the signal bytes *)

Lemma char_of_byte_terminating b :
  0 <= b < 256 -> is_terminating (char_of_byte b) = is_terminating b.
Proof.
  intros Hb. unfold is_terminating, char_of_byte, SIGTERM, SIGINT.
  destruct (Z.ltb_spec b 128); [reflexivity|].
  destruct (Z.eqb_spec (b - 256) 15), (Z.eqb_spec (b - 256) 2),
    (Z.eqb_spec b 15), (Z.eqb_spec b 2); simpl; try reflexivity; lia.
Qed.

(** C4. For a byte [b] read from the signal pipe the [switch] leaves
    [stop_server] true exactly when [b] is SIGTERM or SIGINT (or the flag
    was true before); SIGCHLD, SIGHUP and every other byte leave the flag
    as it was, and the inner loop goes on with the next byte. *)
Theorem stop_flag_set_exactly_on_terminating_bytes b stop :
  0 <= b < 256 ->
  classify (char_of_byte b) stop = stop || ((b =? SIGTERM) || (b =? SIGINT)) /\
  (classify (char_of_byte b) false = true <-> b = SIGTERM \/ b = SIGINT) /\
  (b = SIGCHLD \/ b = SIGHUP -> classify (char_of_byte b) stop = stop) /\
  (b <> SIGTERM -> b <> SIGINT -> classify (char_of_byte b) stop = stop) /\
  (forall rest,
     classify_all (Z.of_nat (length (b :: rest))) (b :: rest) stop
     = classify_all (Z.of_nat (length rest)) rest (classify (char_of_byte b) stop)).
Proof.
  intros Hb.
  assert (E : classify (char_of_byte b) stop = stop || ((b =? SIGTERM) || (b =? SIGINT))).
  { rewrite classify_flag, (char_of_byte_terminating b Hb). reflexivity. }
  split; [exact E|]. split; [|split; [|split]].
  - rewrite classify_flag, (char_of_byte_terminating b Hb). unfold is_terminating. simpl.
    rewrite orb_true_iff, !Z.eqb_eq. reflexivity.
  - rewrite E. intros [->| ->]; simpl; apply orb_false_r.
  - rewrite E. intros H1 H2.
    apply Z.eqb_neq in H1, H2. rewrite H1, H2. apply orb_false_r.
  - intros rest. rewrite !classify_all_flag, classify_flag. simpl.
    rewrite orb_assoc. reflexivity.
Qed.

Lemma stop_flag_set_exactly_on_terminating_bytes_witness :
  classify (char_of_byte 15) false = true /\
  classify (char_of_byte 17) false = false /\
  classify_all 3 [17; 15; 1] false = classify_all 2 [15; 1] false.
Proof.
  assert (H15 : 0 <= 15 < 256) by lia.
  assert (H17 : 0 <= 17 < 256) by lia.
  destruct (stop_flag_set_exactly_on_terminating_bytes 15 false H15) as (E15 & _).
  destruct (stop_flag_set_exactly_on_terminating_bytes 17 false H17) as (E17 & _ & _ & _ & L17).
  split; [exact E15|]. split; [exact E17|].
  change (classify_all 3 [17; 15; 1] false)
    with (classify_all (Z.of_nat (length (17 :: [15; 1]))) (17 :: [15; 1]) false).
  rewrite (L17 [15; 1]), E17. reflexivity.
Defined.

(** ** The nonblocking adapter *)

(** C8, as the code has it.  On an open descriptor [setnonblocking] sets
    [O_NONBLOCK] in the status flags of that descriptor and keeps every other
    flag of it.  It issues one flag query and one flag update, once each
    and in that order, also when they fail: on a descriptor that is not
    open the query fails, the update follows all the same (with the -1 of
    the query as flags) and fails too, neither is tried again, and the
    descriptor stays closed. *)
Theorem setnonblocking_sets_flag_and_ignores_failure fd w :
  (forall fl, fd_flags w fd = Some fl ->
     fd_flags (snd (setnonblocking fd w)) fd = Some (Z.lor fl O_NONBLOCK) /\
     (forall n, 0 <= n ->
        Z.testbit (Z.lor fl O_NONBLOCK) n = Z.testbit fl n || (n =? 11)) /\
     log (snd (setnonblocking fd w))
     = log w ++ [CFcntlGet fd fl; CFcntlSet fd (Z.lor fl O_NONBLOCK) 0]) /\
  (fd_flags w fd = None ->
     fd_flags (snd (setnonblocking fd w)) fd = None /\
     log (snd (setnonblocking fd w))
     = log w ++ [CFcntlGet fd (-1); CFcntlSet fd (-1) (-1)]).
Proof.
  split.
  - intros fl Hfd. rewrite (setnonblocking_open fd fl w Hfd). simpl.
    split; [|split].
    + unfold fd_flags in *. simpl. destruct (fd <? 0); [discriminate|]. apply lookup_insert_eq.
    + intros n Hn. rewrite Z.lor_spec. f_equal.
      change O_NONBLOCK with (Z.shiftl 1 11). rewrite Z.shiftl_spec by assumption.
      destruct (Z.eqb_spec n 11) as [->|Hne]; [reflexivity|].
      destruct (Z.ltb_spec n 11).
      * apply Z.testbit_neg_r. lia.
      * replace (n - 11) with (Z.succ (n - 12)) by lia.
        change 1 with (2 * 0 + 1). rewrite Z.testbit_odd_succ by lia. apply Z.testbit_0_l.
    + rewrite <- app_assoc. reflexivity.
  - intros Hfd. rewrite (setnonblocking_closed fd w Hfd). simpl.
    split; [|rewrite <- app_assoc; reflexivity].
    rewrite <- Hfd. reflexivity.
Qed.

Lemma setnonblocking_sets_flag_and_ignores_failure_witness :
  fd_flags (snd (setnonblocking 1 (boot 64))) 1 = Some (Z.lor O_RDWR O_NONBLOCK) /\
  log (snd (setnonblocking 9 (boot 64))) = [CFcntlGet 9 (-1); CFcntlSet 9 (-1) (-1)].
Proof.
  destruct (setnonblocking_sets_flag_and_ignores_failure 1 (boot 64)) as [Hopen _].
  destruct (setnonblocking_sets_flag_and_ignores_failure 9 (boot 64)) as [_ Hclosed].
  split.
  - exact (proj1 (Hopen O_RDWR eq_refl)).
  - exact (proj2 (Hclosed eq_refl)).
Defined.

(** C8 as the claim words it fails: on a descriptor that is not open the
    flag query fails, and yet [setnonblocking] goes on to the update and
    comes back, and so does its caller [addfd]: no failure stops either. *)
Lemma setnonblocking_error_not_propagated :
  fst (fcntl_getfl 9 (boot 64)) = Ret (-1) /\
  fst (setnonblocking 9 (boot 64)) = Ret tt /\
  fst (addfd 4 9 (boot 64)) = Ret tt /\
  count is_recv (log (snd (setnonblocking 9 (boot 64)))) = 0%nat /\
  log (snd (setnonblocking 9 (boot 64))) = [CFcntlGet 9 (-1); CFcntlSet 9 (-1) (-1)].
Proof. vm_compute. repeat split; reflexivity. Qed.

(** ** The signal handler *)

(** C3. With the write end of the pipe nonblocking (or closed), a run of
    the handler for [sig] returns and leaves the world as it was except
    for one logged [send] of the single byte [sig & 255] on [pipefd[1]]
    (flags 0, never repeated, also when it fails) and, when the call
    succeeded, that byte at the end of the queue.  In particular [errno]
    is what it was before.  [stop_server] is a local of [main]: it is not
    part of the world the handler works on. *)
Theorem sig_handler_writes_one_byte sig w :
  unblocked w (pipefd1 w) = true ->
  exists r q,
    sig_handler sig w
    = (Ret tt, record (CSend (pipefd1 w) [Z.land sig 255] 0 r) (set_bridge q w)) /\
    errno (snd (sig_handler sig w)) = errno w /\
    log (snd (sig_handler sig w)) = log w ++ [CSend (pipefd1 w) [Z.land sig 255] 0 r] /\
    ((r = 1 /\ q = bridge w ++ [Z.land sig 255]) \/ (r = -1 /\ q = bridge w)).
Proof.
  intros Hu. destruct (sig_handler_effect sig w Hu) as (r & q & E & H).
  exists r, q. rewrite E. simpl. repeat split.
  destruct H as [(Hr & Hq & _)|H]; [left|right]; tauto.
Qed.

Lemma sig_handler_writes_one_byte_witness :
  exists r q,
    sig_handler SIGTERM (running_world 64)
    = (Ret tt, record (CSend 6 [15] 0 r) (set_bridge q (running_world 64))) /\
    r = 1 /\ q = [15].
Proof.
  destruct (sig_handler_writes_one_byte SIGTERM (running_world 64))
    as (r & q & E & _ & _ & H).
  - vm_compute. reflexivity.
  - exists r, q. split; [exact E|].
    destruct H as [[Hr Hq]|[Hr Hq]].
    + split; [exact Hr|]. rewrite Hq. vm_compute. reflexivity.
    + exfalso. rewrite Hr, Hq in E. vm_compute in E. discriminate E.
Defined.

(** ** Reading the signal pipe *)

(** C2, as the code has it.  When the read end is reported readable and
    bytes are queued, the loop issues one [recv] for at most 1024 bytes:
    it classifies the first 1024 queued bytes and leaves the others in the
    queue.  The pipe is drained exactly when at most 1024 bytes were
    queued. *)
Theorem bridge_read_is_one_recv_of_1024 epfd listenfd ev stop w :
  bridge_event listenfd (pipefd0 w) ev = true ->
  unblocked w (pipefd0 w) = true ->
  fd_flags w (pipefd0 w) <> None ->
  bridge w <> [] ->
  exists w1,
    on_event epfd listenfd ev stop w
    = (Ret (stop || existsb (fun b => is_terminating (char_of_byte b))
                      (firstn 1024 (bridge w))), w1) /\
    log w1 = log w ++ [CRecv (pipefd0 w) 1024 (firstn 1024 (bridge w))
                         (Z.of_nat (length (firstn 1024 (bridge w))))] /\
    bridge w1 = skipn 1024 (bridge w) /\
    (bridge w1 = [] <-> (length (bridge w) <= 1024)%nat).
Proof.
  intros Hev Hu Hopen Hq.
  destruct (on_event_bridge epfd listenfd ev stop w Hev Hu)
    as (n & data & w1 & _ & E & F & _ & _ & _ & H).
  destruct H as [(_ & _ & _ & [H|H])|(Hn & Hd & Hb & _)]; [contradiction|contradiction|].
  exists w1. subst n data. split; [exact E|].
  split. { destruct F as (_ & _ & _ & _ & _ & _ & L). exact L. }
  split; [exact Hb|]. rewrite Hb. split.
  - intros H. pose proof (length_skipn 1024 (bridge w)) as L. rewrite H in L. simpl in L. lia.
  - apply skipn_all2.
Qed.

Lemma bridge_read_is_one_recv_of_1024_witness :
  exists w1,
    on_event 4 3 (EpollEvent EPOLLIN 5) false (set_bridge [17; 2] (running_world 64))
    = (Ret true, w1) /\
    bridge w1 = [].
Proof.
  destruct (bridge_read_is_one_recv_of_1024 4 3 (EpollEvent EPOLLIN 5) false
              (set_bridge [17; 2] (running_world 64)))
    as (w1 & E & _ & _ & Hiff).
  - vm_compute. reflexivity.
  - vm_compute. reflexivity.
  - vm_compute. discriminate.
  - vm_compute. discriminate.
  - exists w1. split; [rewrite E; reflexivity|].
    apply Hiff. apply Nat.leb_le. vm_compute. reflexivity.
Defined.

(** C2 as the claim words it fails: 1025 signals are delivered before the
    loop wakes up (1024 times SIGCHLD, then SIGTERM).  The loop reads once,
    1024 bytes; the SIGTERM byte stays in the pipe, the flag stays false
    and the loop goes back into [epoll_wait]. *)
Lemma bridge_not_drained_beyond_1024 :
  fst (main ["server"; "127.0.0.1"; "18812"]%string
         (quiet_env [WaitInput (repeat SIGCHLD 1024 ++ [SIGTERM]) []
                       (Ready [EpollEvent EPOLLIN 5])])
         (boot 4096)) = Block /\
  bridge (snd (main ["server"; "127.0.0.1"; "18812"]%string
                 (quiet_env [WaitInput (repeat SIGCHLD 1024 ++ [SIGTERM]) []
                               (Ready [EpollEvent EPOLLIN 5])])
                 (boot 4096))) = [SIGTERM] /\
  count is_recv (log (snd (main ["server"; "127.0.0.1"; "18812"]%string
                 (quiet_env [WaitInput (repeat SIGCHLD 1024 ++ [SIGTERM]) []
                               (Ready [EpollEvent EPOLLIN 5])])
                 (boot 4096)))) = 1%nat.
Proof. vm_compute. repeat split; reflexivity. Qed.

(** ** Accepting a connection *)

Lemma epoll_ctl_add_ok epfd fd ev w :
  fd_flags w epfd <> None -> fd_flags w fd <> None -> fd <> epfd ->
  interest w !! fd = None ->
  epoll_ctl_add epfd fd ev w
  = (Ret 0, record (CEpollCtlAdd epfd fd ev 0) (set_interest (<[fd := ev]> (interest w)) w)).
Proof.
  intros He Hf Hne Hi. unfold epoll_ctl_add, succeed.
  destruct (fd_flags w epfd); [|contradiction].
  destruct (fd_flags w fd); [|contradiction].
  destruct (Z.eqb_spec fd epfd); [contradiction|]. rewrite Hi. reflexivity.
Qed.

(** C7. When the listening socket is reported ready (and is nonblocking,
    as [addfd] left it), the dispatch calls [accept] exactly once and goes
    on to the next event with [stop_server] unchanged.  If the kernel hands
    out a connection (a fresh descriptor), it ends up registered for
    [EPOLLIN|EPOLLET] and nonblocking.  If [accept] fails (nothing pending:
    [EAGAIN]; or the socket is not open), the interest list and the
    descriptor table are as before. *)
Theorem listen_event_accepts_once epfd listenfd ev stop w :
  data_fd ev = listenfd ->
  unblocked w listenfd = true ->
  exists connfd d w2,
    fst (accept listenfd w) = Ret connfd /\
    on_event epfd listenfd ev stop w = (Ret stop, w2) /\
    log w2 = log w ++ d /\ count is_accept d = 1%nat /\
    (forall rest,
       backlog w = connfd :: rest -> fd_flags w listenfd <> None ->
       fd_flags w epfd <> None -> 0 <= connfd ->
       fd_flags w connfd = None -> interest w !! connfd = None ->
       interest w2 !! connfd = Some (Z.lor EPOLLIN EPOLLET) /\
       fd_flags w2 connfd = Some (Z.lor O_RDWR O_NONBLOCK) /\
       unblocked w2 connfd = true) /\
    (fd_flags w listenfd = None \/ backlog w = [] ->
       connfd = -1 /\ interest w2 = interest w /\ fdtab w2 = fdtab w).
Proof.
  intros Hev Hu.
  destruct (on_event_listen epfd listenfd ev stop w Hev Hu)
    as (c & r & r1 & a & r2 & w1 & w2 & E1 & E2 & E & F & _ & _).
  exists c, [CAccept listenfd c; CEpollCtlAdd epfd c (Z.lor EPOLLIN EPOLLET) r;
             CFcntlGet c r1; CFcntlSet c a r2], w2.
  split; [rewrite E1; reflexivity|]. split; [exact E|].
  split. { destruct F as (_ & _ & _ & _ & _ & _ & L). exact L. }
  split; [reflexivity|].
  destruct (accept_effect listenfd w Hu) as (c' & w1' & E1' & _ & _ & I1 & Hc).
  rewrite E1 in E1'. inversion E1'; subst c' w1'. clear E1'.
  split.
  - intros rest Hb Hl He Hpos Hfresh Hi.
    destruct Hc as [(_ & _ & _ & [H|H])|(rest' & _ & _ & T1 & _)];
      [contradiction|rewrite Hb in H; discriminate|].
    assert (Hc1 : fd_flags w1 c = Some O_RDWR).
    { unfold fd_flags. rewrite T1. destruct (Z.ltb_spec c 0); [lia|]. apply lookup_insert_eq. }
    assert (Hne : c <> epfd) by (intros ->; contradiction).
    assert (He1 : fd_flags w1 epfd <> None).
    { unfold fd_flags in *. rewrite T1. destruct (epfd <? 0); [exact He|].
      rewrite lookup_insert_ne by exact Hne. exact He. }
    revert E2. unfold addfd, bind. simpl.
    rewrite (epoll_ctl_add_ok epfd c _ w1 He1) by (rewrite ?I1; congruence).
    set (w1r := record _ _).
    destruct (setnonblocking_effect c w1r)
      as (q1 & qa & q2 & w2' & E2' & _ & I2 & _ & _ & _ & V2 & _ & O2 & _).
    rewrite E2'. intros E2. inversion E2; subst w2'.
    split. { rewrite I2. unfold w1r. simpl. rewrite I1. apply lookup_insert_eq. }
    split; [|exact V2]. apply O2. exact Hc1.
  - intros Hfail.
    destruct Hc as [(Hm & T1 & _)|(rest & Hb & _ & _ & Hl)].
    + subst c.
      destruct (addfd_effect epfd (-1) w1)
        as (q & q1 & qa & q2 & w2' & E2' & _ & _ & _ & _ & _ & _ & _ & C2 & I2).
      rewrite E2 in E2'. inversion E2'; subst w2'.
      assert (Hn : fd_flags w1 (-1) = None) by reflexivity.
      split; [reflexivity|]. split.
      * destruct I2 as [I2|(_ & _ & I2 & _)]; [congruence|contradiction].
      * rewrite (C2 Hn). exact T1.
    + destruct Hfail as [H|H]; [contradiction|rewrite Hb in H; discriminate].
Qed.

Lemma listen_event_accepts_once_witness :
  (exists w2,
     on_event 4 3 (EpollEvent EPOLLIN 3) false (set_backlog [7] (running_world 64))
     = (Ret false, w2) /\
     interest w2 !! 7 = Some (Z.lor EPOLLIN EPOLLET) /\ unblocked w2 7 = true) /\
  (exists w2,
     on_event 4 3 (EpollEvent EPOLLIN 3) false (running_world 64) = (Ret false, w2) /\
     interest w2 = interest (running_world 64)).
Proof.
  split.
  - destruct (listen_event_accepts_once 4 3 (EpollEvent EPOLLIN 3) false
                (set_backlog [7] (running_world 64)))
      as (connfd & d & w2 & Ea & E & _ & _ & Hs & _).
    + reflexivity.
    + vm_compute. reflexivity.
    + vm_compute in Ea. inversion Ea; subst connfd.
      exists w2. split; [exact E|].
      destruct (Hs []) as (Hi & _ & Hu).
      * vm_compute. reflexivity.
      * vm_compute. discriminate.
      * vm_compute. discriminate.
      * lia.
      * vm_compute. reflexivity.
      * vm_compute. reflexivity.
      * split; assumption.
  - destruct (listen_event_accepts_once 4 3 (EpollEvent EPOLLIN 3) false (running_world 64))
      as (connfd & d & w2 & _ & E & _ & _ & _ & Hf).
    + reflexivity.
    + vm_compute. reflexivity.
    + exists w2. split; [exact E|].
      destruct Hf as (_ & Hi & _); [right; vm_compute; reflexivity|exact Hi].
Defined.

(** ** The flag is read at the top of the loop only *)

(** C9. Once the wait has reported a batch, the [for] loop dispatches
    every event of it: one [accept] and one registration attempt per
    listening-socket event, one [recv] per pipe event, also for the events
    that come after the one that set [stop_server].  When the flag is set
    at the end of the batch the loop is left in the world the whole batch
    produced, and only then the teardown closes the descriptors. *)
Theorem stop_flag_checked_at_top_only epfd listenfd i ins evs1 evs2 w w0 :
  loop_ready listenfd w = true ->
  await epfd i w = (Ret (Z.of_nat (length (evs1 ++ evs2)), evs1 ++ evs2), w0) ->
  exists s1 w1 s2 w2 d,
    for_events epfd listenfd evs1 false w0 = (Ret s1, w1) /\
    for_events epfd listenfd evs2 s1 w1 = (Ret s2, w2) /\
    for_events epfd listenfd (evs1 ++ evs2) false w0 = (Ret s2, w2) /\
    log w2 = log w1 ++ d /\
    count is_accept d = occurrences (listen_event listenfd) evs2 /\
    count is_epoll_add d = occurrences (listen_event listenfd) evs2 /\
    count is_recv d = occurrences (bridge_event listenfd (pipefd0 w)) evs2 /\
    (s1 = true -> s2 = true) /\
    (s2 = true ->
       event_loop epfd listenfd (i :: ins) false w = (Ret true, w2) /\
       (_stop <-- event_loop epfd listenfd (i :: ins) false;; teardown listenfd) w
       = teardown listenfd w2).
Proof.
  intros Hready Ea.
  destruct (await_effect epfd listenfd i w Hready)
    as (n & evs & d0 & w0' & Ea' & F0 & _ & R0 & _).
  rewrite Ea in Ea'. inversion Ea'; subst n evs w0'. clear Ea'.
  destruct (for_events_effect epfd listenfd evs1 false w0 R0)
    as (s1 & d1 & w1 & E1 & F1 & R1 & _).
  destruct (for_events_effect epfd listenfd evs2 s1 w1 R1)
    as (s2 & d2 & w2 & E2 & F2 & _ & S2 & _ & A2 & C2 & V2).
  assert (Eall : for_events epfd listenfd (evs1 ++ evs2) false w0 = (Ret s2, w2)).
  { rewrite for_events_app. unfold bind. rewrite E1. exact E2. }
  exists s1, w1, s2, w2, d2.
  split; [exact E1|]. split; [exact E2|]. split; [exact Eall|].
  split. { destruct F2 as (_ & _ & _ & _ & _ & _ & L). exact L. }
  split; [exact A2|]. split; [exact C2|].
  split. { rewrite V2. destruct F1 as (P1 & _), F0 as (P0 & _). rewrite P1, P0. reflexivity. }
  split. { intros ->. rewrite S2. reflexivity. }
  intros ->.
  assert (Eloop : event_loop epfd listenfd (i :: ins) false w = (Ret true, w2)).
  { rewrite (event_loop_unfold epfd listenfd i ins w _ _ w0 Ea).
    assert (Hn : (Z.of_nat (length (evs1 ++ evs2)) <? 0) = false) by (apply Z.ltb_ge; lia).
    rewrite Hn. simpl. unfold bind. rewrite Eall. apply event_loop_stopped. }
  split; [exact Eloop|]. unfold bind at 1. rewrite Eloop. reflexivity.
Qed.

Lemma stop_flag_checked_at_top_only_witness :
  exists w2,
    event_loop 4 3
      [WaitInput [SIGTERM] [7] (Ready [EpollEvent EPOLLIN 5; EpollEvent EPOLLIN 3])]
      false (running_world 64) = (Ret true, w2) /\
    count is_accept (log w2) = 1%nat.
Proof.
  destruct (stop_flag_checked_at_top_only 4 3
              (WaitInput [SIGTERM] [7] (Ready [EpollEvent EPOLLIN 5; EpollEvent EPOLLIN 3]))
              [] [EpollEvent EPOLLIN 5] [EpollEvent EPOLLIN 3] (running_world 64)
              (snd (await 4 (WaitInput [SIGTERM] [7]
                               (Ready [EpollEvent EPOLLIN 5; EpollEvent EPOLLIN 3]))
                      (running_world 64))))
    as (s1 & w1 & s2 & w2 & d & _ & _ & Eall & _ & _ & _ & _ & _ & Hloop).
  - vm_compute. reflexivity.
  - vm_compute. reflexivity.
  - assert (Hs : s2 = true).
    { vm_compute in Eall. inversion Eall. reflexivity. }
    destruct (Hloop Hs) as [El _]. exists w2. split; [exact El|].
    vm_compute in Eall. inversion Eall. vm_compute. reflexivity.
Defined.

(** ** Failures of the wait *)

Lemma close_effect fd w :
  exists r w1, close fd w = (Ret r, w1) /\
               stdout w1 = stdout w /\ stderr w1 = stderr w /\
               pipefd0 w1 = pipefd0 w /\ pipefd1 w1 = pipefd1 w.
Proof.
  unfold close. destruct (fd_flags w fd); do 2 eexists; (split; [reflexivity|]);
    simpl; tauto.
Qed.

(** The code after the loop always returns 0 and writes one line to
    standard output, nothing to standard error. *)
Lemma teardown_effect listenfd w :
  exists w1, teardown listenfd w = (Ret 0, w1) /\
             stdout w1 = stdout w ++ ["close fds" +:+ nl] /\ stderr w1 = stderr w.
Proof.
  unfold teardown, bind, printf, get_pipefd1, get_pipefd0.
  set (wa := set_stdout _ w).
  destruct (close_effect listenfd wa) as (r1 & w1 & E1 & O1 & S1 & P1 & Q1). rewrite E1.
  destruct (close_effect (pipefd1 w1) w1) as (r2 & w2 & E2 & O2 & S2 & P2 & Q2). rewrite E2.
  destruct (close_effect (pipefd0 w2) w2) as (r3 & w3 & E3 & O3 & S3 & P3 & Q3). rewrite E3.
  exists w3. split; [reflexivity|]. rewrite O3, O2, O1, S3, S2, S1. split; reflexivity.
Qed.

(** C6, as the code has it.  A wait that fails with [EINTR] is a pass
    with no event: the loop goes on to the next wait with the flag still
    false.  A wait that fails with any other error makes the loop print
    "epoll failure" on standard output and leave; nothing is written to
    standard error, and the teardown that follows returns 0. *)
Theorem wait_failure_handling epfd listenfd i ins w e :
  loop_ready listenfd w = true ->
  reported i = WaitFailed e ->
  exists w1,
    await epfd i w = (Ret (-1, []), w1) /\ errno w1 = e /\
    (e = EINTR ->
       event_loop epfd listenfd (i :: ins) false w = event_loop epfd listenfd ins false w1) /\
    (e <> EINTR ->
       exists w2 w3,
         event_loop epfd listenfd (i :: ins) false w = (Ret false, w2) /\
         stdout w2 = stdout w ++ ["epoll failure" +:+ nl] /\
         stderr w2 = stderr w /\
         (_stop <-- event_loop epfd listenfd (i :: ins) false;; teardown listenfd) w
         = (Ret 0, w3) /\
         stdout w3 = stdout w ++ ["epoll failure" +:+ nl; "close fds" +:+ nl] /\
         stderr w3 = stderr w).
Proof.
  intros Hready Hrep.
  destruct (await_effect epfd listenfd i w Hready)
    as (n & evs & d0 & w1 & Ea & F0 & _ & R0 & Hres).
  rewrite Hrep in Hres. destruct Hres as (-> & -> & He).
  exists w1. split; [exact Ea|]. split; [exact He|].
  pose proof (event_loop_unfold epfd listenfd i ins w _ _ w1 Ea) as Hstep.
  destruct F0 as (_ & _ & _ & _ & O0 & S0 & _).
  split.
  - intros ->. rewrite Hstep, He. reflexivity.
  - intros Hne. 
    assert (Hb : (-1 <? 0) && negb (errno w1 =? EINTR) = true).
    { rewrite He. apply Z.eqb_neq in Hne. rewrite Hne. reflexivity. }
    rewrite Hb in Hstep.
    destruct (teardown_effect listenfd (set_stdout (stdout w1 ++ ["epoll failure" +:+ nl]) w1))
      as (w3 & E3 & O3 & S3).
    eexists _, w3. split; [exact Hstep|].
    split; [simpl; rewrite O0; reflexivity|]. split; [exact S0|].
    split. { unfold bind at 1. rewrite Hstep. exact E3. }
    rewrite O3, S3. simpl. rewrite O0, S0, <- app_assoc. split; reflexivity.
Qed.

Lemma wait_failure_handling_witness :
  event_loop 4 3 [WaitInput [SIGCHLD] [] (WaitFailed EINTR);
                  WaitInput [] [] (WaitFailed EBADF)] false (running_world 64)
  = event_loop 4 3 [WaitInput [] [] (WaitFailed EBADF)] false
      (snd (await 4 (WaitInput [SIGCHLD] [] (WaitFailed EINTR)) (running_world 64))).
Proof.
  destruct (wait_failure_handling 4 3 (WaitInput [SIGCHLD] [] (WaitFailed EINTR))
              [WaitInput [] [] (WaitFailed EBADF)] (running_world 64) EINTR)
    as (w1 & Ea & _ & Hintr & _).
  - vm_compute. reflexivity.
  - reflexivity.
  - rewrite (Hintr eq_refl), Ea. reflexivity.
Defined.

(** C6 as the claim words it fails: the wait fails with [EBADF]; [main]
    returns 0, standard error stays empty and the diagnostic is on standard
    output. *)
Lemma hard_wait_error_exits_zero :
  fst (main ["server"; "127.0.0.1"; "18812"]%string
         (quiet_env [WaitInput [] [] (WaitFailed EBADF)]) (boot 64)) = Ret 0 /\
  stderr (snd (main ["server"; "127.0.0.1"; "18812"]%string
                 (quiet_env [WaitInput [] [] (WaitFailed EBADF)]) (boot 64))) = [] /\
  stdout (snd (main ["server"; "127.0.0.1"; "18812"]%string
                 (quiet_env [WaitInput [] [] (WaitFailed EBADF)]) (boot 64)))
  = ["epoll failure" +:+ nl; "close fds" +:+ nl].
Proof. vm_compute. repeat split; reflexivity. Qed.

(** ** Setup *)

Lemma addsig_effect sig w :
  catchable sig = true ->
  addsig sig w = (Ret tt, record (CSigaction sig 0) (set_handlers (sig :: handlers w) w)).
Proof.
  intros H. unfold addsig, bind, sigaction. rewrite H. reflexivity.
Qed.

Lemma setup_from_listen_ok e listenfd lr epfd a b w :
  e_listen e = Success lr -> lr <> -1 ->
  e_epoll_create e = Success epfd -> epfd <> -1 ->
  e_socketpair e = PairOk a b ->
  exists d w1,
    setup_from_listen e listenfd w = (Ret (epfd, listenfd), w1) /\
    loop_ready listenfd w1 = true /\
    pipefd0 w1 = a /\ pipefd1 w1 = b /\
    stdout w1 = stdout w /\ stderr w1 = stderr w /\
    log w1 = log w ++ d /\
    existsb is_wait d = false /\ existsb terminating_recv d = false.
Proof.
  intros Hl Hlr He Hepfd Hp.
  unfold setup_from_listen.
  unfold bind at 1. unfold env_call at 1. rewrite Hl. unfold succeed at 1.
  unfold bind at 1. unfold assert at 1.
  apply Z.eqb_neq in Hlr. rewrite Hlr. cbv beta iota. simpl negb. cbv beta iota.
  unfold bind at 1. unfold new_fd at 1. rewrite He. unfold succeed at 1.
  unfold bind at 1. unfold assert at 1.
  apply Z.eqb_neq in Hepfd. rewrite Hepfd. simpl negb. cbv beta iota.
  set (w2 := record (CEpollCreate epfd) _).
  destruct (addfd_effect epfd listenfd w2)
    as (q & q1 & qa & q2 & w3 & E3 & F3 & _ & _ & _ & U3 & _).
  unfold bind at 1. rewrite E3.
  unfold bind at 1. unfold socketpair at 1. rewrite Hp. unfold succeed at 1.
  unfold bind at 1. unfold assert at 1. simpl negb. cbv beta iota.
  set (w4 := record (CSocketpair 0) _).
  unfold bind at 1. unfold get_pipefd1 at 1.
  change (pipefd1 w4) with b.
  destruct (setnonblocking_effect b w4)
    as (p1 & pa & p2 & w5 & E5 & F5 & _ & _ & _ & _ & U5 & S5 & _).
  unfold bind at 1. rewrite E5.
  unfold bind at 1. unfold get_pipefd0 at 1.
  assert (P5 : pipefd0 w5 = a /\ pipefd1 w5 = b).
  { destruct F5 as (P0 & P1 & _). rewrite P0, P1. split; reflexivity. }
  destruct P5 as [P50 P51]. rewrite P50.
  destruct (addfd_effect epfd a w5)
    as (t & t1 & ta & t2 & w6 & E6 & F6 & _ & _ & K6 & U6 & _).
  unfold bind at 1. rewrite E6. cbv beta iota.
  do 4 (unfold bind at 1; rewrite addsig_effect by reflexivity; cbv beta iota).
  unfold ret.
  do 2 eexists. split; [reflexivity|].
  assert (P6 : pipefd0 w6 = a /\ pipefd1 w6 = b).
  { destruct F6 as (P0 & P1 & _). rewrite P0, P1. split; assumption. }
  destruct P6 as [P60 P61].
  split.
  { unfold loop_ready. simpl pipefd0. simpl pipefd1. rewrite P60, P61.
    assert (Ub : unblocked w6 b = true) by (apply K6; exact U5).
    assert (Ul : unblocked w6 listenfd = true).
    { destruct (decide (listenfd = a)) as [->|Hna]; [exact U6|].
      destruct (decide (listenfd = b)) as [->|Hnb]; [exact Ub|].
      apply K6. unfold unblocked. rewrite S5 by assumption.
      unfold unblocked in U3. unfold w4, fd_flags. simpl.
      rewrite !lookup_insert_ne by congruence. exact U3. }
    change (unblocked w6 listenfd && unblocked w6 a && unblocked w6 b = true).
    rewrite Ul, U6, Ub. reflexivity. }
  simpl. split; [exact P60|]. split; [exact P61|].
  destruct F3 as (_ & _ & _ & _ & O3 & S3 & L3).
  destruct F5 as (_ & _ & _ & _ & O5 & S5' & L5).
  destruct F6 as (_ & _ & _ & _ & O6 & S6 & L6).
  split. { rewrite O6, O5. simpl. rewrite O3. reflexivity. }
  split. { rewrite S6, S5'. simpl. rewrite S3. reflexivity. }
  split.
  { rewrite L6, L5. simpl. rewrite L3. simpl. rewrite <- !app_assoc. reflexivity. }
  simpl. split; reflexivity.
Qed.

Lemma setup_split e :
  setup e
  = (listenfd <-- new_fd CSocket (e_socket e);;
     assert (0 <=? listenfd);;;
     r <-- env_call (CBind listenfd) (e_bind e);;
     (if r =? -1
      then en <-- get_errno;; printf ("errno is " +:+ pretty en +:+ nl)
      else ret tt);;;
     setup_from_listen e listenfd).
Proof. reflexivity. Qed.

(** C5, where the code departs from it.  [socket], [listen],
    [epoll_create] and [socketpair] are asserted; the result of [bind] is
    only printed.  Here [bind] fails with [EADDRINUSE] and [listen]
    succeeds: the process does not abort, it prints the error number,
    enters the loop, runs one pass (stopped by SIGINT) and [main] returns
    0. *)
Lemma bind_failure_does_not_abort :
  fst (main ["server"; "127.0.0.1"; "18812"]%string
         (Env (Success 3) (Failure 98) (Success 0) (Success 4) (PairOk 5 6)
              [WaitInput [SIGINT] [] (Ready [EpollEvent EPOLLIN 5])])
         (boot 64)) = Ret 0 /\
  count is_wait (log (snd (main ["server"; "127.0.0.1"; "18812"]%string
         (Env (Success 3) (Failure 98) (Success 0) (Success 4) (PairOk 5 6)
              [WaitInput [SIGINT] [] (Ready [EpollEvent EPOLLIN 5])])
         (boot 64)))) = 1%nat /\
  stdout (snd (main ["server"; "127.0.0.1"; "18812"]%string
         (Env (Success 3) (Failure 98) (Success 0) (Success 4) (PairOk 5 6)
              [WaitInput [SIGINT] [] (Ready [EpollEvent EPOLLIN 5])])
         (boot 64))) = ["errno is 98" +:+ nl; "close fds" +:+ nl].
Proof. vm_compute. repeat split; reflexivity. Qed.

(** ** The client *)

Module ClientFacts.
Import Client.



End ClientFacts.

(** ** The main thread of the client *)

Module MainFacts.
Import Client.

Lemma forallb_both {A} (p q : A -> bool) l :
  forallb (fun c => p c && q c) l = true ->
  forallb p l = true /\ forallb q l = true.
Proof.
  induction l as [|c l IH]; simpl; [split; reflexivity|].
  intros H. apply andb_true_iff in H as [Hc H]. apply andb_true_iff in Hc as [Hp Hq].
  destruct (IH H) as [H1 H2]. rewrite Hp, Hq, H1, H2. split; reflexivity.
Qed.

Lemma firstn_exact {A} (a b : list A) n : length a = n -> firstn n (a ++ b) = a.
Proof.
  intros <-. induction a as [|x a IH]; simpl.
  - destruct b; reflexivity.
  - rewrite IH. reflexivity.
Qed.

Lemma skipn_exact {A} (a b : list A) n : length a = n -> skipn n (a ++ b) = b.
Proof. intros <-. induction a as [|x a IH]; simpl; [reflexivity|exact IH]. Qed.

Lemma last_cons {A} (a d : A) l : List.last (a :: l) d = List.last l a.
Proof.
  revert a d. induction l as [|b l IH]; intros a d; [reflexivity|].
  change (List.last (a :: b :: l) d) with (List.last (b :: l) d).
  rewrite (IH b d), (IH b a). reflexivity.
Qed.

(** *** Reading the name and the lines *)

Lemma token_word name rest :
  forallb (fun c => negb (isspace c)) name = true ->
  token (name ++ newline :: rest) = (name, newline :: rest).
Proof.
  induction name as [|c name IH]; intros H.
  - reflexivity.
  - simpl in H. apply andb_true_iff in H as [Hc H]. apply negb_true_iff in Hc.
    change (token ((c :: name) ++ newline :: rest))
      with (if isspace c then ([], c :: name ++ newline :: rest)
            else let '(t, s') := token (name ++ newline :: rest) in (c :: t, s')).
    rewrite Hc, (IH H). reflexivity.
Qed.

Lemma scanf_word name rest eof :
  good_name name = true ->
  scanf_s (name ++ newline :: rest) eof = Word name (newline :: rest).
Proof.
  unfold good_name. intros H.
  apply andb_true_iff in H as [H Hw]. apply andb_true_iff in H as [Hpos _].
  apply forallb_both in Hw as [Hw _].
  unfold scanf_s.
  assert (Hs : skip_space (name ++ newline :: rest) = name ++ newline :: rest).
  { destruct name as [|c name]; [discriminate Hpos|].
    simpl in Hw. apply andb_true_iff in Hw as [Hc _]. apply negb_true_iff in Hc.
    change (skip_space ((c :: name) ++ newline :: rest))
      with (if isspace c then skip_space (name ++ newline :: rest)
            else c :: name ++ newline :: rest).
    rewrite Hc. reflexivity. }
  rewrite Hs, (token_word name rest Hw). reflexivity.
Qed.

Lemma stream_lines_line l s :
  forallb (fun c => negb (Ascii.eqb c newline)) l = true ->
  stream_lines (l ++ newline :: s) = (l :: fst (stream_lines s), snd (stream_lines s)).
Proof.
  induction l as [|c l IH]; intros H.
  - change (stream_lines ([] ++ newline :: s))
      with (let '(ls, last) := stream_lines s in ([] :: ls, last)).
    destruct (stream_lines s); reflexivity.
  - simpl in H. apply andb_true_iff in H as [Hc H]. apply negb_true_iff in Hc.
    change (stream_lines ((c :: l) ++ newline :: s))
      with (let '(ls, last) := stream_lines (l ++ newline :: s) in
            if Ascii.eqb c newline then ([] :: ls, last)
            else match ls with
                 | [] => ([], c :: last)
                 | l0 :: ls' => ((c :: l0) :: ls', last)
                 end).
    rewrite (IH H), Hc. reflexivity.
Qed.

Lemma gets_results_line l s eof :
  forallb (fun c => negb (Ascii.eqb c newline)) l = true ->
  gets_results (l ++ newline :: s) eof = l :: gets_results s eof.
Proof.
  intros H. unfold gets_results. rewrite (stream_lines_line l s H).
  destruct (stream_lines s) as [ls last]. simpl.
  destruct eof; [destruct last|]; reflexivity.
Qed.

Lemma gets_results_lines ls s eof :
  forallb good_line ls = true ->
  gets_results (concat (map (fun l => l ++ [newline]) ls) ++ s) eof
  = ls ++ gets_results s eof.
Proof.
  induction ls as [|l ls IH]; intros H; [reflexivity|].
  simpl in H. apply andb_true_iff in H as [Hl H].
  unfold good_line in Hl. apply andb_true_iff in Hl as [_ Hl].
  apply forallb_both in Hl as [Hl _].
  simpl. rewrite <- !app_assoc. simpl.
  rewrite (gets_results_line l _ eof Hl), (IH H). reflexivity.
Qed.

(** *** C strings in memory *)

Lemma cstring_text l x :
  forallb (fun c => negb (Ascii.eqb c NUL)) l = true ->
  cstring (l ++ NUL :: x) = l.
Proof.
  induction l as [|c l IH]; intros H; [reflexivity|].
  cbn [forallb] in H. apply andb_true_iff in H as [Hc H]. apply negb_true_iff in Hc.
  cbn [cstring app]. rewrite Hc, (IH H). reflexivity.
Qed.

Lemma strcmp_zero_text a :
  forall l x,
    forallb (fun c => negb (Ascii.eqb c NUL)) a = true ->
    forallb (fun c => negb (Ascii.eqb c NUL)) l = true ->
    (strcmp_zero (a ++ [NUL]) (l ++ NUL :: x) = true <-> a = l).
Proof.
  induction a as [|c a IH]; intros l x Ha Hl; destruct l as [|d l].
  - split; reflexivity.
  - cbn [forallb] in Hl. apply andb_true_iff in Hl as [Hd _]. apply negb_true_iff in Hd.
    cbn [strcmp_zero app]. rewrite Ascii.eqb_sym, Hd. split; discriminate.
  - cbn [forallb] in Ha. apply andb_true_iff in Ha as [Hc _]. apply negb_true_iff in Hc.
    cbn [strcmp_zero app]. rewrite Hc. split; discriminate.
  - cbn [forallb] in Ha, Hl.
    apply andb_true_iff in Ha as [Hc Ha]. apply negb_true_iff in Hc.
    apply andb_true_iff in Hl as [_ Hl].
    cbn [strcmp_zero app]. destruct (Ascii.eqb_spec c d) as [->|Hne].
    + rewrite Hc, (IH l x Ha Hl). split; [intros ->; reflexivity|].
      intros H. injection H as H. exact H.
    + split; [discriminate|]. intros H. injection H as H _. contradiction.
Qed.

(** *** The record in memory *)

Lemma chars_split m : i_chars m = firstn NAMELEN (i_chars m) ++ buf_field m.
Proof. unfold buf_field. symmetry. apply firstn_skipn. Qed.

Lemma holds_name_view m name :
  forallb (fun c => negb (Ascii.eqb c NUL)) name = true ->
  holds_name m name ->
  view m = ClientMsg (i_op m) (string_of_list_ascii name)
                     (string_of_list_ascii (cstring (buf_field m))).
Proof.
  intros Hn (_ & junk & Hj). unfold view.
  rewrite (chars_split m) at 1. rewrite Hj, <- app_assoc. simpl.
  rewrite (cstring_text name _ Hn). reflexivity.
Qed.

Lemma loaded_length g : length (i_chars (loaded g)) = CHARS.
Proof.
  unfold loaded. cbn [i_chars]. rewrite length_firstn, length_app, repeat_length. lia.
Qed.

Lemma with_line_spec line m name :
  (length line < CMSGLEN)%nat ->
  holds_name m name ->
  holds_name (with_line line m) name /\
  i_op (with_line line m) = MSG /\
  exists x, buf_field (with_line line m) = line ++ NUL :: x.
Proof.
  intros Hlen (Hc & junk & Hj).
  assert (H20 : length (firstn NAMELEN (i_chars m)) = NAMELEN).
  { rewrite length_firstn, Hc. reflexivity. }
  assert (E : i_chars (with_line line m)
              = firstn NAMELEN (i_chars m)
                ++ (line ++ [NUL]) ++ skipn (NAMELEN + length (line ++ [NUL])) (i_chars m))
    by reflexivity.
  unfold holds_name, buf_field. rewrite E.
  split; [split|].
  - rewrite !length_app, length_skipn, H20, Hc. cbn [length].
    unfold CHARS, NAMELEN, CMSGLEN in *. lia.
  - exists junk. rewrite (firstn_exact _ _ _ H20). exact Hj.
  - split; [reflexivity|].
    rewrite (skipn_exact _ _ _ H20), <- app_assoc. eexists. reflexivity.
Qed.

Lemma with_line_view line m name :
  (length line < CMSGLEN)%nat ->
  forallb (fun c => negb (Ascii.eqb c NUL)) name = true ->
  forallb (fun c => negb (Ascii.eqb c NUL)) line = true ->
  holds_name m name ->
  view (with_line line m)
  = ClientMsg MSG (string_of_list_ascii name) (string_of_list_ascii line) /\
  (says_bye (with_line line m) = true <-> line = bye).
Proof.
  intros Hlen Hn Hl Hm.
  destruct (with_line_spec line m name Hlen Hm) as (Hh & Hop & x & Hb).
  split.
  - rewrite (holds_name_view _ name Hn Hh), Hop, Hb, (cstring_text line x Hl). reflexivity.
  - unfold says_bye. rewrite Hb.
    rewrite (strcmp_zero_text bye line x eq_refl Hl). split; intros H; symmetry; exact H.
Qed.

Lemma with_name_spec name m :
  (length name < NAMELEN)%nat ->
  length (i_chars m) = CHARS ->
  holds_name (with_name name m) name /\
  buf_field (with_name name m) = buf_field m /\
  i_op (with_name name m) = i_op m.
Proof.
  intros Hlen Hc.
  assert (E : i_chars (with_name name m)
              = (name ++ [NUL]) ++ skipn (length (name ++ [NUL])) (i_chars m))
    by reflexivity.
  assert (Hd : length (name ++ [NUL]) = (length name + 1)%nat)
    by (rewrite length_app; reflexivity).
  unfold holds_name, buf_field. rewrite E.
  split; [split|split; [|reflexivity]].
  - rewrite length_app, length_skipn, Hd, Hc.
    unfold CHARS, NAMELEN, CMSGLEN in *. lia.
  - rewrite firstn_app, (firstn_all2 (n := NAMELEN) (name ++ [NUL])) by (rewrite Hd; lia).
    rewrite <- app_assoc. eexists. reflexivity.
  - rewrite skipn_app, skipn_all2 by (rewrite Hd; lia).
    rewrite skipn_skipn, Hd.
    replace (NAMELEN - (length name + 1) + (length name + 1))%nat with NAMELEN by lia.
    reflexivity.
Qed.

(** *** The passes of the loop *)

Lemma input_loop_step e line rest m sent did :
  input_loop e (line :: rest) m sent did
  = if Nat.ltb CMSGLEN (length line + 1) then Undefined did
    else if says_bye (with_line line m) then leave e (set_op EXIT (with_line line m)) sent did
         else match c_send e sent with
              | Returns => input_loop e rest (with_line line m) (S sent)
                             (did ++ [Send (with_line line m)])
              | Suspends => Suspended (did ++ [Send (with_line line m)])
              | Kills => Killed (did ++ [Send (with_line line m)])
              end.
Proof. reflexivity. Qed.

Lemma input_loop_end e m sent did :
  input_loop e [] m sent did
  = if c_eof e then
      if says_bye (set_op MSG m) then leave e (set_op EXIT (set_op MSG m)) sent did
      else Flooding did (set_op MSG m)
    else Reading did.
Proof. reflexivity. Qed.

(** Lines that fit and are not "bye" go out one by one, as MSG records
    under the name in [username]. *)
Lemma input_loop_lines e name :
  forallb (fun c => negb (Ascii.eqb c NUL)) name = true ->
  (forall n, c_send e n = Returns) ->
  forall lines more m sent did,
    holds_name m name ->
    forallb good_line lines = true ->
    ~ In bye lines ->
    exists imgs sent',
      holds_name (List.last imgs m) name /\
      (lines = [] \/ says_bye (List.last imgs m) = false) /\
      map view imgs
      = map (fun l => ClientMsg MSG (string_of_list_ascii name) (string_of_list_ascii l)) lines /\
      input_loop e (lines ++ more) m sent did
      = input_loop e more (List.last imgs m) sent' (did ++ map Send imgs).
Proof.
  intros Hn Hsend. induction lines as [|l lines IH]; intros more m sent did Hm Hg Hno.
  - exists [], sent. simpl. rewrite app_nil_r. split; [exact Hm|].
    split; [left; reflexivity|]. split; reflexivity.
  - simpl in Hg. apply andb_true_iff in Hg as [Hl Hg].
    unfold good_line in Hl. apply andb_true_iff in Hl as [Hlen Hl].
    apply Nat.ltb_lt in Hlen. apply forallb_both in Hl as [_ Hl].
    destruct (with_line_spec l m name Hlen Hm) as (Hh & _ & _).
    destruct (with_line_view l m name Hlen Hn Hl Hm) as (Hv & Hb).
    assert (Hnb : says_bye (with_line l m) = false).
    { destruct (says_bye (with_line l m)); [|reflexivity].
      exfalso. apply Hno. left. exact (proj1 Hb eq_refl). }
    assert (Hfit : Nat.ltb CMSGLEN (length l + 1) = false) by (apply Nat.ltb_ge; lia).
    destruct (IH more (with_line l m) (S sent) (did ++ [Send (with_line l m)]) Hh Hg)
      as (imgs & sent' & Hlast & Hquiet & Hviews & E).
    { intros H. apply Hno. right. exact H. }
    exists (with_line l m :: imgs), sent'.
    rewrite last_cons. split; [exact Hlast|]. split; [|split].
    + right. destruct Hquiet as [->|Hq]; [|exact Hq].
      destruct imgs; [exact Hnb|discriminate Hviews].
    + simpl. rewrite Hv, Hviews. reflexivity.
    + change ((l :: lines) ++ more) with (l :: (lines ++ more)).
      rewrite input_loop_step, Hfit, Hnb, Hsend, E. simpl map.
      rewrite <- app_assoc. reflexivity.
Qed.

Lemma input_loop_bye e name rest m sent did :
  forallb (fun c => negb (Ascii.eqb c NUL)) name = true ->
  holds_name m name ->
  input_loop e (bye :: rest) m sent did
  = leave e (set_op EXIT (with_line bye m)) sent did /\
  view (set_op EXIT (with_line bye m)) = ClientMsg EXIT (string_of_list_ascii name) "bye" /\
  says_bye (set_op EXIT (with_line bye m)) = true.
Proof.
  intros Hn Hm.
  assert (Hlen : (length bye < CMSGLEN)%nat) by (unfold CMSGLEN; simpl; lia).
  destruct (with_line_view bye m name Hlen Hn eq_refl Hm) as (Hv & Hb).
  assert (Hs : says_bye (with_line bye m) = true) by (apply Hb; reflexivity).
  split; [|split].
  - rewrite input_loop_step, Hs. reflexivity.
  - change (view (set_op EXIT (with_line bye m)))
      with (ClientMsg EXIT (username (view (with_line bye m)))
                      (buf (view (with_line bye m)))).
    rewrite Hv. reflexivity.
  - exact Hs.
Qed.

(** *** From [main] to the loop *)

Lemma main_welcomed e g :
  welcomed e = true ->
  c_recv e = Some g ->
  main e
  = if c_malloc e then
      match scanf_s (c_stdin e) (c_eof e) with
      | Waiting => Reading [PthreadCreate; Print ("Please input the username:" +:+ nl)]
      | NoInput =>
          announce e (loaded g) [] [PthreadCreate; Print ("Please input the username:" +:+ nl)]
      | Word w rest =>
          if Nat.ltb CHARS (length w + 1)
          then Undefined [PthreadCreate; Print ("Please input the username:" +:+ nl)]
          else announce e (with_name w (loaded g)) rest
                 [PthreadCreate; Print ("Please input the username:" +:+ nl)]
      end
    else Undefined [].
Proof.
  unfold welcomed, socket_ok, connect_ok, main. intros H Hg. rewrite Hg in *.
  destruct (c_socket e) as [s|]; [|discriminate H].
  destruct (c_connect e) as [r|]; [|rewrite andb_false_r in H; discriminate H].
  apply andb_true_iff in H as [H Hok]. apply andb_true_iff in H as [Hs Hr].
  apply negb_true_iff in Hs, Hr. rewrite Hs, Hr.
  change (i_op (loaded g)) with (i_op g). rewrite Hok. reflexivity.
Qed.

(** A name and lines that fit, typed in full. *)
Lemma main_typed e g name lines rest :
  welcomed e = true ->
  c_recv e = Some g ->
  c_malloc e = true ->
  (forall n, c_send e n = Returns) ->
  good_name name = true ->
  forallb good_line lines = true ->
  ~ In bye lines ->
  c_stdin e = typed name lines ++ rest ->
  exists imgs sent,
    holds_name (List.last imgs (loaded g)) name /\
    says_bye (List.last imgs (loaded g)) = false /\
    map view imgs
    = session (string_of_list_ascii name) (buf (view (loaded g))) ([] :: lines) /\
    main e
    = input_loop e (gets_results rest (c_eof e)) (List.last imgs (loaded g)) sent
        ([PthreadCreate; Print ("Please input the username:" +:+ nl)] ++ map Send imgs).
Proof.
  intros Hw Hg Hmal Hsend Hname Hlines Hno Hin.
  rewrite (main_welcomed e g Hw Hg), Hmal, Hin.
  unfold typed. rewrite <- app_assoc. simpl app.
  rewrite (scanf_word name _ (c_eof e) Hname).
  pose proof Hname as Hname'. unfold good_name in Hname'.
  apply andb_true_iff in Hname' as [Hn1 Hn2]. apply andb_true_iff in Hn1 as [_ Hn1].
  apply Nat.ltb_lt in Hn1. apply forallb_both in Hn2 as [_ Hnul].
  assert (Hfit : Nat.ltb CHARS (length name + 1) = false).
  { apply Nat.ltb_ge. unfold CHARS, NAMELEN, CMSGLEN in *. lia. }
  rewrite Hfit. unfold announce. rewrite Hsend.
  destruct (with_name_spec name (loaded g) Hn1 (loaded_length g)) as (Hh & Hb & Hop).
  set (m0 := set_op USER (with_name name (loaded g))).
  assert (Hh0 : holds_name m0 name) by exact Hh.
  assert (Hv0 : view m0 = ClientMsg USER (string_of_list_ascii name) (buf (view (loaded g)))).
  { rewrite (holds_name_view m0 name Hnul Hh0).
    change (buf_field m0) with (buf_field (with_name name (loaded g))). rewrite Hb.
    reflexivity. }
  change (newline :: concat (map (fun l => l ++ [newline]) lines) ++ rest)
    with ([] ++ newline :: concat (map (fun l => l ++ [newline]) lines) ++ rest).
  rewrite (gets_results_line [] _ (c_eof e) eq_refl).
  rewrite (gets_results_lines lines rest (c_eof e) Hlines).
  destruct (input_loop_lines e name Hnul Hsend ([] :: lines) (gets_results rest (c_eof e))
              m0 1%nat ([PthreadCreate; Print ("Please input the username:" +:+ nl)]
                        ++ [Send m0]) Hh0)
    as (imgs & sent & Hlast & Hquiet & Hviews & E).
  { simpl. exact Hlines. }
  { intros [H|H]; [discriminate H|exact (Hno H)]. }
  exists (m0 :: imgs), sent. rewrite last_cons.
  split; [exact Hlast|]. split; [destruct Hquiet as [H|H]; [discriminate H|exact H]|]. split.
  - simpl map. rewrite Hv0, Hviews. reflexivity.
  - change (([] :: lines) ++ gets_results rest (c_eof e))
      with ([] :: lines ++ gets_results rest (c_eof e)) in E.
    rewrite E. simpl map. rewrite <- app_assoc. reflexivity.
Qed.

(** *** Where [pthread_cancel] can be *)





(** *** Which line leads to [pthread_cancel] *)







End MainFacts.



(** ** The loop inside [main] *)

(** Whenever the setup comes back, it comes back with the three
    descriptors nonblocking and without having waited or read. *)
Lemma setup_from_listen_ret e listenfd w fds w1 :
  setup_from_listen e listenfd w = (Ret fds, w1) ->
  snd fds = listenfd /\ loop_ready listenfd w1 = true /\
  stderr w1 = stderr w /\
  exists d, log w1 = log w ++ d /\
            existsb is_wait d = false /\ existsb terminating_recv d = false.
Proof.
  intros H.
  destruct (e_listen e) as [lr|el] eqn:Hl.
  2: { exfalso. revert H. unfold setup_from_listen.
       unfold bind at 1. unfold env_call at 1. rewrite Hl. unfold fail at 1.
       unfold bind at 1. unfold assert at 1. simpl negb. cbv beta iota. discriminate. }
  destruct (Z.eqb_spec lr (-1)) as [->|Hlr].
  { exfalso. revert H. unfold setup_from_listen.
    unfold bind at 1. unfold env_call at 1. rewrite Hl. unfold succeed at 1.
    unfold bind at 1. unfold assert at 1. simpl negb. cbv beta iota. discriminate. }
  destruct (e_epoll_create e) as [epfd|ee] eqn:He.
  2: { exfalso. revert H. unfold setup_from_listen.
       unfold bind at 1. unfold env_call at 1. rewrite Hl. unfold succeed at 1.
       unfold bind at 1. unfold assert at 1.
       apply Z.eqb_neq in Hlr. rewrite Hlr. simpl negb. cbv beta iota.
       unfold bind at 1. unfold new_fd at 1. rewrite He. unfold fail at 1.
       unfold bind at 1. unfold assert at 1. simpl negb. cbv beta iota. discriminate. }
  destruct (Z.eqb_spec epfd (-1)) as [->|Hepfd].
  { exfalso. revert H. unfold setup_from_listen.
    unfold bind at 1. unfold env_call at 1. rewrite Hl. unfold succeed at 1.
    unfold bind at 1. unfold assert at 1.
    apply Z.eqb_neq in Hlr. rewrite Hlr. simpl negb. cbv beta iota.
    unfold bind at 1. unfold new_fd at 1. rewrite He. unfold succeed at 1.
    unfold bind at 1. unfold assert at 1. simpl negb. cbv beta iota. discriminate. }
  destruct (e_socketpair e) as [a b|ep] eqn:Hp.
  2: { exfalso. revert H. unfold setup_from_listen.
       unfold bind at 1. unfold env_call at 1. rewrite Hl. unfold succeed at 1.
       unfold bind at 1. unfold assert at 1.
       apply Z.eqb_neq in Hlr. rewrite Hlr. simpl negb. cbv beta iota.
       unfold bind at 1. unfold new_fd at 1. rewrite He. unfold succeed at 1.
       unfold bind at 1. unfold assert at 1.
       apply Z.eqb_neq in Hepfd. rewrite Hepfd. simpl negb. cbv beta iota.
       set (w2 := record (CEpollCreate epfd) _).
       destruct (addfd_effect epfd listenfd w2) as (q & q1 & qa & q2 & w3 & E3 & _).
       unfold bind at 1. rewrite E3.
       unfold bind at 1. unfold socketpair at 1. rewrite Hp. unfold fail at 1.
       unfold bind at 1. unfold assert at 1. simpl negb. cbv beta iota. discriminate. }
  destruct (setup_from_listen_ok e listenfd lr epfd a b w Hl Hlr He Hepfd Hp)
    as (d & w1' & E & R & _ & _ & _ & S & L & W & T).
  rewrite E in H. inversion H; subst fds w1'.
  split; [reflexivity|]. split; [exact R|]. split; [exact S|].
  exists d. repeat split; assumption.
Qed.

Lemma setup_ret e w fds w1 :
  setup e w = (Ret fds, w1) ->
  loop_ready (snd fds) w1 = true /\
  exists d, log w1 = log w ++ d /\
            existsb is_wait d = false /\ existsb terminating_recv d = false.
Proof.
  rewrite setup_split.
  unfold bind at 1. unfold new_fd at 1.
  destruct (e_socket e) as [lfd|es].
  2: { unfold fail at 1. unfold bind at 1. unfold assert at 1.
       change (0 <=? -1) with false. cbv beta iota. discriminate. }
  unfold succeed at 1. unfold bind at 1. unfold assert at 1.
  destruct (0 <=? lfd); [|cbv beta iota; discriminate].
  cbv beta iota. unfold bind at 1. unfold env_call at 1.
  set (wa := record (CSocket lfd) _).
  assert (Hgo : forall wb db,
            log wb = log w ++ db -> existsb is_wait db = false ->
            existsb terminating_recv db = false ->
            setup_from_listen e lfd wb = (Ret fds, w1) ->
            loop_ready (snd fds) w1 = true /\
            exists d, log w1 = log w ++ d /\
                      existsb is_wait d = false /\ existsb terminating_recv d = false).
  { intros wb db Lb Wb Tb Hb.
    destruct (setup_from_listen_ret e lfd wb fds w1 Hb) as (Hf & R & _ & d & L & Wd & Td).
    rewrite Hf. split; [exact R|]. exists (db ++ d).
    rewrite L, Lb, <- app_assoc, !existsb_app, Wb, Wd, Tb, Td. repeat split; reflexivity. }
  destruct (e_bind e) as [v|eb].
  - unfold succeed at 1. destruct (v =? -1).
    + unfold bind at 1 2. unfold get_errno, printf. cbv beta iota.
      apply (Hgo _ [CSocket lfd; CBind lfd v]); try reflexivity.
      simpl. rewrite <- app_assoc. reflexivity.
    + unfold bind at 1. unfold ret at 1. cbv beta iota.
      apply (Hgo _ [CSocket lfd; CBind lfd v]); try reflexivity.
      simpl. rewrite <- app_assoc. reflexivity.
  - unfold fail at 1. change (-1 =? -1) with true. cbv beta iota.
    unfold bind at 1 2. unfold get_errno, printf. cbv beta iota.
    apply (Hgo _ [CSocket lfd; CBind lfd (-1)]); try reflexivity.
    simpl. rewrite <- app_assoc. reflexivity.
Qed.

Lemma quiet_bind {A B : Type} (c : M A) (k : A -> M B) :
  quiet c -> (forall a, quiet (k a)) -> quiet (bind c k).
Proof.
  intros Hc Hk w. destruct (Hc w) as (d1 & L1 & W1 & T1). unfold bind.
  destruct (c w) as [[a| |] w1]; simpl in L1.
  - destruct (Hk a w1) as (d2 & L2 & W2 & T2). exists (d1 ++ d2).
    rewrite L2, L1, <- app_assoc, !existsb_app, W1, W2, T1, T2. repeat split; reflexivity.
  - exists d1. repeat split; assumption.
  - exists d1. repeat split; assumption.
Qed.

Lemma quiet_silent {A : Type} (c : M A) :
  (forall w, log (snd (c w)) = log w) -> quiet c.
Proof.
  intros H w. exists []. rewrite H, app_nil_r. repeat split; reflexivity.
Qed.

Lemma quiet_call {A : Type} (c : M A) (p : call -> bool) :
  (forall x, p x = true -> is_wait x = false /\ terminating_recv x = false) ->
  (forall w, log (snd (c w)) = log w \/
             exists x, p x = true /\ log (snd (c w)) = log w ++ [x]) ->
  quiet c.
Proof.
  intros Hp H w. destruct (H w) as [E|(x & Hx & E)].
  - exists []. rewrite E, app_nil_r. repeat split; reflexivity.
  - exists [x]. destruct (Hp x Hx) as [W T]. simpl. rewrite W, T. repeat split; assumption.
Qed.

Lemma setup_call_quiet x :
  setup_call x = true -> is_wait x = false /\ terminating_recv x = false.
Proof. destruct x; simpl; intros H; try discriminate H; split; reflexivity. Qed.

Ltac one_call :=
  apply (quiet_call _ setup_call setup_call_quiet); intros w;
  repeat match goal with
         | |- context [match ?x with _ => _ end] => destruct x
         end;
  simpl; first [left; reflexivity | right; eexists; split; [|reflexivity]; reflexivity].

Lemma quiet_fcntl_getfl fd : quiet (fcntl_getfl fd).
Proof. unfold fcntl_getfl, succeed, fail. one_call. Qed.

Lemma quiet_fcntl_setfl fd arg : quiet (fcntl_setfl fd arg).
Proof. unfold fcntl_setfl, succeed, fail. one_call. Qed.

Lemma quiet_epoll_ctl_add epfd fd ev : quiet (epoll_ctl_add epfd fd ev).
Proof. unfold epoll_ctl_add, succeed, fail. one_call. Qed.

Lemma quiet_close fd : quiet (close fd).
Proof. unfold close. one_call. Qed.

Lemma quiet_sigaction sig : quiet (sigaction sig).
Proof. unfold sigaction, succeed, fail. one_call. Qed.

Lemma quiet_socketpair r : quiet (socketpair r).
Proof. unfold socketpair, succeed, fail. one_call. Qed.

Lemma quiet_new_fd c r :
  (forall v, setup_call (c v) = true) -> quiet (new_fd c r).
Proof.
  intros Hc. apply (quiet_call _ setup_call setup_call_quiet). intros w.
  unfold new_fd, succeed, fail. destruct r; simpl; right; eexists; split;
    [apply Hc|reflexivity|apply Hc|reflexivity].
Qed.

Lemma quiet_env_call c r :
  (forall v, setup_call (c v) = true) -> quiet (env_call c r).
Proof.
  intros Hc. apply (quiet_call _ setup_call setup_call_quiet). intros w.
  unfold env_call, succeed, fail. destruct r; simpl; right; eexists; split;
    [apply Hc|reflexivity|apply Hc|reflexivity].
Qed.

Lemma quiet_assert b : quiet (assert b).
Proof. apply quiet_silent. intros w. unfold assert. destruct b; reflexivity. Qed.

Lemma quiet_printf s : quiet (printf s).
Proof. apply quiet_silent. reflexivity. Qed.

Lemma quiet_ret {A : Type} (a : A) : quiet (ret a).
Proof. apply quiet_silent. reflexivity. Qed.

Lemma quiet_setnonblocking fd : quiet (setnonblocking fd).
Proof.
  unfold setnonblocking.
  apply quiet_bind; [apply quiet_fcntl_getfl|intros old].
  apply quiet_bind; [apply quiet_fcntl_setfl|intros _]. apply quiet_ret.
Qed.

Lemma quiet_addfd epfd fd : quiet (addfd epfd fd).
Proof.
  unfold addfd. apply quiet_bind; [apply quiet_epoll_ctl_add|intros _].
  apply quiet_setnonblocking.
Qed.

Lemma quiet_addsig sig : quiet (addsig sig).
Proof.
  unfold addsig. apply quiet_bind; [apply quiet_sigaction|intros r]. apply quiet_assert.
Qed.

Lemma quiet_setup e : quiet (setup e).
Proof.
  unfold setup.
  apply quiet_bind; [apply quiet_new_fd; reflexivity|intros listenfd].
  apply quiet_bind; [apply quiet_assert|intros _].
  apply quiet_bind; [apply quiet_env_call; reflexivity|intros r].
  apply quiet_bind.
  { destruct (r =? -1); [|apply quiet_ret].
    apply quiet_bind; [apply quiet_silent; reflexivity|intros en]. apply quiet_printf. }
  intros _.
  apply quiet_bind; [apply quiet_env_call; reflexivity|intros r'].
  apply quiet_bind; [apply quiet_assert|intros _].
  apply quiet_bind; [apply quiet_new_fd; reflexivity|intros epollfd].
  apply quiet_bind; [apply quiet_assert|intros _].
  apply quiet_bind; [apply quiet_addfd|intros _].
  apply quiet_bind; [apply quiet_socketpair|intros r''].
  apply quiet_bind; [apply quiet_assert|intros _].
  apply quiet_bind; [apply quiet_silent; reflexivity|intros wr].
  apply quiet_bind; [apply quiet_setnonblocking|intros _].
  apply quiet_bind; [apply quiet_silent; reflexivity|intros rd].
  apply quiet_bind; [apply quiet_addfd|intros _].
  do 4 (apply quiet_bind; [apply quiet_addsig|intros _]).
  apply quiet_ret.
Qed.

Lemma quiet_teardown listenfd : quiet (teardown listenfd).
Proof.
  unfold teardown.
  apply quiet_bind; [apply quiet_printf|intros _].
  apply quiet_bind; [apply quiet_close|intros _].
  apply quiet_bind; [apply quiet_silent; reflexivity|intros wr].
  apply quiet_bind; [apply quiet_close|intros _].
  apply quiet_bind; [apply quiet_silent; reflexivity|intros rd].
  apply quiet_bind; [apply quiet_close|intros _].
  apply quiet_ret.
Qed.

(** C1. Whatever the environment feeds the program (signals of both
    kinds, connections, any sequence of wait results): once a [recv] of
    the loop has handed it a SIGTERM or SIGINT byte, the loop is left with
    [stop_server] true and the log shows no [epoll_wait] after that [recv]:
    no later iteration runs.  This holds for the loop started in any world
    where its descriptors are nonblocking, and for every run of [main],
    which then only tears down and returns 0. *)
Theorem first_terminating_byte_stops_loop epfd listenfd ins w0 argv e w :
  loop_ready listenfd w0 = true ->
  existsb terminating_recv (log w0) = false ->
  existsb terminating_recv (log w) = false ->
  (existsb terminating_recv (log (snd (event_loop epfd listenfd ins false w0))) = true ->
   fst (event_loop epfd listenfd ins false w0) = Ret true /\
   existsb is_wait
     (after_first terminating_recv (log (snd (event_loop epfd listenfd ins false w0))))
   = false) /\
  (existsb terminating_recv (log (snd (main argv e w))) = true ->
   fst (main argv e w) = Ret 0 /\
   existsb is_wait (after_first terminating_recv (log (snd (main argv e w)))) = false).
Proof.
  intros Hready0 Hclean0 Hclean.
  split; [exact (event_loop_terminating_byte epfd listenfd ins w0 Hready0 Hclean0)|].
  clear epfd listenfd ins w0 Hready0 Hclean0.
  destruct (Z.of_nat (length argv) <=? 2) eqn:Hc.
  { assert (Hm : log (snd (main argv e w)) = log w).
    { unfold main. rewrite Hc. reflexivity. }
    rewrite Hm. congruence. }
  destruct (quiet_setup e w) as (d & L & W & T).
  assert (Hclean1 : existsb terminating_recv (log (snd (setup e w))) = false).
  { rewrite L, existsb_app, Hclean, T. reflexivity. }
  destruct (setup e w) as [[[epfd lfd]| |] w1] eqn:Es; simpl in Hclean1, L.
  - destruct (setup_ret e w _ w1 Es) as (R & _). simpl in R.
    pose proof (event_loop_terminating_byte epfd lfd (e_waits e) w1 R Hclean1) as Hloop.
    assert (Hm : main argv e w
                 = (_stop <-- event_loop epfd lfd (e_waits e) false;; teardown lfd) w1).
    { unfold main. rewrite Hc. unfold bind at 1. rewrite Es. reflexivity. }
    rewrite Hm. unfold bind.
    destruct (event_loop epfd lfd (e_waits e) false w1) as [[s| |] w2] eqn:El;
      simpl in Hloop.
    + destruct (teardown_effect lfd w2) as (w3 & E3 & _).
      destruct (quiet_teardown lfd w2) as (d3 & L3 & W3 & T3).
      rewrite E3 in *. simpl in L3. simpl.
      rewrite L3, existsb_app, T3, orb_false_r.
      intros Hseen. destruct (Hloop Hseen) as [_ Hno].
      split; [reflexivity|].
      rewrite after_first_app, Hseen, existsb_app, Hno, W3. reflexivity.
    + simpl. intros Hseen. destruct (Hloop Hseen) as [Hf _]. discriminate Hf.
    + simpl. intros Hseen. destruct (Hloop Hseen) as [Hf _]. discriminate Hf.
  - assert (Hm : log (snd (main argv e w)) = log w1).
    { unfold main. rewrite Hc. unfold bind at 1. rewrite Es. reflexivity. }
    rewrite Hm. congruence.
  - assert (Hm : log (snd (main argv e w)) = log w1).
    { unfold main. rewrite Hc. unfold bind at 1. rewrite Es. reflexivity. }
    rewrite Hm. congruence.
Qed.

Lemma first_terminating_byte_stops_loop_witness :
  fst (event_loop 4 3
         [WaitInput [SIGCHLD] [] (Ready [EpollEvent EPOLLIN 5]);
          WaitInput [SIGHUP; SIGTERM; SIGCHLD] [] (Ready [EpollEvent EPOLLIN 5]);
          WaitInput [SIGINT] [7] (Ready [EpollEvent EPOLLIN 5; EpollEvent EPOLLIN 3])]
         false (running_world 64)) = Ret true /\
  fst (main ["server"; "127.0.0.1"; "18812"]%string
         (quiet_env
            [WaitInput [SIGCHLD] [] (Ready [EpollEvent EPOLLIN 5]);
             WaitInput [SIGHUP; SIGTERM; SIGCHLD] [] (Ready [EpollEvent EPOLLIN 5]);
             WaitInput [SIGINT] [7] (Ready [EpollEvent EPOLLIN 5; EpollEvent EPOLLIN 3])])
         (boot 64)) = Ret 0.
Proof.
  destruct (first_terminating_byte_stops_loop 4 3
              [WaitInput [SIGCHLD] [] (Ready [EpollEvent EPOLLIN 5]);
               WaitInput [SIGHUP; SIGTERM; SIGCHLD] [] (Ready [EpollEvent EPOLLIN 5]);
               WaitInput [SIGINT] [7] (Ready [EpollEvent EPOLLIN 5; EpollEvent EPOLLIN 3])]
              (running_world 64)
              ["server"; "127.0.0.1"; "18812"]%string
              (quiet_env
                 [WaitInput [SIGCHLD] [] (Ready [EpollEvent EPOLLIN 5]);
                  WaitInput [SIGHUP; SIGTERM; SIGCHLD] [] (Ready [EpollEvent EPOLLIN 5]);
                  WaitInput [SIGINT] [7]
                    (Ready [EpollEvent EPOLLIN 5; EpollEvent EPOLLIN 3])])
              (boot 64)) as [Hloop Hmain].
  - vm_compute. reflexivity.
  - vm_compute. reflexivity.
  - vm_compute. reflexivity.
  - split.
    + apply Hloop. vm_compute. reflexivity.
    + apply Hmain. vm_compute. reflexivity.
Defined.

(** ** Further properties of the server *)

(** X1. [addsig] never comes back without the handler in place: for a
    signal that can be caught (the four of [main] among them) it returns
    with the handler installed; for any other number (SIGKILL, SIGSTOP, the
    two the C library reserves, anything out of range) [sigaction] fails
    and the assertion aborts the process, with the dispositions
    untouched. *)
Theorem addsig_installs_or_aborts sig w :
  (if catchable sig
   then fst (addsig sig w) = Ret tt /\
        handlers (snd (addsig sig w)) = sig :: handlers w /\
        handled (snd (addsig sig w)) sig = true /\
        stderr (snd (addsig sig w)) = stderr w
   else fst (addsig sig w) = Abort /\
        handlers (snd (addsig sig w)) = handlers w /\
        errno (snd (addsig sig w)) = EINVAL /\
        stderr (snd (addsig sig w)) <> stderr w) /\
  catchable SIGHUP && catchable SIGCHLD && catchable SIGTERM && catchable SIGINT = true /\
  catchable SIGKILL || catchable SIGSTOP || catchable 32 || catchable 33
  || catchable 0 || catchable (NSIG + 1) = false /\
  (catchable sig = true <->
   1 <= sig <= NSIG /\ sig <> SIGKILL /\ sig <> SIGSTOP /\ sig <> 32 /\ sig <> 33).
Proof.
  split; [|split; [reflexivity|split; [reflexivity|]]].
  - destruct (catchable sig) eqn:Hc.
    + rewrite (addsig_effect sig w Hc). simpl. unfold handled. simpl.
      rewrite Z.eqb_refl. repeat split; reflexivity.
    + unfold addsig, bind, sigaction, fail, assert. rewrite Hc. simpl.
      repeat split; try reflexivity.
      intros H. apply (f_equal (@length string)) in H. rewrite length_app in H.
      simpl in H. lia.
  - unfold catchable.
    rewrite !andb_true_iff, !negb_true_iff, !Z.eqb_neq, !Z.leb_le. tauto.
Qed.

(** X2. The exit status of [main]: whenever [main] returns, it returns 1
    if fewer than two arguments were given and 0 otherwise.  In the first
    case it has issued no system call and opened nothing: it only printed
    the usage line. *)
Theorem main_exit_status argv e w c :
  fst (main argv e w) = Ret c ->
  c = (if too_few argv then 1 else 0) /\
  (too_few argv = true ->
   log (snd (main argv e w)) = log w /\ fdtab (snd (main argv e w)) = fdtab w /\
   stdout (snd (main argv e w))
   = stdout w ++ ["usage: " +:+ basename (hd EmptyString argv)
                    +:+ " ip_address por_number" +:+ nl]).
Proof.
  unfold too_few. destruct (Z.of_nat (length argv) <=? 2) eqn:Hc.
  - assert (Hm : main argv e w
                 = (Ret 1, set_stdout (stdout w ++ ["usage: " +:+ basename (hd EmptyString argv)
                                                       +:+ " ip_address por_number" +:+ nl]) w)).
    { unfold main. rewrite Hc. reflexivity. }
    rewrite Hm. simpl. intros H. inversion H. split; [reflexivity|].
    intros _. repeat split; reflexivity.
  - assert (Hm : main argv e w
                 = (fds <-- setup e;;
                    let '(epollfd, listenfd) := fds in
                    _stop <-- event_loop epollfd listenfd (e_waits e) false;;
                    teardown listenfd) w).
    { unfold main. rewrite Hc. reflexivity. }
    rewrite Hm. unfold bind.
    destruct (setup e w) as [[[epfd lfd]| |] w1]; [|discriminate|discriminate].
    destruct (event_loop epfd lfd (e_waits e) false w1) as [[s| |] w2];
      [|discriminate|discriminate].
    destruct (teardown_effect lfd w2) as (w3 & E3 & _). rewrite E3. simpl.
    intros H. inversion H. split; [reflexivity|discriminate].
Qed.

Lemma main_exit_status_witness :
  1 = (if too_few ["server"]%string then 1 else 0) /\
  0 = (if too_few ["server"; "127.0.0.1"; "18812"]%string then 1 else 0).
Proof.
  split.
  - exact (proj1 (main_exit_status ["server"]%string (quiet_env []) (boot 64) 1 eq_refl)).
  - refine (proj1 (main_exit_status ["server"; "127.0.0.1"; "18812"]%string
                     (quiet_env [WaitInput [SIGINT] [] (Ready [EpollEvent EPOLLIN 5])])
                     (boot 64) 0 _)).
    vm_compute. reflexivity.
Defined.

Lemma setup_from_listen_inv e listenfd w fds w1 :
  setup_from_listen e listenfd w = (Ret fds, w1) ->
  (exists lr, e_listen e = Success lr /\ lr <> -1) /\
  (exists epfd, e_epoll_create e = Success epfd /\ epfd <> -1 /\ fds = (epfd, listenfd)) /\
  (exists a b, e_socketpair e = PairOk a b /\ pipefd0 w1 = a /\ pipefd1 w1 = b).
Proof.
  intros H.
  destruct (e_listen e) as [lr|el] eqn:Hl.
  2: { exfalso. revert H. unfold setup_from_listen.
       unfold bind at 1. unfold env_call at 1. rewrite Hl. unfold fail at 1.
       unfold bind at 1. unfold assert at 1. simpl negb. cbv beta iota. discriminate. }
  destruct (Z.eqb_spec lr (-1)) as [->|Hlr].
  { exfalso. revert H. unfold setup_from_listen.
    unfold bind at 1. unfold env_call at 1. rewrite Hl. unfold succeed at 1.
    unfold bind at 1. unfold assert at 1. simpl negb. cbv beta iota. discriminate. }
  destruct (e_epoll_create e) as [epfd|ee] eqn:He.
  2: { exfalso. revert H. unfold setup_from_listen.
       unfold bind at 1. unfold env_call at 1. rewrite Hl. unfold succeed at 1.
       unfold bind at 1. unfold assert at 1.
       apply Z.eqb_neq in Hlr. rewrite Hlr. simpl negb. cbv beta iota.
       unfold bind at 1. unfold new_fd at 1. rewrite He. unfold fail at 1.
       unfold bind at 1. unfold assert at 1. simpl negb. cbv beta iota. discriminate. }
  destruct (Z.eqb_spec epfd (-1)) as [->|Hepfd].
  { exfalso. revert H. unfold setup_from_listen.
    unfold bind at 1. unfold env_call at 1. rewrite Hl. unfold succeed at 1.
    unfold bind at 1. unfold assert at 1.
    apply Z.eqb_neq in Hlr. rewrite Hlr. simpl negb. cbv beta iota.
    unfold bind at 1. unfold new_fd at 1. rewrite He. unfold succeed at 1.
    unfold bind at 1. unfold assert at 1. simpl negb. cbv beta iota. discriminate. }
  destruct (e_socketpair e) as [a b|ep] eqn:Hp.
  2: { exfalso. revert H. unfold setup_from_listen.
       unfold bind at 1. unfold env_call at 1. rewrite Hl. unfold succeed at 1.
       unfold bind at 1. unfold assert at 1.
       apply Z.eqb_neq in Hlr. rewrite Hlr. simpl negb. cbv beta iota.
       unfold bind at 1. unfold new_fd at 1. rewrite He. unfold succeed at 1.
       unfold bind at 1. unfold assert at 1.
       apply Z.eqb_neq in Hepfd. rewrite Hepfd. simpl negb. cbv beta iota.
       set (w2 := record (CEpollCreate epfd) _).
       destruct (addfd_effect epfd listenfd w2) as (q & q1 & qa & q2 & w3 & E3 & _).
       unfold bind at 1. rewrite E3.
       unfold bind at 1. unfold socketpair at 1. rewrite Hp. unfold fail at 1.
       unfold bind at 1. unfold assert at 1. simpl negb. cbv beta iota. discriminate. }
  destruct (setup_from_listen_ok e listenfd lr epfd a b w Hl Hlr He Hepfd Hp)
    as (d & w1' & E & _ & P0 & P1 & _).
  rewrite E in H. inversion H; subst fds w1'.
  split; [exists lr; split; [reflexivity|exact Hlr]|].
  split; [exists epfd; repeat split; assumption|].
  exists a, b. repeat split; assumption.
Qed.

Lemma setup_inv e w epfd listenfd w1 :
  setup e w = (Ret (epfd, listenfd), w1) -> setup_succeeded e epfd listenfd.
Proof.
  rewrite setup_split.
  unfold bind at 1. unfold new_fd at 1.
  destruct (e_socket e) as [lfd|es] eqn:Hs.
  2: { unfold fail at 1. unfold bind at 1. unfold assert at 1.
       change (0 <=? -1) with false. cbv beta iota. discriminate. }
  unfold succeed at 1. unfold bind at 1. unfold assert at 1.
  destruct (Z.leb_spec 0 lfd) as [Hpos|_]; [|cbv beta iota; discriminate].
  cbv beta iota. unfold bind at 1. unfold env_call at 1.
  assert (Hgo : forall wb,
            setup_from_listen e lfd wb = (Ret (epfd, listenfd), w1) ->
            setup_succeeded e epfd listenfd).
  { intros wb Hb.
    destruct (setup_from_listen_inv e lfd wb _ w1 Hb)
      as (Hl & (ep & He & Hne & Hfd) & (a & b & Hp & _)).
    inversion Hfd; subst ep lfd.
    unfold setup_succeeded. rewrite Hs.
    repeat split; try assumption. exists a, b. exact Hp. }
  destruct (e_bind e) as [v|eb].
  - unfold succeed at 1. destruct (v =? -1).
    + unfold bind at 1 2. unfold get_errno, printf. cbv beta iota. apply Hgo.
    + unfold bind at 1. unfold ret at 1. cbv beta iota. apply Hgo.
  - unfold fail at 1. change (-1 =? -1) with true. cbv beta iota.
    unfold bind at 1 2. unfold get_errno, printf. cbv beta iota. apply Hgo.
Qed.

(** X3. The event loop is entered only after a complete setup: if a run
    of [main] has issued an [epoll_wait], then both arguments were given
    and [socket], [listen], [epoll_create] and [socketpair] all succeeded
    ([bind] is not among them).  A failure of any of the four ends the
    process before the first wait. *)
Theorem loop_runs_only_after_full_setup argv e w :
  existsb is_wait (log w) = false ->
  existsb is_wait (log (snd (main argv e w))) = true ->
  too_few argv = false /\
  (exists epfd listenfd, setup_succeeded e epfd listenfd) /\
  e_waits e <> [].
Proof.
  intros Hclean. unfold too_few.
  destruct (Z.of_nat (length argv) <=? 2) eqn:Hc.
  { assert (Hm : log (snd (main argv e w)) = log w)
      by (unfold main; rewrite Hc; reflexivity).
    rewrite Hm. congruence. }
  destruct (quiet_setup e w) as (d & L & W & _).
  destruct (setup e w) as [[[epfd lfd]| |] w1] eqn:Es; simpl in L.
  - intros Hseen. split; [reflexivity|]. split.
    + exists epfd, lfd. exact (setup_inv e w epfd lfd w1 Es).
    + intros Hnil. revert Hseen.
      assert (Hm : log (snd (main argv e w)) = log w1).
      { unfold main. rewrite Hc. unfold bind at 1. rewrite Es, Hnil. reflexivity. }
      rewrite Hm, L, existsb_app, Hclean, W. discriminate.
  - assert (Hm : log (snd (main argv e w)) = log w1)
      by (unfold main; rewrite Hc; unfold bind at 1; rewrite Es; reflexivity).
    rewrite Hm, L, existsb_app, Hclean, W. discriminate.
  - assert (Hm : log (snd (main argv e w)) = log w1)
      by (unfold main; rewrite Hc; unfold bind at 1; rewrite Es; reflexivity).
    rewrite Hm, L, existsb_app, Hclean, W. discriminate.
Qed.

Lemma loop_runs_only_after_full_setup_witness :
  exists epfd listenfd,
    setup_succeeded (quiet_env [WaitInput [SIGINT] [] (Ready [EpollEvent EPOLLIN 5])])
      epfd listenfd.
Proof.
  destruct (loop_runs_only_after_full_setup ["server"; "127.0.0.1"; "18812"]%string
              (quiet_env [WaitInput [SIGINT] [] (Ready [EpollEvent EPOLLIN 5])])
              (boot 64)) as (_ & H & _).
  - reflexivity.
  - vm_compute. reflexivity.
  - exact H.
Defined.

Lemma close_spec fd w :
  exists r w1,
    close fd w = (Ret r, w1) /\
    fd_flags w1 fd = None /\
    (forall fd', fd' <> fd -> fd_flags w1 fd' = fd_flags w fd' /\
                              interest w1 !! fd' = interest w !! fd') /\
    (forall fd', fd_flags w fd' = None -> fd_flags w1 fd' = None) /\
    pipefd0 w1 = pipefd0 w /\ pipefd1 w1 = pipefd1 w /\
    bridge w1 = bridge w /\ backlog w1 = backlog w /\ handlers w1 = handlers w /\
    log w1 = log w ++ [CClose fd].
Proof.
  unfold close. destruct (fd_flags w fd) as [fl|] eqn:Hfd.
  - do 2 eexists. split; [reflexivity|]. simpl.
    split. { unfold fd_flags. simpl. destruct (fd <? 0); [reflexivity|]. apply lookup_delete_eq. }
    split. { intros fd' Hne. unfold fd_flags. simpl.
             rewrite !lookup_delete_ne by congruence. split; reflexivity. }
    split. { intros fd' Hn. unfold fd_flags in *. simpl. destruct (fd' <? 0); [reflexivity|].
             destruct (decide (fd = fd')) as [->|Hne];
               [apply lookup_delete_eq|rewrite lookup_delete_ne by exact Hne; exact Hn]. }
    repeat split; reflexivity.
  - do 2 eexists. split; [reflexivity|]. simpl.
    split; [exact Hfd|]. split; [intros; split; reflexivity|].
    split; [intros fd' Hn; exact Hn|]. repeat split; reflexivity.
Qed.

(** X4. The teardown closes the listening socket and the two ends of the
    signal pipe and nothing else: afterwards these three are not open, and
    every other descriptor, the epoll instance and the accepted
    connections included, is as it was (open, with the same flags and the
    same registration).  The signal dispositions stay installed. *)
Theorem teardown_closes_three_descriptors listenfd w :
  exists w1,
    teardown listenfd w = (Ret 0, w1) /\
    fd_flags w1 listenfd = None /\
    fd_flags w1 (pipefd1 w) = None /\
    fd_flags w1 (pipefd0 w) = None /\
    (forall fd, fd <> listenfd -> fd <> pipefd1 w -> fd <> pipefd0 w ->
                fd_flags w1 fd = fd_flags w fd /\ interest w1 !! fd = interest w !! fd) /\
    handlers w1 = handlers w /\
    log w1 = log w ++ [CClose listenfd; CClose (pipefd1 w); CClose (pipefd0 w)].
Proof.
  unfold teardown, bind, printf, get_pipefd1, get_pipefd0.
  set (wa := set_stdout _ w).
  destruct (close_spec listenfd wa)
    as (r1 & w1 & E1 & N1 & O1 & K1 & P10 & P11 & _ & _ & H1 & L1). rewrite E1.
  destruct (close_spec (pipefd1 w1) w1)
    as (r2 & w2 & E2 & N2 & O2 & K2 & P20 & P21 & _ & _ & H2 & L2). rewrite E2.
  destruct (close_spec (pipefd0 w2) w2)
    as (r3 & w3 & E3 & N3 & O3 & K3 & P30 & P31 & _ & _ & H3 & L3). rewrite E3.
  assert (Q1 : pipefd1 w1 = pipefd1 w) by (rewrite P11; reflexivity).
  assert (Q0 : pipefd0 w2 = pipefd0 w) by (rewrite P20, P10; reflexivity).
  rewrite Q1 in *. rewrite Q0 in *.
  exists w3. split; [reflexivity|].
  split. { apply K3, K2, N1. }
  split. { apply K3, N2. }
  split. { exact N3. }
  split.
  { intros fd Hl H1' H0'.
    destruct (O3 fd H0') as [A3 B3]. destruct (O2 fd H1') as [A2 B2].
    destruct (O1 fd Hl) as [A1 B1].
    split; [rewrite A3, A2, A1|rewrite B3, B2, B1]; reflexivity. }
  split. { rewrite H3, H2, H1. reflexivity. }
  rewrite L3, L2, L1. simpl. rewrite <- !app_assoc. reflexivity.
Qed.

(** ** Signals on their way through the pipe *)

Lemma sig_handler_room sig w :
  fd_flags w (pipefd1 w) <> None ->
  (length (bridge w) + 1 <= bridge_cap w)%nat ->
  sig_handler sig w
  = (Ret tt, record (CSend (pipefd1 w) [signal_byte sig] 0 1)
               (set_bridge (bridge w ++ [signal_byte sig]) w)).
Proof.
  intros Hopen Hroom.
  unfold sig_handler, bind, get_errno, get_pipefd1, put_errno. rewrite low_byte.
  unfold send, succeed. destruct (fd_flags w (pipefd1 w)); [|contradiction].
  assert (H : (length (bridge w) + length [Z.land sig 255] <=? bridge_cap w)%nat = true)
    by (apply Nat.leb_le; simpl; lia).
  rewrite H. reflexivity.
Qed.

Lemma sig_handler_full sig w :
  unblocked w (pipefd1 w) = true ->
  (bridge_cap w <= length (bridge w))%nat ->
  sig_handler sig w
  = (Ret tt, record (CSend (pipefd1 w) [signal_byte sig] 0 (-1)) (set_bridge (bridge w) w)).
Proof.
  intros Hu Hfull.
  destruct (sig_handler_effect sig w Hu) as (r & q & E & [(_ & _ & Hroom & _)|(-> & ->)]).
  - lia.
  - exact E.
Qed.

(** Handler runs while the pipe has room. *)
Lemma deliver_with_room sigs :
  forall w,
    fd_flags w (pipefd1 w) <> None ->
    forallb (handled w) sigs = true ->
    (length (bridge w) + length sigs <= bridge_cap w)%nat ->
    exists w1,
      deliver sigs w = (Ret tt, w1) /\
      bridge w1 = bridge w ++ map signal_byte sigs /\
      errno w1 = errno w /\ fdtab w1 = fdtab w /\ interest w1 = interest w /\
      backlog w1 = backlog w /\
      pipefd0 w1 = pipefd0 w /\ pipefd1 w1 = pipefd1 w /\
      count is_send (log w1) = (count is_send (log w) + length sigs)%nat.
Proof.
  induction sigs as [|s sigs IH]; intros w Hopen Hh Hroom.
  - exists w. simpl. rewrite app_nil_r, Nat.add_0_r. repeat split; reflexivity.
  - simpl in Hh, Hroom. apply andb_true_iff in Hh as [Hs Hh].
    simpl. unfold bind. unfold handled in Hs. rewrite Hs.
    rewrite (sig_handler_room s w Hopen) by lia.
    set (w0 := record _ _).
    destruct (IH w0) as (w1 & E & B & N & T & I & K & P0 & P1 & C).
    + exact Hopen.
    + exact Hh.
    + unfold w0. simpl. rewrite length_app. simpl. lia.
    + exists w1. split; [exact E|]. rewrite B, N, T, I, K, P0, P1, C.
      unfold w0. simpl. rewrite <- app_assoc, count_app. simpl.
      repeat split; try reflexivity.
      change (count is_send [CSend (pipefd1 w) [signal_byte s] 0 1]) with 1%nat. lia.
Qed.


(** X5. Signals delivered while the pipe has room are queued in the order
    of delivery, one byte each (the low byte of the signal number), after
    what was already queued, and the next read of the loop gets them back
    in that order (the first 1024 queued bytes); [errno] and the
    descriptors are as before.  This needs the pipe open and the handler
    installed for each signal, not the nonblocking mode. *)
Theorem delivered_signals_queue_in_order sigs w :
  fd_flags w (pipefd1 w) <> None ->
  fd_flags w (pipefd0 w) <> None ->
  forallb (handled w) sigs = true ->
  (length (bridge w) + length sigs <= bridge_cap w)%nat ->
  bridge w ++ map signal_byte sigs <> [] ->
  exists w1 w2,
    deliver sigs w = (Ret tt, w1) /\
    bridge w1 = bridge w ++ map signal_byte sigs /\
    errno w1 = errno w /\ fdtab w1 = fdtab w /\ interest w1 = interest w /\
    recv (pipefd0 w1) 1024 w1
    = (Ret (Z.of_nat (length (firstn 1024 (bridge w ++ map signal_byte sigs))),
            firstn 1024 (bridge w ++ map signal_byte sigs)), w2) /\
    bridge w2 = skipn 1024 (bridge w ++ map signal_byte sigs).
Proof.
  intros Hw Hr Hh Hroom Hne.
  destruct (deliver_with_room sigs w Hw Hh Hroom)
    as (w1 & E & B & N & T & I & _ & P0 & _).
  exists w1, (snd (recv (pipefd0 w1) 1024 w1)).
  split; [exact E|]. split; [exact B|].
  split; [exact N|]. split; [exact T|]. split; [exact I|].
  unfold recv. rewrite P0.
  assert (Hfl : fd_flags w1 (pipefd0 w) = fd_flags w (pipefd0 w))
    by (unfold fd_flags; rewrite T; reflexivity).
  rewrite Hfl. destruct (fd_flags w (pipefd0 w)) as [fl|]; [|contradiction].
  rewrite B. destruct (bridge w ++ map signal_byte sigs) as [|b q]; [contradiction|].
  split; reflexivity.
Qed.

Lemma delivered_signals_queue_in_order_witness :
  exists w1,
    deliver [SIGCHLD; SIGTERM; SIGHUP] (running_world 64) = (Ret tt, w1) /\
    bridge w1 = [17; 15; 1].
Proof.
  destruct (delivered_signals_queue_in_order [SIGCHLD; SIGTERM; SIGHUP] (running_world 64))
    as (w1 & w2 & E & B & _).
  - vm_compute. discriminate.
  - vm_compute. discriminate.
  - vm_compute. reflexivity.
  - apply Nat.leb_le. vm_compute. reflexivity.
  - vm_compute. discriminate.
  - exists w1. split; [exact E|]. rewrite B. vm_compute. reflexivity.
Defined.

(** X6. Signals delivered while the pipe is full are lost: with the write
    end nonblocking every handler run returns at once ([send] fails with
    [EAGAIN], which the handler ignores and does not retry), the queue and
    [errno] are unchanged.  The same holds for any number of signals. *)
Theorem signals_lost_when_pipe_full sigs :
  forall w,
    unblocked w (pipefd1 w) = true ->
    (bridge_cap w <= length (bridge w))%nat ->
    exists w1,
      deliver sigs w = (Ret tt, w1) /\
      bridge w1 = bridge w /\ errno w1 = errno w /\
      count is_send (log w1)
      = (count is_send (log w) + length (List.filter (handled w) sigs))%nat.
Proof.
  induction sigs as [|s sigs IH]; intros w Hu Hfull.
  - exists w. simpl. rewrite Nat.add_0_r. repeat split; reflexivity.
  - simpl. unfold bind. fold (handled w s). destruct (handled w s) eqn:Hs.
    + rewrite (sig_handler_full s w Hu Hfull).
      set (w0 := record _ _).
      destruct (IH w0) as (w1 & E & B & N & C).
      * rewrite (unblocked_ext w w0) by reflexivity. exact Hu.
      * exact Hfull.
      * exists w1. split; [exact E|]. rewrite B, N, C. unfold w0. simpl.
        rewrite count_app.
        change (count is_send [CSend (pipefd1 w) [signal_byte s] 0 (-1)]) with 1%nat.
        change (handled (record (CSend (pipefd1 w) [signal_byte s] 0 (-1))
                           (set_bridge (bridge w) w)))
          with (handled w).
        repeat split; try reflexivity. lia.
    + destruct (IH w Hu Hfull) as (w1 & E & R). exists w1. split; [exact E|exact R].
Qed.

Lemma signals_lost_when_pipe_full_witness :
  exists w1,
    deliver [SIGTERM; SIGINT] (set_bridge (repeat 17 64) (running_world 64)) = (Ret tt, w1) /\
    bridge w1 = repeat 17 64.
Proof.
  destruct (signals_lost_when_pipe_full [SIGTERM; SIGINT]
              (set_bridge (repeat 17 64) (running_world 64))) as (w1 & E & B & _).
  - vm_compute. reflexivity.
  - apply Nat.leb_le. vm_compute. reflexivity.
  - exists w1. split; [exact E|exact B].
Defined.

Lemma char_of_signal_byte s : small_signal s = true -> char_of_byte (signal_byte s) = s.
Proof.
  unfold small_signal, signal_byte, char_of_byte. intros H.
  apply andb_true_iff in H as [H0 H1]. apply Z.leb_le in H0. apply Z.ltb_lt in H1.
  change 255 with (Z.ones 8). rewrite Z.land_ones by lia.
  rewrite Z.mod_small by lia. apply Z.ltb_lt in H1. rewrite H1. reflexivity.
Qed.

Lemma terminating_among_bytes sigs :
  forallb small_signal sigs = true ->
  existsb (fun b => is_terminating (char_of_byte b)) (map signal_byte sigs)
  = existsb is_terminating sigs.
Proof.
  induction sigs as [|s sigs IH]; simpl; [reflexivity|].
  intros H. apply andb_true_iff in H as [Hs H].
  rewrite (char_of_signal_byte s Hs), (IH H). reflexivity.
Qed.

Lemma deliver_with_room_log sigs :
  forall w,
    fd_flags w (pipefd1 w) <> None ->
    forallb (handled w) sigs = true ->
    (length (bridge w) + length sigs <= bridge_cap w)%nat ->
    log (snd (deliver sigs w))
    = log w ++ map (fun s => CSend (pipefd1 w) [signal_byte s] 0 1) sigs.
Proof.
  induction sigs as [|s sigs IH]; intros w Hopen Hh Hroom.
  - simpl. rewrite app_nil_r. reflexivity.
  - simpl in Hh, Hroom. apply andb_true_iff in Hh as [Hs Hh].
    simpl. unfold bind. unfold handled in Hs. rewrite Hs.
    rewrite (sig_handler_room s w Hopen) by lia.
    set (w0 := record _ _).
    rewrite (IH w0).
    + unfold w0. simpl. rewrite <- app_assoc. reflexivity.
    + exact Hopen.
    + exact Hh.
    + unfold w0. simpl. rewrite length_app. simpl. lia.
Qed.

(** X7. From delivery to the flag.  The pipe is empty, signals (handled
    ones, at most 1024 and no more than the pipe buffers) arrive while the
    loop is suspended in [epoll_wait], and the wait reports the read end
    readable.  Then the calls of this pass are: one [send] per signal (by
    the handler, in order), the [epoll_wait], and one [recv] that returns
    all the bytes; the pipe is empty afterwards, and the loop is left (flag
    true) exactly when SIGTERM or SIGINT was among the signals: otherwise
    it goes on to the next wait, and is suspended there when nothing more
    comes. *)
Theorem delivered_signals_decide_the_pass epfd listenfd i ins w :
  loop_ready listenfd w = true ->
  fd_flags w (pipefd1 w) <> None ->
  fd_flags w (pipefd0 w) <> None ->
  pipefd0 w <> listenfd ->
  bridge w = [] ->
  forallb (handled w) (delivered i) = true ->
  forallb small_signal (delivered i) = true ->
  (length (delivered i) <= bridge_cap w)%nat ->
  (length (delivered i) <= 1024)%nat ->
  reported i = Ready [EpollEvent EPOLLIN (pipefd0 w)] ->
  exists wA w2,
    await epfd i w = (Ret (1, [EpollEvent EPOLLIN (pipefd0 w)]), wA) /\
    bridge wA = map signal_byte (delivered i) /\
    for_events epfd listenfd [EpollEvent EPOLLIN (pipefd0 w)] false wA
    = (Ret (existsb is_terminating (delivered i)), w2) /\
    bridge w2 = [] /\
    log w2
    = log w ++ map (fun s => CSend (pipefd1 w) [signal_byte s] 0 1) (delivered i)
        ++ [CEpollWait epfd 1;
            CRecv (pipefd0 w) 1024 (map signal_byte (delivered i))
              (match delivered i with
               | [] => -1
               | _ :: _ => Z.of_nat (length (delivered i))
               end)] /\
    event_loop epfd listenfd (i :: ins) false w
    = (if existsb is_terminating (delivered i) then (Ret true, w2)
       else event_loop epfd listenfd ins false w2) /\
    event_loop epfd listenfd [i] false w
    = (if existsb is_terminating (delivered i) then Ret true else Block, w2).
Proof.
  intros Hready Hw Hr Hne Hempty Hh Hsmall Hcap Hbuf Hrep.
  assert (Hroom : (length (bridge w) + length (delivered i) <= bridge_cap w)%nat)
    by (rewrite Hempty; simpl; exact Hcap).
  destruct (deliver_with_room (delivered i) w Hw Hh Hroom)
    as (w1 & Ed & B1 & N1 & T1 & _ & _ & P0 & P1 & _).
  pose proof (deliver_with_room_log (delivered i) w Hw Hh Hroom) as L1.
  rewrite Ed in L1. simpl in L1.
  rewrite Hempty in B1. simpl in B1.
  set (wA := record (CEpollWait epfd 1) (set_backlog (backlog w1 ++ arrived i) w1)).
  assert (Ea : await epfd i w = (Ret (1, [EpollEvent EPOLLIN (pipefd0 w)]), wA)).
  { unfold await, bind. rewrite Ed. unfold arrive, epoll_wait. rewrite Hrep. reflexivity. }
  assert (PA : pipefd0 wA = pipefd0 w) by exact P0.
  assert (BA : bridge wA = map signal_byte (delivered i)) by exact B1.
  assert (LA : log wA = log w ++ map (fun s => CSend (pipefd1 w) [signal_byte s] 0 1)
                                     (delivered i) ++ [CEpollWait epfd 1]).
  { unfold wA. simpl. rewrite L1, <- app_assoc. reflexivity. }
  assert (Hev : bridge_event listenfd (pipefd0 wA) (EpollEvent EPOLLIN (pipefd0 w)) = true).
  { unfold bridge_event. simpl. rewrite P0, Z.eqb_refl.
    apply Z.eqb_neq in Hne. rewrite Hne. reflexivity. }
  assert (HuA : unblocked wA (pipefd0 wA) = true).
  { unfold loop_ready in Hready. apply andb_true_iff in Hready as [Hready _].
    apply andb_true_iff in Hready as [_ H0].
    rewrite PA. rewrite (unblocked_ext w wA) by exact T1. exact H0. }
  destruct (on_event_bridge epfd listenfd (EpollEvent EPOLLIN (pipefd0 w)) false wA Hev HuA)
    as (n & data & w2 & _ & E & F & _ & _ & _ & Hcase).
  destruct F as (_ & _ & _ & _ & _ & _ & L2). rewrite PA in L2.
  assert (Hfor : for_events epfd listenfd [EpollEvent EPOLLIN (pipefd0 w)] false wA
                 = (Ret (existsb is_terminating (delivered i)), w2) /\ bridge w2 = [] /\
                 data = map signal_byte (delivered i) /\
                 n = match delivered i with
                     | [] => -1
                     | _ :: _ => Z.of_nat (length (delivered i))
                     end).
  { simpl. unfold bind. rewrite E. simpl.
    destruct Hcase as [(Hn1 & -> & Hb & [Hn|Hn])|(Hn1 & -> & Hb & Hq & _)].
    - exfalso. apply Hr. rewrite <- PA. unfold fd_flags in *. simpl in Hn.
      rewrite T1 in Hn. exact Hn.
    - rewrite BA in Hn. destruct (delivered i); [|discriminate Hn].
      split; [reflexivity|]. split; [rewrite Hb, BA; reflexivity|].
      split; [reflexivity|exact Hn1].
    - rewrite BA, firstn_all2 by (rewrite length_map; exact Hbuf).
      rewrite (terminating_among_bytes _ Hsmall). split; [reflexivity|].
      split. { rewrite Hb, BA. apply skipn_all2. rewrite length_map. exact Hbuf. }
      split; [reflexivity|].
      rewrite Hn1, BA, firstn_all2, length_map by (rewrite length_map; exact Hbuf).
      rewrite BA in Hq. destruct (delivered i); [contradiction|reflexivity]. }
  destruct Hfor as (Ef & Hb2 & Hd & Hn).
  exists wA, w2. split; [exact Ea|]. split; [exact BA|]. split; [exact Ef|].
  split; [exact Hb2|].
  split. { rewrite L2, LA, Hd, Hn, <- !app_assoc. reflexivity. }
  assert (Hstep : forall rest,
            event_loop epfd listenfd (i :: rest) false w
            = (stop <-- for_events epfd listenfd [EpollEvent EPOLLIN (pipefd0 w)] false;;
               event_loop epfd listenfd rest stop) wA).
  { intros rest. rewrite (event_loop_unfold epfd listenfd i rest w _ _ wA Ea). reflexivity. }
  split.
  - rewrite Hstep. unfold bind. rewrite Ef.
    destruct (existsb is_terminating (delivered i)); [apply event_loop_stopped|reflexivity].
  - rewrite Hstep. unfold bind. rewrite Ef.
    destruct (existsb is_terminating (delivered i)); reflexivity.
Qed.

Lemma delivered_signals_decide_the_pass_witness :
  (exists w2,
     bridge w2 = [] /\
     event_loop 4 3 [WaitInput [SIGCHLD; SIGINT] [] (Ready [EpollEvent EPOLLIN 5])] false
       (running_world 64) = (Ret true, w2)) /\
  (exists w2,
     event_loop 4 3 [WaitInput [SIGCHLD; SIGHUP] [] (Ready [EpollEvent EPOLLIN 5])] false
       (running_world 64) = (Block, w2) /\
     count is_recv (log w2) = 1%nat).
Proof.
  split.
  - destruct (delivered_signals_decide_the_pass 4 3
                (WaitInput [SIGCHLD; SIGINT] [] (Ready [EpollEvent EPOLLIN 5])) []
                (running_world 64)) as (wA & w2 & _ & _ & _ & Hb & _ & _ & E).
    + vm_compute. reflexivity.
    + vm_compute. discriminate.
    + vm_compute. discriminate.
    + vm_compute. discriminate.
    + vm_compute. reflexivity.
    + vm_compute. reflexivity.
    + vm_compute. reflexivity.
    + apply Nat.leb_le. vm_compute. reflexivity.
    + apply Nat.leb_le. vm_compute. reflexivity.
    + vm_compute. reflexivity.
    + exists w2. split; [exact Hb|exact E].
  - destruct (delivered_signals_decide_the_pass 4 3
                (WaitInput [SIGCHLD; SIGHUP] [] (Ready [EpollEvent EPOLLIN 5])) []
                (running_world 64)) as (wA & w2 & _ & _ & _ & _ & L & _ & E).
    + vm_compute. reflexivity.
    + vm_compute. discriminate.
    + vm_compute. discriminate.
    + vm_compute. discriminate.
    + vm_compute. reflexivity.
    + vm_compute. reflexivity.
    + vm_compute. reflexivity.
    + apply Nat.leb_le. vm_compute. reflexivity.
    + apply Nat.leb_le. vm_compute. reflexivity.
    + vm_compute. reflexivity.
    + exists w2. split; [exact E|]. rewrite L. vm_compute. reflexivity.
Defined.

(** ** Registering twice *)

Lemma epoll_ctl_add_spec epfd fd ev w :
  exists w1,
    epoll_ctl_add epfd fd ev w
    = (Ret (if can_register w epfd fd then 0 else -1), w1) /\
    fdtab w1 = fdtab w /\
    interest w1
    = (if can_register w epfd fd then <[fd := ev]> (interest w) else interest w) /\
    log w1
    = log w ++ [CEpollCtlAdd epfd fd ev (if can_register w epfd fd then 0 else -1)].
Proof.
  unfold epoll_ctl_add, can_register, succeed, fail.
  destruct (fd_flags w epfd); [destruct (fd_flags w fd)|];
    [destruct (fd =? epfd); [|destruct (interest w !! fd)]| |];
    try destruct (interest w !! fd);
    eexists; (split; [reflexivity|]); simpl; repeat split; reflexivity.
Qed.

Lemma addfd_spec epfd fd w :
  exists r1 a r2 w1,
    addfd epfd fd w = (Ret tt, w1) /\
    interest w1
    = (if can_register w epfd fd
       then <[fd := Z.lor EPOLLIN EPOLLET]> (interest w) else interest w) /\
    (forall fd', fd' <> fd -> fd_flags w1 fd' = fd_flags w fd') /\
    (forall fl, fd_flags w fd = Some fl -> fd_flags w1 fd = Some (Z.lor fl O_NONBLOCK)) /\
    (fd_flags w fd = None -> fd_flags w1 fd = None) /\
    log w1
    = log w ++ [CEpollCtlAdd epfd fd (Z.lor EPOLLIN EPOLLET)
                  (if can_register w epfd fd then 0 else -1);
                CFcntlGet fd r1; CFcntlSet fd a r2].
Proof.
  destruct (epoll_ctl_add_spec epfd fd (Z.lor EPOLLIN EPOLLET) w) as (w0 & E0 & T0 & I0 & L0).
  destruct (setnonblocking_effect fd w0)
    as (r1 & a & r2 & w1 & E1 & F1 & I1 & _ & _ & _ & _ & S1 & O1 & C1).
  assert (Hfl : forall fd', fd_flags w0 fd' = fd_flags w fd').
  { intros fd'. unfold fd_flags. rewrite T0. reflexivity. }
  exists r1, a, r2, w1.
  split. { unfold addfd, bind. simpl. rewrite E0. exact E1. }
  split. { rewrite I1. exact I0. }
  split. { intros fd' Hne. rewrite S1 by exact Hne. apply Hfl. }
  split. { intros fl H. apply O1. rewrite Hfl. exact H. }
  split. { intros H. unfold fd_flags. rewrite C1 by (rewrite Hfl; exact H).
           rewrite <- Hfl in H. exact H. }
  destruct F1 as (_ & _ & _ & _ & _ & _ & L1). rewrite L1, L0, <- app_assoc. reflexivity.
Qed.





(** ** Why the loop ends *)

(** X9. The loop is left for two reasons only.  It never aborts; when it
    returns with [stop_server] true a terminating byte has been received,
    and when it returns with [stop_server] false one of the waits failed
    with an error other than [EINTR].  So with neither a terminating byte
    nor such a failure the loop is still suspended in a call after any
    number of passes (SIGCHLD and SIGHUP alone never end it). *)
Theorem loop_is_left_for_two_reasons epfd listenfd ins :
  forall w,
    loop_ready listenfd w = true ->
    existsb terminating_recv (log w) = false ->
    fst (event_loop epfd listenfd ins false w) <> Abort /\
    (fst (event_loop epfd listenfd ins false w) = Ret true ->
     existsb terminating_recv (log (snd (event_loop epfd listenfd ins false w))) = true) /\
    (fst (event_loop epfd listenfd ins false w) = Ret false ->
     existsb hard_failure ins = true) /\
    (existsb hard_failure ins = false ->
     existsb terminating_recv (log (snd (event_loop epfd listenfd ins false w))) = false ->
     fst (event_loop epfd listenfd ins false w) = Block).
Proof.
  induction ins as [|i ins IH]; intros w Hready Hclean.
  - simpl. repeat split; try discriminate. 
  - destruct (await_effect epfd listenfd i w Hready)
      as (n & evs & d0 & w1 & E1 & F1 & S1 & R1 & Hrep).
    rewrite (event_loop_unfold epfd listenfd i ins w n evs w1 E1).
    assert (Hclean1 : existsb terminating_recv (log w1) = false).
    { destruct F1 as (_ & _ & _ & _ & _ & _ & L). rewrite L, !existsb_app, Hclean.
      rewrite (sends_no_terminating d0 S1). reflexivity. }
    assert (Hhard : (n <? 0) && negb (errno w1 =? EINTR) = hard_failure i).
    { unfold hard_failure. destruct (reported i) as [evs0|e].
      - destruct Hrep as (_ & -> & _).
        assert (H : (Z.of_nat (length evs) <? 0) = false) by (apply Z.ltb_ge; lia).
        rewrite H. reflexivity.
      - destruct Hrep as (_ & -> & ->). reflexivity. }
    rewrite Hhard. simpl existsb.
    destruct (hard_failure i).
    + simpl. repeat split; try discriminate. 
    + simpl orb.
      destruct (for_events_effect epfd listenfd evs false w1 R1)
        as (s & d & w2 & E2 & F2 & R2 & S2 & _).
      unfold bind. rewrite E2.
      destruct F2 as (_ & _ & _ & _ & _ & _ & L2).
      destruct s.
      * rewrite event_loop_stopped. simpl.
        repeat split; try discriminate.
        -- intros _. rewrite L2, existsb_app, Hclean1, <- S2. reflexivity.
        -- intros _ H. rewrite L2, existsb_app, Hclean1, <- S2 in H. discriminate H.
      * apply IH; [exact R2|]. rewrite L2, existsb_app, Hclean1. simpl in *.
        symmetry. exact S2.
Qed.

Lemma loop_is_left_for_two_reasons_witness :
  fst (event_loop 4 3
         [WaitInput [SIGCHLD; SIGHUP] [] (Ready [EpollEvent EPOLLIN 5]);
          WaitInput [SIGCHLD] [] (WaitFailed EINTR);
          WaitInput [SIGHUP] [7] (Ready [EpollEvent EPOLLIN 3; EpollEvent EPOLLIN 5])]
         false (running_world 64)) = Block.
Proof.
  destruct (loop_is_left_for_two_reasons 4 3
              [WaitInput [SIGCHLD; SIGHUP] [] (Ready [EpollEvent EPOLLIN 5]);
               WaitInput [SIGCHLD] [] (WaitFailed EINTR);
               WaitInput [SIGHUP] [7] (Ready [EpollEvent EPOLLIN 3; EpollEvent EPOLLIN 5])]
              (running_world 64)) as (_ & _ & _ & H).
  - vm_compute. reflexivity.
  - vm_compute. reflexivity.
  - apply H; vm_compute; reflexivity.
Defined.

(** ** What the loop touches *)

Lemma grows_refl w : grows w w.
Proof. split; auto. Qed.

Lemma grows_trans w w1 w2 : grows w w1 -> grows w1 w2 -> grows w w2.
Proof. intros [A1 B1] [A2 B2]. split; auto. Qed.

Lemma grows_same w w1 : fdtab w1 = fdtab w -> interest w1 = interest w -> grows w w1.
Proof.
  intros T I. split.
  - intros fd. unfold fd_flags. rewrite T. auto.
  - intros fd m. rewrite I. auto.
Qed.

Lemma conduct_refl epfd listenfd w : conduct epfd listenfd w w.
Proof.
  unfold conduct. repeat split; try apply grows_refl.
  exists []. rewrite app_nil_r. split; reflexivity.
Qed.

Lemma conduct_trans epfd listenfd w w1 w2 :
  conduct epfd listenfd w w1 -> conduct epfd listenfd w1 w2 -> conduct epfd listenfd w w2.
Proof.
  intros (P0 & P1 & H1 & G1 & d1 & L1 & C1) (Q0 & Q1 & H2 & G2 & d2 & L2 & C2).
  rewrite P0, P1 in C2.
  unfold conduct. rewrite Q0, Q1, H2, P0, P1, H1.
  repeat split; try exact (proj1 (grows_trans _ _ _ G1 G2));
    try exact (proj2 (grows_trans _ _ _ G1 G2)).
  exists (d1 ++ d2). rewrite L2, L1, <- app_assoc, forallb_app, C1, C2. split; reflexivity.
Qed.

Lemma conduct_frame epfd listenfd w w1 d :
  frame w w1 d -> grows w w1 ->
  forallb (loop_call epfd listenfd (pipefd0 w) (pipefd1 w)) d = true ->
  conduct epfd listenfd w w1.
Proof.
  intros (P0 & P1 & H & _ & _ & _ & L) G C. unfold conduct.
  repeat split; try assumption; try exact (proj1 G); try exact (proj2 G).
  exists d. split; assumption.
Qed.

Lemma can_register_fresh w epfd fd :
  can_register w epfd fd = true -> interest w !! fd = None.
Proof.
  unfold can_register.
  destruct (fd_flags w epfd); [|discriminate].
  destruct (fd_flags w fd); [|discriminate].
  destruct (interest w !! fd); [discriminate|reflexivity].
Qed.

Lemma addfd_grows epfd fd w : grows w (snd (addfd epfd fd w)).
Proof.
  destruct (addfd_spec epfd fd w) as (r1 & a & r2 & w1 & E & I & S & O & _). rewrite E. simpl.
  split.
  - intros fd' H. destruct (decide (fd' = fd)) as [->|Hne].
    + destruct (fd_flags w fd) as [fl|]; [|contradiction]. rewrite (O fl eq_refl). discriminate.
    + rewrite S by exact Hne. exact H.
  - intros fd' m H. rewrite I.
    destruct (can_register w epfd fd) eqn:Hc; [|exact H].
    pose proof (can_register_fresh w epfd fd Hc) as Hf.
    rewrite lookup_insert_ne by congruence. exact H.
Qed.

Lemma on_event_conduct epfd listenfd ev stop w :
  loop_ready listenfd w = true ->
  conduct epfd listenfd w (snd (on_event epfd listenfd ev stop w)).
Proof.
  intros Hready. pose proof Hready as Hr. unfold loop_ready in Hr.
  apply andb_true_iff in Hr as [Hr H3]. apply andb_true_iff in Hr as [H1 H2].
  destruct (listen_event listenfd ev) eqn:Hl.
  - apply Z.eqb_eq in Hl.
    destruct (on_event_listen epfd listenfd ev stop w Hl H1)
      as (c & r & r1 & a & r2 & w1 & w2 & E1 & E2 & E & F & _ & _).
    rewrite E. simpl. apply (conduct_frame _ _ _ _ _ F).
    + apply (grows_trans w w1 w2).
      * destruct (accept_effect listenfd w H1) as (c' & w1' & E1' & _ & _ & I1 & Hc).
        rewrite E1 in E1'. inversion E1'; subst c' w1'.
        split; [|intros fd m; rewrite I1; auto].
        destruct Hc as [(_ & T & _)|(rest & _ & _ & T & _)];
          intros fd; unfold fd_flags; rewrite T; [auto|].
        destruct (fd <? 0); [auto|].
        destruct (decide (c = fd)) as [->|Hne];
          [rewrite lookup_insert_eq; discriminate|rewrite lookup_insert_ne by exact Hne; auto].
      * pose proof (addfd_grows epfd c w1) as G. rewrite E2 in G. exact G.
    + simpl. rewrite !Z.eqb_refl. reflexivity.
  - destruct (bridge_event listenfd (pipefd0 w) ev) eqn:Hb.
    + destruct (on_event_bridge epfd listenfd ev stop w Hb H2)
        as (n & data & w1 & _ & E & F & T & I & _).
      rewrite E. simpl. apply (conduct_frame _ _ _ _ _ F).
      * apply grows_same; assumption.
      * simpl. rewrite Z.eqb_refl. reflexivity.
    + rewrite (on_event_other epfd listenfd ev stop w Hl Hb). apply conduct_refl.
Qed.

Lemma for_events_conduct epfd listenfd evs :
  forall stop w,
    loop_ready listenfd w = true ->
    conduct epfd listenfd w (snd (for_events epfd listenfd evs stop w)).
Proof.
  induction evs as [|ev evs IH]; intros stop w Hready.
  - apply conduct_refl.
  - pose proof (on_event_conduct epfd listenfd ev stop w Hready) as C1.
    destruct (on_event_effect epfd listenfd ev stop w Hready)
      as (s1 & d1 & w1 & E1 & _ & R1 & _).
    simpl. unfold bind. rewrite E1 in *. simpl in C1.
    exact (conduct_trans _ _ _ _ _ C1 (IH s1 w1 R1)).
Qed.

Lemma deliver_conduct epfd listenfd sigs :
  forall w,
    unblocked w (pipefd1 w) = true ->
    conduct epfd listenfd w (snd (deliver sigs w)).
Proof.
  induction sigs as [|s sigs IH]; intros w Hu.
  - apply conduct_refl.
  - simpl. unfold bind. destruct (existsb (Z.eqb s) (handlers w)); [|apply IH; exact Hu].
    destruct (sig_handler_effect s w Hu) as (r & q & E & _). rewrite E.
    set (w1 := record _ _).
    apply (conduct_trans _ _ w w1).
    + apply (conduct_frame _ _ w w1 [CSend (pipefd1 w) [Z.land s 255] 0 r]).
      * unfold frame. simpl. tauto.
      * apply grows_same; reflexivity.
      * simpl. rewrite Z.eqb_refl. reflexivity.
    + apply IH. rewrite (unblocked_ext w w1) by reflexivity. exact Hu.
Qed.

Lemma await_conduct epfd listenfd i w :
  loop_ready listenfd w = true ->
  conduct epfd listenfd w (snd (await epfd i w)).
Proof.
  intros Hready. pose proof Hready as Hr. unfold loop_ready in Hr.
  apply andb_true_iff in Hr as [_ H3].
  pose proof (deliver_conduct epfd listenfd (delivered i) w H3) as C1.
  destruct (deliver_effect (delivered i) w H3) as (d & w1 & E1 & _).
  unfold await, bind. rewrite E1 in *. simpl in C1.
  unfold arrive, epoll_wait.
  apply (conduct_trans _ _ w w1); [exact C1|].
  destruct (reported i) as [evs0|e]; simpl.
  - eapply (conduct_frame _ _ _ _ [CEpollWait epfd _]).
    + unfold frame. simpl. repeat split; reflexivity.
    + apply grows_same; reflexivity.
    + simpl. rewrite Z.eqb_refl. reflexivity.
  - apply (conduct_frame _ _ _ _ [CEpollWait epfd (-1)]).
    + unfold frame. simpl. repeat split; reflexivity.
    + apply grows_same; reflexivity.
    + simpl. rewrite Z.eqb_refl. reflexivity.
Qed.

Lemma event_loop_conduct epfd listenfd ins :
  forall stop w,
    loop_ready listenfd w = true ->
    conduct epfd listenfd w (snd (event_loop epfd listenfd ins stop w)).
Proof.
  induction ins as [|i ins IH]; intros stop w Hready.
  - destruct stop; apply conduct_refl.
  - destruct stop; [rewrite event_loop_stopped; apply conduct_refl|].
    pose proof (await_conduct epfd listenfd i w Hready) as Ca.
    destruct (await_effect epfd listenfd i w Hready)
      as (n & evs & d0 & w1 & E1 & _ & _ & R1 & _).
    rewrite (event_loop_unfold epfd listenfd i ins w n evs w1 E1).
    rewrite E1 in Ca. simpl in Ca.
    destruct ((n <? 0) && negb (errno w1 =? EINTR)).
    + simpl. apply (conduct_trans _ _ w w1); [exact Ca|].
      unfold conduct. simpl. repeat split; try apply grows_same; try reflexivity.
      exists []. rewrite app_nil_r. split; reflexivity.
    + pose proof (for_events_conduct epfd listenfd evs false w1 R1) as Cf.
      destruct (for_events_effect epfd listenfd evs false w1 R1)
        as (s & d & w2 & E2 & _ & R2 & _).
      unfold bind. rewrite E2 in *. simpl in Cf.
      exact (conduct_trans _ _ _ _ _ Ca (conduct_trans _ _ _ _ _ Cf (IH s w2 R2))).
Qed.

(** X10. While it runs, the loop (with the handler running on its
    thread) only waits on its epoll instance, accepts on the listening
    socket, reads (1024 bytes at a time) from [pipefd[0]], writes single
    bytes to [pipefd[1]], registers descriptors for [EPOLLIN|EPOLLET] and
    updates status flags.  It never reads from or writes to an accepted
    connection and never calls [close]. *)
Theorem loop_only_touches_its_descriptors epfd listenfd ins w :
  loop_ready listenfd w = true ->
  exists d,
    log (snd (event_loop epfd listenfd ins false w)) = log w ++ d /\
    forallb (loop_call epfd listenfd (pipefd0 w) (pipefd1 w)) d = true /\
    (forall fd len data r, In (CRecv fd len data r) d -> fd = pipefd0 w) /\
    (forall fd, ~ In (CClose fd) d).
Proof.
  intros Hready.
  destruct (event_loop_conduct epfd listenfd ins false w Hready)
    as (_ & _ & _ & _ & d & L & C).
  exists d. split; [exact L|]. split; [exact C|].
  rewrite forallb_forall in C. split.
  - intros fd len data r H. specialize (C _ H). simpl in C.
    apply andb_true_iff in C as [C _]. apply Z.eqb_eq in C. exact C.
  - intros fd H. specialize (C _ H). discriminate C.
Qed.

Lemma loop_only_touches_its_descriptors_witness :
  exists d,
    log (snd (event_loop 4 3
                [WaitInput [SIGCHLD] [7; 8] (Ready [EpollEvent EPOLLIN 3; EpollEvent EPOLLIN 5]);
                 WaitInput [] [] (Ready [EpollEvent EPOLLIN 7; EpollEvent EPOLLIN 3])]
                false (running_world 64)))
    = log (running_world 64) ++ d /\
    forall fd, ~ In (CClose fd) d.
Proof.
  destruct (loop_only_touches_its_descriptors 4 3
              [WaitInput [SIGCHLD] [7; 8] (Ready [EpollEvent EPOLLIN 3; EpollEvent EPOLLIN 5]);
               WaitInput [] [] (Ready [EpollEvent EPOLLIN 7; EpollEvent EPOLLIN 3])]
              (running_world 64)) as (d & L & _ & _ & H).
  - vm_compute. reflexivity.
  - exists d. split; [exact L|exact H].
Defined.

(** X11. While it runs, the loop closes no descriptor and removes nothing
    from the interest list: whatever was open stays open, whatever was
    registered stays registered with the same event mask, and the handlers
    and the pipe descriptors stay in place.  Accepted connections are thus
    kept open and registered for as long as the loop runs. *)
Theorem loop_closes_and_unregisters_nothing epfd listenfd ins w :
  loop_ready listenfd w = true ->
  (forall fd, fd_flags w fd <> None ->
              fd_flags (snd (event_loop epfd listenfd ins false w)) fd <> None) /\
  (forall fd m, interest w !! fd = Some m ->
                interest (snd (event_loop epfd listenfd ins false w)) !! fd = Some m) /\
  handlers (snd (event_loop epfd listenfd ins false w)) = handlers w /\
  pipefd0 (snd (event_loop epfd listenfd ins false w)) = pipefd0 w /\
  pipefd1 (snd (event_loop epfd listenfd ins false w)) = pipefd1 w.
Proof.
  intros Hready.
  destruct (event_loop_conduct epfd listenfd ins false w Hready)
    as (P0 & P1 & H & [G1 G2] & _).
  repeat split; assumption.
Qed.

Lemma loop_closes_and_unregisters_nothing_witness :
  interest (snd (event_loop 4 3
                   [WaitInput [] [7] (Ready [EpollEvent EPOLLIN 3]);
                    WaitInput [SIGINT] [] (Ready [EpollEvent EPOLLIN 5])]
                   false (running_world 64))) !! 3
  = Some (Z.lor EPOLLIN EPOLLET).
Proof.
  destruct (loop_closes_and_unregisters_nothing 4 3
              [WaitInput [] [7] (Ready [EpollEvent EPOLLIN 3]);
               WaitInput [SIGINT] [] (Ready [EpollEvent EPOLLIN 5])]
              (running_world 64)) as (_ & H & _).
  - vm_compute. reflexivity.
  - apply H. vm_compute. reflexivity.
Defined.

(** ** Pending connections *)

(** X12. One connection per readiness notification: a batch with [k]
    events for the listening socket takes the [k] oldest pending
    connections (all of them if fewer are pending) and leaves the others
    in the queue, however many are waiting. *)
Theorem listen_events_take_one_connection_each epfd listenfd evs :
  forall stop w,
    loop_ready listenfd w = true ->
    fd_flags w listenfd <> None ->
    exists stop' w1,
      for_events epfd listenfd evs stop w = (Ret stop', w1) /\
      backlog w1 = skipn (occurrences (listen_event listenfd) evs) (backlog w).
Proof.
  induction evs as [|ev evs IH]; intros stop w Hready Hopen.
  - exists stop, w. split; reflexivity.
  - pose proof Hready as Hr. unfold loop_ready in Hr.
    apply andb_true_iff in Hr as [Hr _]. apply andb_true_iff in Hr as [H1 H2].
    pose proof (on_event_conduct epfd listenfd ev stop w Hready) as (_ & _ & _ & [G _] & _).
    destruct (on_event_effect epfd listenfd ev stop w Hready)
      as (s1 & d1 & w1 & E1 & _ & R1 & _).
    rewrite E1 in G. simpl in G.
    destruct (IH s1 w1 R1 (G _ Hopen)) as (s2 & w2 & E2 & B2).
    exists s2, w2. split. { simpl. unfold bind. rewrite E1. exact E2. }
    rewrite B2. unfold occurrences. simpl.
    destruct (listen_event listenfd ev) eqn:Hl.
    + apply Z.eqb_eq in Hl.
      destruct (on_event_listen epfd listenfd ev stop w Hl H1)
        as (c & r & r1 & a & r2 & wa & wb & Ea & Eb & E & _).
      rewrite E in E1. inversion E1; subst s1 w1.
      destruct (addfd_effect epfd c wa) as (q & q1 & qa & q2 & wb' & Eb' & _ & _ & Kb & _).
      rewrite Eb in Eb'. inversion Eb'; subst wb'. rewrite Kb.
      destruct (accept_effect listenfd w H1) as (c' & wa' & Ea' & _ & _ & _ & Hc).
      rewrite Ea in Ea'. inversion Ea'; subst c' wa'.
      destruct Hc as [(_ & _ & K & [Hn|Hn])|(rest & Hb & K & _)].
      * contradiction.
      * rewrite K, Hn. simpl. rewrite !skipn_nil. reflexivity.
      * rewrite K, Hb. reflexivity.
    + destruct (bridge_event listenfd (pipefd0 w) ev) eqn:Hb.
      * destruct (on_event_bridge epfd listenfd ev stop w Hb H2)
          as (n & data & w1' & _ & E & _ & _ & _ & K & _).
        rewrite E in E1. inversion E1; subst w1. rewrite K. reflexivity.
      * rewrite (on_event_other epfd listenfd ev stop w Hl Hb) in E1.
        inversion E1; subst w1. reflexivity.
Qed.

Lemma listen_events_take_one_connection_each_witness :
  exists stop' w1,
    for_events 4 3 [EpollEvent EPOLLIN 3] false (set_backlog [7; 8; 9] (running_world 64))
    = (Ret stop', w1) /\
    backlog w1 = [8; 9].
Proof.
  destruct (listen_events_take_one_connection_each 4 3 [EpollEvent EPOLLIN 3] false
              (set_backlog [7; 8; 9] (running_world 64))) as (s & w1 & E & B).
  - vm_compute. reflexivity.
  - vm_compute. discriminate.
  - exists s, w1. split; [exact E|exact B].
Defined.

(** ** Further properties of the client *)

(** X13. What a client the server let in sends, as the other side reads
    the records.  The thread is created, the sends return, and a name of 1
    to 19 characters is typed, then lines of fewer than 100 characters, none
    of them "bye".  The client calls [pthread_create], prompts, and sends
    the USER record with the name (its [buf] is what the greeting left
    there); then the rest of the name's line, which is empty, and every
    line go out as MSG records with that name, in order.  When the line
    "bye" follows, it goes out as an EXIT record, the thread is cancelled,
    the socket closed and [main] returns 0; what comes after "bye" is never
    read.  When nothing follows and the stream is open, the client waits
    for input.  When nothing follows and the stream has ended, the loop goes
    on without input, sending the last record again on every pass. *)
Theorem client_sends_each_line_until_bye e g name lines rest :
  Client.welcomed e = true ->
  Client.c_recv e = Some g ->
  Client.c_malloc e = true ->
  Client.c_thread e = true ->
  (forall n, Client.c_send e n = Client.Returns) ->
  good_name name = true ->
  forallb good_line lines = true ->
  ~ In Client.bye lines ->
  (Client.c_stdin e = typed name (lines ++ [Client.bye]) ++ rest ->
   exists imgs,
     Client.main e
     = Client.Exit 0
         ([Client.PthreadCreate; Client.Print ("Please input the username:" +:+ nl)]
          ++ map Client.Send imgs ++ [Client.PthreadCancel; Client.Close]) /\
     map Client.view imgs
     = session (string_of_list_ascii name) (Client.buf (Client.view (Client.loaded g)))
         ([] :: lines)
       ++ [Client.ClientMsg Client.EXIT (string_of_list_ascii name) "bye"]) /\
  (Client.c_stdin e = typed name lines ->
   exists imgs,
     map Client.view imgs
     = session (string_of_list_ascii name) (Client.buf (Client.view (Client.loaded g)))
         ([] :: lines) /\
     Client.main e
     = if Client.c_eof e
       then Client.Flooding
              ([Client.PthreadCreate; Client.Print ("Please input the username:" +:+ nl)]
               ++ map Client.Send imgs)
              (Client.set_op Client.MSG (List.last imgs (Client.loaded g)))
       else Client.Reading
              ([Client.PthreadCreate; Client.Print ("Please input the username:" +:+ nl)]
               ++ map Client.Send imgs)).
Proof.
  intros Hw Hg Hmal Hthr Hsend Hname Hlines Hno.
  pose proof Hname as Hnul. unfold good_name in Hnul.
  apply andb_true_iff in Hnul as [_ Hnul]. apply MainFacts.forallb_both in Hnul as [_ Hnul].
  split.
  - intros Hin.
    assert (Hin' : Client.c_stdin e
                   = typed name lines ++ (Client.bye ++ Client.newline :: rest)).
    { rewrite Hin. unfold typed. rewrite map_app, concat_app. simpl.
      rewrite <- !app_assoc. simpl. rewrite <- !app_assoc. reflexivity. }
    destruct (MainFacts.main_typed e g name lines _ Hw Hg Hmal Hsend Hname Hlines Hno Hin')
      as (imgs & sent & Hlast & _ & Hviews & E).
    rewrite E, (MainFacts.gets_results_line Client.bye rest (Client.c_eof e) eq_refl).
    destruct (MainFacts.input_loop_bye e name (Client.gets_results rest (Client.c_eof e))
                (List.last imgs (Client.loaded g)) sent
                ([Client.PthreadCreate; Client.Print ("Please input the username:" +:+ nl)]
                 ++ map Client.Send imgs) Hnul Hlast) as (El & Hv & _).
    rewrite El. unfold Client.leave. rewrite Hsend, Hthr.
    exists (imgs ++ [Client.set_op Client.EXIT
                       (with_line Client.bye (List.last imgs (Client.loaded g)))]).
    split.
    + rewrite map_app. simpl map. rewrite <- !app_assoc. reflexivity.
    + rewrite map_app, Hviews. simpl map. rewrite Hv. reflexivity.
  - intros Hin.
    assert (Hin' : Client.c_stdin e = typed name lines ++ [])
      by (rewrite app_nil_r; exact Hin).
    destruct (MainFacts.main_typed e g name lines _ Hw Hg Hmal Hsend Hname Hlines Hno Hin')
      as (imgs & sent & Hlast & Hquiet & Hviews & E).
    exists imgs. split; [exact Hviews|].
    rewrite E.
    assert (Hnone : Client.gets_results [] (Client.c_eof e) = [])
      by (destruct (Client.c_eof e); reflexivity).
    rewrite Hnone, MainFacts.input_loop_end.
    destruct (Client.c_eof e); [|reflexivity].
    change (Client.says_bye (Client.set_op Client.MSG (List.last imgs (Client.loaded g))))
      with (Client.says_bye (List.last imgs (Client.loaded g))).
    rewrite Hquiet. reflexivity.
Qed.

Lemma client_sends_each_line_until_bye_witness :
  exists imgs,
    Client.main
      (Client.ClientEnv (Success 3) (Success 0) (Some (Client.Image Client.OK []))
         true true (fun _ => Client.Returns)
         (list_ascii_of_string
            ("alice" +:+ nl +:+ "hi" +:+ nl +:+ "bye " +:+ nl +:+ "bye" +:+ nl +:+ "late"))
         false)
    = Client.Exit 0
        ([Client.PthreadCreate; Client.Print ("Please input the username:" +:+ nl)]
         ++ map Client.Send imgs ++ [Client.PthreadCancel; Client.Close]) /\
    map Client.view imgs
    = [Client.ClientMsg Client.USER "alice" "";
       Client.ClientMsg Client.MSG "alice" "";
       Client.ClientMsg Client.MSG "alice" "hi";
       Client.ClientMsg Client.MSG "alice" "bye ";
       Client.ClientMsg Client.EXIT "alice" "bye"].
Proof.
  refine (proj1 (client_sends_each_line_until_bye
                   (Client.ClientEnv (Success 3) (Success 0)
                      (Some (Client.Image Client.OK []))
                      true true (fun _ => Client.Returns)
                      (list_ascii_of_string
                         ("alice" +:+ nl +:+ "hi" +:+ nl +:+ "bye " +:+ nl +:+ "bye"
                          +:+ nl +:+ "late"))
                      false)
                   (Client.Image Client.OK []) (list_ascii_of_string "alice")
                   [list_ascii_of_string "hi"; list_ascii_of_string "bye "]
                   (list_ascii_of_string "late")
                   eq_refl eq_refl eq_refl eq_refl (fun _ => eq_refl) _ _ _) _).
  - vm_compute. reflexivity.
  - vm_compute. reflexivity.
  - simpl. intros [H|[H|[]]]; discriminate H.
  - vm_compute. reflexivity.
Defined.

(** X14. A client that was not let in sends nothing and creates no
    thread, and what it does instead depends on what went wrong.  When
    [socket] failed it calls [perror("socket error\n")] and exits with
    status 1; when [connect] failed it calls [perror("connect() error\n")]
    and exits with status 1; when the first [recv] does not come back it
    stays suspended there; when the first record does not carry OK it
    prints "max connection limit", closes the socket and returns 0. *)
Theorem client_not_welcomed_sends_nothing e :
  (Client.socket_ok e = false ->
   Client.main e = Client.Exit 1 [Client.Perror ("socket error" +:+ nl)]) /\
  (Client.socket_ok e = true -> Client.connect_ok e = false ->
   Client.main e = Client.Exit 1 [Client.Perror ("connect() error" +:+ nl)]) /\
  (Client.socket_ok e = true -> Client.connect_ok e = true ->
   Client.c_recv e = None ->
   Client.main e = Client.Suspended []) /\
  (forall g,
     Client.socket_ok e = true -> Client.connect_ok e = true ->
     Client.c_recv e = Some g -> Client.i_op g <> Client.OK ->
     Client.main e
     = Client.Exit 0 [Client.Print ("max connection limit" +:+ nl); Client.Close]) /\
  (Client.welcomed e = false ->
   existsb is_send_action (Client.trace (Client.main e)) = false /\
   existsb is_thread_action (Client.trace (Client.main e)) = false).
Proof.
  unfold Client.welcomed, Client.socket_ok, Client.connect_ok, Client.main.
  destruct (Client.c_socket e) as [s|es].
  2: { repeat split; try discriminate; reflexivity. }
  destruct (s =? -1).
  { repeat split; try discriminate; reflexivity. }
  destruct (Client.c_connect e) as [r|er].
  2: { repeat split; try discriminate; reflexivity. }
  destruct (r =? -1).
  { repeat split; try discriminate; reflexivity. }
  destruct (Client.c_recv e) as [g|].
  2: { repeat split; try discriminate; reflexivity. }
  change (Client.i_op (Client.loaded g)) with (Client.i_op g).
  destruct (Z.eqb_spec (Client.i_op g) Client.OK) as [Hok|Hne].
  - split; [discriminate|]. split; [discriminate|]. split; [discriminate|].
    split; [|discriminate].
    intros g' _ _ Hg' Hne. injection Hg' as <-. contradiction.
  - split; [discriminate|]. split; [discriminate|]. split; [discriminate|].
    split; [reflexivity|]. intros _. split; reflexivity.
Qed.

Lemma client_not_welcomed_sends_nothing_witness :
  Client.main (Client.ClientEnv (Success 3) (Success 0)
                 (Some (Client.Image Client.EXIT [])) true true (fun _ => Client.Returns)
                 (list_ascii_of_string ("alice" +:+ nl +:+ "bye" +:+ nl)) false)
  = Client.Exit 0 [Client.Print ("max connection limit" +:+ nl); Client.Close] /\
  Client.main (Client.ClientEnv (Success 3) (Failure 111)
                 (Some (Client.Image Client.OK [])) true true (fun _ => Client.Returns)
                 (list_ascii_of_string ("alice" +:+ nl +:+ "bye" +:+ nl)) false)
  = Client.Exit 1 [Client.Perror ("connect() error" +:+ nl)].
Proof.
  split.
  - destruct (client_not_welcomed_sends_nothing
                (Client.ClientEnv (Success 3) (Success 0)
                   (Some (Client.Image Client.EXIT [])) true true (fun _ => Client.Returns)
                   (list_ascii_of_string ("alice" +:+ nl +:+ "bye" +:+ nl)) false))
      as (_ & _ & _ & H & _).
    apply (H (Client.Image Client.EXIT [])); [reflexivity..|discriminate].
  - destruct (client_not_welcomed_sends_nothing
                (Client.ClientEnv (Success 3) (Failure 111)
                   (Some (Client.Image Client.OK [])) true true (fun _ => Client.Returns)
                   (list_ascii_of_string ("alice" +:+ nl +:+ "bye" +:+ nl)) false))
      as (_ & H & _).
    apply H; reflexivity.
Defined.

Lemma process_cli_body_printable r :
  if printable r
  then exists line, forall out,
         Client.process_cli_body r out = Client.Continue (out ++ [line])
  else forall out, Client.process_cli_body r out = Client.Continue out.
Proof.
  unfold printable, Client.process_cli_body.
  destruct (0 <? Client.len r); [|intros out; reflexivity].
  destruct (Client.op (Client.content r) =? Client.USER);
    [eexists; intros out; reflexivity|].
  destruct (Client.op (Client.content r) =? Client.EXIT);
    [eexists; intros out; reflexivity|].
  destruct (Client.op (Client.content r) =? Client.MSG);
    [eexists; intros out; reflexivity|].
  intros out; reflexivity.
Qed.

(** X15. What the receiver prints depends only on the records that
    arrived with a positive length and an [op] of USER, EXIT or MSG: every
    other [recv] result (zero or negative length, or any other [op], OK
    included) can be dropped from the sequence without changing the
    output.  The receiver prints exactly one line for each of the others,
    whatever the length was (a record received in part is printed like a
    whole one). *)
Theorem receiver_prints_one_line_per_printable_record rs :
  forall out,
    Client.process_cli rs out = Client.process_cli (List.filter printable rs) out /\
    (exists added,
       Client.process_cli rs out = Client.InLoop (out ++ added) /\
       length added = length (List.filter printable rs)) /\
    (forall l1 l2 m,
       0 < l1 -> 0 < l2 ->
       Client.process_cli_body (Client.Received l1 m) out
       = Client.process_cli_body (Client.Received l2 m) out).
Proof.
  unfold Client.process_cli.
  induction rs as [|r rs IH]; intros out.
  - split; [reflexivity|]. split.
    + exists []. rewrite app_nil_r. split; reflexivity.
    + intros l1 l2 m H1 H2. unfold Client.process_cli_body. simpl.
      apply Z.ltb_lt in H1, H2. rewrite H1, H2. reflexivity.
  - pose proof (process_cli_body_printable r) as Hr.
    split; [|split].
    + simpl. destruct (printable r) eqn:Hp.
      * destruct Hr as [line Hr]. simpl. rewrite !Hr. exact (proj1 (IH (out ++ [line]))).
      * rewrite Hr. exact (proj1 (IH out)).
    + simpl. destruct (printable r) eqn:Hp.
      * destruct Hr as [line Hr]. rewrite Hr.
        destruct (IH (out ++ [line])) as (_ & (added & Ea & La) & _).
        exists (line :: added). rewrite Ea, <- app_assoc. split; [reflexivity|].
        simpl. rewrite La. reflexivity.
      * rewrite Hr. exact (proj1 (proj2 (IH out))).
    + exact (proj2 (proj2 (IH out))).
Qed.

(** ** The signal number on its way *)

(** X16. The byte written by the handler identifies the signal.  For a
    signal number that fits a [char] (0 to 127, which covers every Linux
    signal) the first byte of the [int] in memory is the number itself, the
    [char] the loop reads back is that number again, so the [switch]
    decides as it would on the number; two such signals never share a
    byte. *)
Theorem signal_number_survives_the_pipe s stop :
  small_signal s = true ->
  firstn 1 (int_bytes s) = [s] /\
  char_of_byte (signal_byte s) = s /\
  classify (char_of_byte (signal_byte s)) stop = classify s stop /\
  (forall s', small_signal s' = true -> signal_byte s = signal_byte s' -> s = s').
Proof.
  intros Hs. pose proof (char_of_signal_byte s Hs) as Hc.
  assert (Hb : signal_byte s = s).
  { unfold small_signal in Hs. apply andb_true_iff in Hs as [H0 H1].
    apply Z.leb_le in H0. apply Z.ltb_lt in H1. unfold signal_byte.
    change 255 with (Z.ones 8). rewrite Z.land_ones by lia. apply Z.mod_small. lia. }
  split. { rewrite low_byte. fold (signal_byte s). rewrite Hb. reflexivity. }
  split; [exact Hc|]. split; [rewrite Hc; reflexivity|].
  intros s' Hs' He. rewrite <- Hc, He. apply char_of_signal_byte. exact Hs'.
Qed.

Lemma signal_number_survives_the_pipe_witness :
  firstn 1 (int_bytes SIGTERM) = [SIGTERM] /\ char_of_byte (signal_byte SIGCHLD) = SIGCHLD.
Proof.
  split.
  - exact (proj1 (signal_number_survives_the_pipe SIGTERM false eq_refl)).
  - exact (proj1 (proj2 (signal_number_survives_the_pipe SIGCHLD false eq_refl))).
Defined.

(** X17. No code path clears [stop_server]: a batch dispatched with the
    flag already true ends with the flag true, whatever the events and the
    bytes read are, and so does the classification of any buffer. *)
Theorem stop_flag_is_never_cleared epfd listenfd evs w :
  loop_ready listenfd w = true ->
  (exists w1, for_events epfd listenfd evs true w = (Ret true, w1)) /\
  (forall n data, classify_all n data true = true) /\
  (forall ev, exists w1, on_event epfd listenfd ev true w = (Ret true, w1)).
Proof.
  intros Hready. split; [|split].
  - destruct (for_events_effect epfd listenfd evs true w Hready)
      as (s & d & w1 & E & _ & _ & S & _).
    exists w1. rewrite E, S. reflexivity.
  - intros n data. unfold classify_all.
    induction (firstn (Z.to_nat n) data) as [|b l IH]; simpl; [reflexivity|].
    rewrite classify_flag. simpl. exact IH.
  - intros ev. destruct (on_event_effect epfd listenfd ev true w Hready)
      as (s & d & w1 & E & _ & _ & S & _).
    exists w1. rewrite E, S. reflexivity.
Qed.

Lemma stop_flag_is_never_cleared_witness :
  exists w1,
    for_events 4 3 [EpollEvent EPOLLIN 5; EpollEvent EPOLLIN 3] true
      (set_bridge [17; 1; 200] (running_world 64)) = (Ret true, w1).
Proof.
  destruct (stop_flag_is_never_cleared 4 3 [EpollEvent EPOLLIN 5; EpollEvent EPOLLIN 3]
              (set_bridge [17; 1; 200] (running_world 64))) as [H _].
  - vm_compute. reflexivity.
  - exact H.
Defined.
